(** * Firearm background checks against U.S. Census data

    A shallow embedding of [Investigate_a_Dataset.py]: the pandas pipeline that
    cleans the two tables and answers the five research questions.

    Conventions of the embedding.
    - A pandas [int64] value is a [Z]; additions and subtractions performed on
      [int64] columns wrap around ([wrap64]).
    - A pandas/NumPy [float64] value is an exact rational [Qc]; [NaN] is a
      separate constructor (or [None] in a typed series).  Rounding of
      floating-point operations is outside the model.
    - A Python exception is a value of [exn]; code that can raise returns
      [result]. *)

From Stdlib Require Import ZArith QArith Qcanon Lia Ascii.
From stdpp Require Import base decidable option sorting strings numbers pretty list.

Local Open Scope Z_scope.

(* ================================================================= *)
(** * The program *)

(** ** Numbers *)

(** Two's-complement wrap-around of [int64] arithmetic. *)
Definition wrap64 (z : Z) : Z := (z + 2 ^ 63) `mod` 2 ^ 64 - 2 ^ 63.

Definition in_int64 (z : Z) : Prop := - 2 ^ 63 ≤ z < 2 ^ 63.

Global Instance in_int64_dec z : Decision (in_int64 z).
Proof. unfold in_int64. apply _. Defined.

Definition Zsum (l : list Z) : Z := foldr Z.add 0 l.
Definition Qcsum (l : list Qc) : Qc := foldr Qcplus (Qc_of_Z 0) l.
Definition Qc_of_nat (n : nat) : Qc := Qc_of_Z (Z.of_nat n).

(** [Series.sum()] of an [int64] column. *)
Definition sum_int64 (l : list Z) : Z := wrap64 (Zsum l).

(** [Series.mean()] of an [int64] column: the sum is accumulated in
    [float64] and divided by the count; an empty column gives [NaN]. *)
Definition mean_int64 (l : list Z) : option Qc :=
  match l with
  | [] => None
  | _ => Some (Qc_of_Z (Zsum l) / Qc_of_nat (length l))%Qc
  end.

(** [Series.mean()] of a [float64] column: [NaN] entries are skipped
    ([skipna=True]); when nothing is left the result is [NaN]. *)
Definition mean_float (l : list (option Qc)) : option Qc :=
  let vs := omap id l in
  match vs with
  | [] => None
  | _ => Some (Qcsum vs / Qc_of_nat (length vs))%Qc
  end.

(** The reduced fraction behind a float, for reading off computed values. *)
Definition float_value (x : option Qc) : option Q := this <$> x.

Definition float_values (l : list (option Qc)) : list (option Q) := float_value <$> l.

(** Python [int(x)] of a float: truncation toward zero. *)
Definition int_of_float (q : Qc) : Z := Z.quot (Qnum (this q)) (Z.pos (Qden (this q))).

(** ** Python exceptions *)

Record exn := Raise { exn_class : string; exn_msg : string }.

Inductive result (A : Type) : Type :=
  | Ok (a : A)
  | Err (e : exn).
Arguments Ok {A} a.
Arguments Err {A} e.

Global Instance result_ret : MRet result := λ _ a, Ok a.
Global Instance result_bind : MBind result := λ _ _ f r,
  match r with
  | Ok a => f a
  | Err e => Err e
  end.

Global Instance result_fmap : FMap result := λ _ _ f r,
  match r with
  | Ok a => Ok (f a)
  | Err e => Err e
  end.

Definition ValueError (msg : string) : exn := Raise "ValueError" msg.
Definition IndexError (msg : string) : exn := Raise "IndexError" msg.
Definition KeyError (msg : string) : exn := Raise "KeyError" msg.
Definition AttributeError (msg : string) : exn := Raise "AttributeError" msg.
Definition TypeError (msg : string) : exn := Raise "TypeError" msg.
Definition OverflowError (msg : string) : exn := Raise "OverflowError" msg.

(** Apply [f] to every element, left to right, stopping at the first
    exception. *)
Fixpoint traverse {A B} (f : A → result B) (l : list A) : result (list B) :=
  match l with
  | [] => Ok []
  | x :: l' => y ← f x; ys ← traverse f l'; Ok (y :: ys)
  end.

(** ** Strings *)

Fixpoint remove_char (c : Ascii.ascii) (s : string) : string :=
  match s with
  | EmptyString => EmptyString
  | String a s' => if decide (a = c) then remove_char c s' else String a (remove_char c s')
  end.

(** The ASCII characters [str.strip()] removes: the codes 9 to 13 (tab, line
    feed, vertical tab, form feed, carriage return), the four separators 28
    to 31, and the space. *)
Definition is_space (a : Ascii.ascii) : bool :=
  let n := nat_of_ascii a in
  bool_decide ((9 ≤ n ≤ 13)%nat ∨ (28 ≤ n ≤ 32)%nat).

Fixpoint lstrip (s : string) : string :=
  match s with
  | EmptyString => EmptyString
  | String a s' => if is_space a then lstrip s' else s
  end.

Definition strip (s : string) : string :=
  String.rev (lstrip (String.rev (lstrip s))).

(** The white space [float] and [int] skip around a number: the codes 9 to
    13 and the space, without the separators 28 to 31. *)
Fixpoint lstrip_c (s : string) : string :=
  match s with
  | EmptyString => EmptyString
  | String a s' => if Ascii.is_space a then lstrip_c s' else s
  end.

Definition strip_c (s : string) : string :=
  String.rev (lstrip_c (String.rev (lstrip_c s))).

(** The text before the first [c], and the text after it if [c] occurs. *)
Fixpoint split_first (c : Ascii.ascii) (s : string) : string * option string :=
  match s with
  | EmptyString => (EmptyString, None)
  | String a s' =>
      if decide (a = c) then (EmptyString, Some s')
      else let '(h, t) := split_first c s' in (String a h, t)
  end.

Fixpoint digits (s : string) : option (list Z) :=
  match s with
  | EmptyString => Some []
  | String a s' => d ← Ascii.is_nat a; ds ← digits s'; Some (Z.of_nat d :: ds)
  end.

Definition decimal_value (ds : list Z) : Z := foldl (λ acc d, 10 * acc + d) 0 ds.

Definition parse_unsigned (s : string) : option Qc :=
  let '(ip, fp) := split_first "."%char s in
  i ← digits ip; f ← digits (default EmptyString fp);
  if decide (i = [] ∧ f = []) then None
  else Some (Qc_of_Z (decimal_value (i ++ f)) / Qc_of_Z (10 ^ Z.of_nat (length f)))%Qc.

(** Python [float(s)] on plain decimal text: surrounding white space, an
    optional sign, digits with an optional fractional part.  On ASCII text
    without the underscore and without letters this is what [float] does.
    The other spellings [float] reads (exponents, [inf], [nan], digit-group
    underscores, digits outside ASCII) are outside the model, which answers
    them as unreadable; a property that speaks of the value read, or of a
    failure to read, is stated for text on which the two agree. *)
Definition parse_float (s : string) : option Qc :=
  match strip_c s with
  | String "-"%char r => Qcopp <$> parse_unsigned r
  | String "+"%char r => parse_unsigned r
  | r => parse_unsigned r
  end.

(** Python [int(s)]: surrounding white space, an optional sign, digits.
    Digit-group underscores and digits outside ASCII, which [int] also
    reads, are outside the model. *)
Definition parse_int (s : string) : option Z :=
  let body (r : string) : option Z :=
    ds ← digits r; if decide (ds = []) then None else Some (decimal_value ds) in
  match strip_c s with
  | String "-"%char r => Z.opp <$> body r
  | String "+"%char r => body r
  | r => body r
  end.

(** ** Tables

    A cell of an [object] column is a string, a number or [NaN].  A frame is
    kept row by row, with its column labels and its index (row) labels.
    Column labels are distinct in every table [pd.read_csv] returns; a lookup
    by name takes the first column so labelled. *)

Inductive cell :=
  | CStr (s : string)
  | CNum (q : Qc)
  | CNaN.

Global Instance cell_eq_dec : EqDecision cell.
Proof. solve_decision. Defined.

Record frame := Frame {
  columns : list cell;
  index : list cell;
  data : list (list cell)
}.

(** The [RangeIndex] of [n] rows. *)
Definition range_index (n : nat) : list cell :=
  (λ i, CNum (Qc_of_nat i)) <$> seq 0 n.

(** What [pd.read_csv] returns for a header and its records. *)
Definition read_csv (header : list string) (records : list (list cell)) : frame :=
  Frame (CStr <$> header) (range_index (length records)) records.

(** Keep the entries whose mask bit is set ([df[mask]]). *)
Definition boolean_mask {A} (mask : list bool) (l : list A) : list A :=
  (zip mask l) ≫= λ p : bool * A, if p.1 then [p.2] else [].

(** The position of the column labelled [name]. *)
Definition column_position (name : string) (f : frame) : option nat :=
  fst <$> list_find (λ c, c = CStr name) (columns f).

(** The cell of a row at position [p]; a record cut short reads as [NaN]. *)
Definition cell_at (p : nat) (row : list cell) : cell := default CNaN (row !! p).

(** The cells of the column at position [p]. *)
Definition column_at (p : nat) (f : frame) : list cell := cell_at p <$> data f.

(** [df[name]]. *)
Definition get_column (name : string) (f : frame) : result (list cell) :=
  match column_position name f with
  | Some p => Ok (column_at p f)
  | None => Err (KeyError name)
  end.

(** [df[name] = values]: overwrite the column, or append it when new. *)
Definition set_column (name : string) (values : list cell) (f : frame) : frame :=
  match column_position name f with
  | Some p =>
      Frame (columns f) (index f)
        (zip_with (λ row v, <[p := v]> row) (data f) values)
  | None =>
      Frame (columns f ++ [CStr name]) (index f)
        (zip_with (λ row v, row ++ [v]) (data f) values)
  end.

(** Keep the columns at the listed positions, in that order. *)
Definition pick (ps : list nat) (row : list cell) : list cell :=
  (λ p, cell_at p row) <$> ps.

Definition take_positions (ps : list nat) (f : frame) : frame :=
  Frame (pick ps (columns f)) (index f) (pick ps <$> data f).

(** [df.iloc[:, positions]] with a list of positions: any position outside
    the table raises. *)
Definition iloc_columns (ps : list nat) (f : frame) : result frame :=
  if decide (Forall (λ p, p < length (columns f))%nat ps)
  then Ok (take_positions ps f)
  else Err (IndexError "positional indexers are out-of-bounds").

(** [df.drop(labels, axis=1)] for labels that are all present: every column
    carrying one of the labels goes. *)
Definition drop_columns (labels : list cell) (f : frame) : frame :=
  take_positions
    (fst <$> filter (λ pc : nat * cell, pc.2 ∉ labels)
               (zip (seq 0 (length (columns f))) (columns f)))
    f.

(** [df.drop(labels)] on the rows. *)
Definition drop_rows (labels : list cell) (f : frame) : frame :=
  let mask := (λ l, bool_decide (l ∉ labels)) <$> index f in
  Frame (columns f) (boolean_mask mask (index f)) (boolean_mask mask (data f)).

(** ** Duplicate rows *)

(** [df.duplicated()]: a row is marked when an equal row precedes it. *)
Fixpoint duplicated_from {A} `{EqDecision A} (seen l : list A) : list bool :=
  match l with
  | [] => []
  | x :: l' => bool_decide (x ∈ seen) :: duplicated_from (x :: seen) l'
  end.

(** The rows that are not marked, given the rows seen so far. *)
Definition kept_from {A} `{EqDecision A} (seen l : list A) : list A :=
  boolean_mask (negb <$> duplicated_from seen l) l.

Definition duplicated (f : frame) : list bool := duplicated_from [] (data f).

(** Lines 85 and 111: [df.duplicated().sum()]. *)
Definition duplicated_sum (f : frame) : nat :=
  length (filter (λ b, b = true) (duplicated f)).

(** Line 128: [census.drop_duplicates(inplace=True)]. *)
Definition drop_duplicates (f : frame) : frame :=
  let mask := negb <$> duplicated f in
  Frame (columns f) (boolean_mask mask (index f)) (boolean_mask mask (data f)).

(** ** Orientation of the Census table *)

(** Line 214: [census.T]. *)
Definition transpose (f : frame) : frame :=
  Frame (index f) (columns f)
    ((λ j, cell_at j <$> data f) <$> seq 0 (length (columns f))).

(** Line 223: [census.columns = census.iloc[0]]. *)
Definition promote_header (f : frame) : result frame :=
  match data f with
  | [] => Err (IndexError "single positional indexer is out-of-bounds")
  | row :: _ =>
      if decide (length row = length (columns f))
      then Ok (Frame row (index f) (data f))
      else Err (ValueError
                  ("Length mismatch: Expected axis has " +:+ pretty (length (columns f))
                   +:+ " elements, new values have " +:+ pretty (length row)
                   +:+ " elements"))
  end.

(** Line 232: [census.drop(census.index[0:2])]. *)
Definition drop_first_two (f : frame) : frame := drop_rows (take 2 (index f)) f.

(** Line 241: [census.reset_index(drop = False, inplace = True)].  The old
    index becomes the first column, called [index], or [level_0] when a
    column [index] exists. *)
Definition reset_index (f : frame) : result frame :=
  let name := if decide (CStr "index" ∈ columns f) then "level_0" else "index" in
  if decide (CStr name ∈ columns f)
  then Err (ValueError ("cannot insert " +:+ name +:+ ", already exists"))
  else Ok (Frame (CStr name :: columns f) (range_index (length (index f)))
             (zip_with cons (index f) (data f))).

(** Line 259: [census.rename(columns = {'index':'State'})]. *)
Definition rename_columns (old new : string) (f : frame) : frame :=
  Frame ((λ l, if decide (l = CStr old) then CStr new else l) <$> columns f)
    (index f) (data f).

(** Lines 214-259. *)
Definition orient_census (f : frame) : result frame :=
  f ← promote_header (transpose f);
  f ← reset_index (drop_first_two f);
  Ok (rename_columns "index" "State" f).

(** ** Cleaning the Census table *)

(** Line 277: [census.iloc[:, np.r_[0,1, 13:21, 35:37, 50]]]. *)
Definition census_positions : list nat :=
  ([0; 1] ++ seq 13 8 ++ seq 35 2 ++ [50])%nat.

Definition select_census_columns (f : frame) : result frame :=
  iloc_columns census_positions f.

(** ** Column labels of the Census table *)

Fixpoint map_string (g : Ascii.ascii → Ascii.ascii) (s : string) : string :=
  match s with
  | EmptyString => EmptyString
  | String a s' => String (g a) (map_string g s')
  end.

(** [str.lower()] on the letters A to Z; other bytes are kept. *)
Definition lower_char (a : Ascii.ascii) : Ascii.ascii :=
  let n := nat_of_ascii a in
  if decide (65 ≤ n ≤ 90)%nat then ascii_of_nat (n + 32) else a.

(** Labels that are not text give [NaN] under the [.str] methods. *)
Definition map_labels (g : string → string) (f : frame) : frame :=
  Frame ((λ l, match l with CStr s => CStr (g s) | _ => CNaN end) <$> columns f)
    (index f) (data f).

(** Line 286: [census.columns.str.split(',').str[0]]. *)
Definition before_comma (s : string) : string := (split_first ","%char s).1.

(** Line 295: [census.columns.values[[2, 9]] =
    ['White alone', 'White alone non hispanic']]. *)
Definition rename_white (f : frame) : result frame :=
  if decide (9 < length (columns f))%nat
  then Ok (Frame (<[9%nat := CStr "White alone non hispanic"]>
                    (<[2%nat := CStr "White alone"]> (columns f)))
             (index f) (data f))
  else Err (IndexError
              ("index 9 is out of bounds for axis 0 with size "
               +:+ pretty (length (columns f)))).

(** Line 304: [.str.strip().str.lower().str.replace(' ', '_')].  White space
    is the ASCII white space of [is_space], and the letters lowered are A to
    Z: the function is [str] arithmetic on ASCII text. *)
Definition normalize_label (s : string) : string :=
  map_string (λ a, if decide (a = " "%char) then "_"%char else a)
    (map_string lower_char (strip s)).

(** Lines 286-304. *)
Definition label_columns (f : frame) : result frame :=
  f ← rename_white (map_labels before_comma f);
  Ok (map_labels normalize_label f).

(** Apply [g] to every cell of the table. *)
Definition map_cells (g : cell → cell) (f : frame) : frame :=
  Frame (columns f) (index f) ((λ row : list cell, g <$> row) <$> data f).

(** Line 329: [census.replace(to_replace = "Z", value = '0.0%')]. *)
Definition replace_Z_cell (c : cell) : cell :=
  if decide (c = CStr "Z") then CStr "0.0%" else c.

Definition replace_Z (f : frame) : frame := map_cells replace_Z_cell f.

(** Line 371, cell by cell: [.replace('%','',regex=True)], then
    [.astype('float')], then [/100]. *)
Definition strip_percent (c : cell) : cell :=
  match c with
  | CStr s => CStr (remove_char "%"%char s)
  | _ => c
  end.

Definition astype_float (c : cell) : result cell :=
  match c with
  | CStr s =>
      match parse_float s with
      | Some q => Ok (CNum q)
      | None => Err (ValueError ("could not convert string to float: " +:+ s))
      end
  | _ => Ok c
  end.

Definition div_cell (d : Z) (c : cell) : cell :=
  match c with
  | CNum q => CNum (q / Qc_of_Z d)%Qc
  | _ => c
  end.

Definition percent_to_decimal (c : cell) : result cell :=
  div_cell 100 <$> astype_float (strip_percent c).

(** The rows [np.r_[0:30, 42:50]] of line 371. *)
Definition percent_rows : list nat := seq 0 30 ++ seq 42 8.

(** Line 371: the block (rows [percent_rows], columns from 2 on) is read,
    converted and written back; reading a row that does not exist raises. *)
Definition percent_conversion (f : frame) : result frame :=
  if decide (Forall (λ i, i < length (data f))%nat percent_rows) then
    rows ← traverse (λ ir : nat * list cell,
              if decide (ir.1 ∈ percent_rows)
              then tl ← traverse percent_to_decimal (drop 2 ir.2); Ok (take 2 ir.2 ++ tl)
              else Ok ir.2)
            (zip (seq 0 (length (data f))) (data f));
    Ok (Frame (columns f) (index f) rows)
  else Err (IndexError "positional indexers are out-of-bounds").

(** Line 388: [census.population_estimates.replace(",",'', regex=True)
    .astype(int)].  The column becomes an [int64] column: an integer that
    does not fit raises an [OverflowError]. *)
Definition int64_cell (z : Z) : result cell :=
  if decide (in_int64 z) then Ok (CNum (Qc_of_Z z))
  else Err (OverflowError "Python int too large to convert to C long").

Definition astype_int (c : cell) : result cell :=
  match c with
  | CStr s =>
      match parse_int s with
      | Some z => int64_cell z
      | None => Err (ValueError ("invalid literal for int() with base 10: " +:+ s))
      end
  | CNum q => int64_cell (int_of_float q)
  | CNaN => Err (ValueError "cannot convert float NaN to integer")
  end.

Definition remove_commas (c : cell) : cell :=
  match c with
  | CStr s => CStr (remove_char ","%char s)
  | _ => c
  end.

Definition convert_population (f : frame) : result frame :=
  match column_position "population_estimates" f with
  | Some p =>
      values ← traverse (λ c, astype_int (remove_commas c)) (column_at p f);
      Ok (set_column "population_estimates" values f)
  | None =>
      Err (AttributeError "'DataFrame' object has no attribute 'population_estimates'")
  end.

(** Lines 405-406.  [census.columns.drop('state', 'population_estimates')]
    passes ['population_estimates'] as the [errors] argument, so only the
    label ['state'] is left out and a missing ['state'] raises; every other
    column goes through [pd.to_numeric(errors='coerce')], which turns text
    it cannot read into [NaN].  The model reads the plain decimal text of
    [parse_float]; on a plain number ([plain_number]) and on text with a
    percent sign it is what pandas does, and the properties that speak of a
    coerced value are stated for such cells. *)
Definition to_numeric (c : cell) : cell :=
  match c with
  | CStr s => match parse_float s with Some q => CNum q | None => CNaN end
  | _ => c
  end.

Definition coerce_numeric (f : frame) : result frame :=
  if decide (CStr "state" ∈ columns f) then
    Ok (Frame (columns f) (index f)
          ((λ row : list cell,
              zip_with (λ name c, if decide (name = CStr "state") then c else to_numeric c)
                (columns f) row) <$> data f))
  else Err (KeyError "['state'] not found in axis").

(** Lines 415-417: [white_alone_mean] is the sum of the two columns halved;
    the two source columns are then dropped.  On cells, [+] adds numbers,
    propagates [NaN], concatenates two strings and raises on a string and a
    number. *)
Definition add_cell (a b : cell) : result cell :=
  match a, b with
  | CNum x, CNum y => Ok (CNum (x + y)%Qc)
  | CStr x, CStr y => Ok (CStr (x +:+ y))
  | CStr _, _ | _, CStr _ => Err (TypeError "unsupported operand type(s) for +")
  | _, _ => Ok CNaN
  end.

Definition halve_cell (a : cell) : result cell :=
  match a with
  | CStr _ => Err (TypeError "unsupported operand type(s) for /")
  | _ => Ok (div_cell 2 a)
  end.

Definition white_alone_mean_step (f : frame) : result frame :=
  a ← get_column "white_alone" f;
  b ← get_column "white_alone_non_hispanic" f;
  total ← traverse (λ xy : cell * cell, add_cell xy.1 xy.2) (zip a b);
  halves ← traverse halve_cell total;
  Ok (drop_columns [CStr "white_alone"; CStr "white_alone_non_hispanic"]
        (set_column "white_alone_mean" halves f)).

(** [cols.pop(cols.index(name))]. *)
Definition pop_label (name : string) (cols : list cell) : result (list cell) :=
  match list_find (λ c, c = CStr name) cols with
  | Some (i, _) => Ok (delete i cols)
  | None => Err (ValueError ("'" +:+ name +:+ "' is not in list"))
  end.

(** The positions of the columns labelled [l]. *)
Definition positions_of (l : cell) (cols : list cell) : list nat :=
  fst <$> filter (λ pc : nat * cell, pc.2 = l) (zip (seq 0 (length cols)) cols).

(** [df[labels]] with a list of labels: for each label in turn, every column
    that carries it; a label that no column carries raises. *)
Definition getitem_labels (labels : list cell) (f : frame) : result frame :=
  pss ← traverse (λ l,
           match positions_of l (columns f) with
           | [] => Err (KeyError "not in index")
           | ps => Ok ps
           end) labels;
  Ok (take_positions (concat pss) f).

(** The idiom of lines 163-167 and 426-430: move three columns to the end. *)
Definition move_last (n1 n2 n3 : string) (f : frame) : result frame :=
  cols ← pop_label n1 (columns f);
  cols ← pop_label n2 cols;
  cols ← pop_label n3 cols;
  getitem_labels (cols ++ [CStr n1; CStr n2; CStr n3]) f.

(** Lines 321-430 on the Census table whose columns were already selected
    and renamed. *)
Definition clean_census_values (f : frame) : result frame :=
  _ ← get_column "native_hawaiian_and_other_pacific_islander_alone" f;
  f ← percent_conversion (replace_Z f);
  f ← convert_population f;
  f ← coerce_numeric f;
  f ← white_alone_mean_step f;
  move_last "high_school_graduate_or_higher" "bachelor's_degree_or_higher"
    "persons_in_poverty" f.

(** Lines 128-430: the Census file as read, up to the cleaned table. *)
Definition clean_census (f : frame) : result frame :=
  f ← orient_census (drop_duplicates f);
  f ← select_census_columns f;
  f ← label_columns f;
  clean_census_values f.

(** ** Cleaning the background-check table *)

(** Line 144: [gun.drop(gun.iloc[:, 2:26], inplace = True, axis = 1)].  The
    slice is clipped to the columns that exist. *)
Definition drop_transactions (f : frame) : frame :=
  drop_columns (take 24 (drop 2 (columns f))) f.

(** Lines 153-154 read the [month] column as dates.  [pd.DatetimeIndex]
    reads many spellings of a date; the model reads the one of the source
    file, [YYYY-MM] with a month from 01 to 12 and a year from 1678 to 2261
    (the years that lie wholly within the range of a pandas timestamp), and
    [NaN], which gives [NaN].  On these the fields are those pandas returns.
    Any other cell is outside the model: it is answered with an error, and
    the properties below are stated for tables the model reads. *)
Definition parse_month (s : string) : option (Z * Z) :=
  let '(y, m) := split_first "-"%char s in
  yd ← digits y; md ← digits (default EmptyString m);
  if decide (length yd = 4%nat ∧ length md = 2%nat ∧
             1678 ≤ decimal_value yd ≤ 2261 ∧ 1 ≤ decimal_value md ≤ 12)
  then Some (decimal_value yd, decimal_value md) else None.

Definition datetime_field (proj : Z * Z → Z) (c : cell) : result cell :=
  match c with
  | CStr s =>
      match parse_month s with
      | Some ym => Ok (CNum (Qc_of_Z (proj ym)))
      | None => Err (ValueError ("Unknown datetime string format: " +:+ s))
      end
  | CNum _ => Err (ValueError "numeric timestamps are outside the model")
  | CNaN => Ok CNaN
  end.

Definition add_year_month (f : frame) : result frame :=
  m ← get_column "month" f;
  ys ← traverse (datetime_field fst) m;
  let f := set_column "year" ys f in
  m ← get_column "month" f;
  ms ← traverse (datetime_field snd) m;
  Ok (set_column "month_no" ms f).

(** Line 176: [gun.drop(['month'], axis=1)]. *)
Definition drop_month (f : frame) : result frame :=
  if decide (CStr "month" ∈ columns f) then Ok (drop_columns [CStr "month"] f)
  else Err (KeyError "['month'] not found in axis").

(** Line 202: the rows of five territories are dropped by index label. *)
Definition territories : list cell :=
  [CStr "Guam"; CStr "District of Columbia"; CStr "Mariana Islands";
   CStr "Puerto Rico"; CStr "Virgin Islands"].

(** [gun[gun.state.isin([...])].index]. *)
Definition territory_labels (p : nat) (f : frame) : list cell :=
  boolean_mask ((λ c, bool_decide (c ∈ territories)) <$> column_at p f) (index f).

Definition territory_filter (f : frame) : result frame :=
  match column_position "state" f with
  | Some p => Ok (drop_rows (territory_labels p f) f)
  | None => Err (AttributeError "'DataFrame' object has no attribute 'state'")
  end.

(** Lines 144-202. *)
Definition clean_gun (f : frame) : result frame :=
  f ← add_year_month (drop_transactions f);
  f ← move_last "year" "state" "totals" f;
  f ← drop_month f;
  territory_filter f.


(** A cell read as an integer or as text; [None] when it holds something
    else. *)
Definition as_int (c : cell) : option Z :=
  match c with
  | CNum q => if decide (Qc_of_Z (int_of_float q) = q) then Some (int_of_float q) else None
  | _ => None
  end.

Definition as_str (c : cell) : option string :=
  match c with
  | CStr s => Some s
  | _ => None
  end.

(** ** The cleaned background-check table

    After the column pruning of lines 144-176 the table has the columns
    [month_no], [year], [state], [totals]. *)

Record gun_row := GunRow {
  month_no : Z;
  year : Z;
  state : string;
  totals : Z
}.

Global Instance gun_row_eq_dec : EqDecision gun_row.
Proof. solve_decision. Defined.

(** Reading a frame with these four columns as typed rows. *)
Definition gun_rows (f : frame) : option (list gun_row) :=
  pm ← column_position "month_no" f; py ← column_position "year" f;
  ps ← column_position "state" f; pt ← column_position "totals" f;
  mapM (λ row : list cell,
          m ← row !! pm ≫= as_int; y ← row !! py ≫= as_int;
          s ← row !! ps ≫= as_str; t ← row !! pt ≫= as_int;
          Some (GunRow m y s t)) (data f).

(** ** [groupby]

    [df.groupby(key)[col].agg()] with the default [sort=True]: one output row
    per distinct key, in ascending key order, holding the aggregate of the
    rows of that group. *)

Section groupby.
Context {R K V : Type} `{EqDecision K}.
Context (le : relation K) `{!RelDecision le}.
Context (key : R → K) (agg : list R → V).

Definition group_keys (rows : list R) : list K :=
  merge_sort le (remove_dups (key <$> rows)).

Definition group_rows (rows : list R) (k : K) : list R :=
  filter (λ r, key r = k) rows.

Definition groupby (rows : list R) : list (K * V) :=
  (λ k, (k, agg (group_rows rows k))) <$> group_keys rows.
End groupby.

(** Ordering of the [(state, year)] keys: by state, then by year. *)
Definition state_year_le : relation (string * Z) :=
  λ a b, if decide (a.1 = b.1) then a.2 ≤ b.2 else String.le a.1 b.1.

Global Instance state_year_le_dec : RelDecision state_year_le.
Proof. intros a b. unfold state_year_le. destruct (decide (a.1 = b.1)); apply _. Defined.

(** Positional row slice [df.iloc[start:stop, :]]; slices are clipped to the
    table and never raise. *)
Definition iloc_rows {A} (start stop : nat) (l : list A) : list A :=
  take (stop - start) (drop start l).

(** ** Research question 4 and 5: yearly sums *)

Record years_sum_row := YearsSum {
  ys_state : string;
  ys_year : Z;
  ys_totals : Z
}.

(** Line 564: [gun.groupby(['state', 'year'])['totals'].sum().reset_index()]. *)
Definition years_sum (gun : list gun_row) : list years_sum_row :=
  (λ kv, YearsSum kv.1.1 kv.1.2 kv.2) <$>
  groupby state_year_le (λ r, (state r, year r)) (λ g, sum_int64 (totals <$> g)) gun.

(** Line 645:
    [years_sum.iloc[1:19, :].groupby('year')['totals'].sum().reset_index()]. *)
Definition time_years (gun : list gun_row) : list (Z * Z) :=
  groupby Z.le ys_year (λ g, sum_int64 (ys_totals <$> g))
    (iloc_rows 1 19 (years_sum gun)).

(** ** Research question 4: growth between 1999 and 2016 *)

(** Line 573-574: [years_sum.query('year == Y')]. *)
Definition query_year (y : Z) (ys : list years_sum_row) : list years_sum_row :=
  filter (λ r, ys_year r = y) ys.

Definition checks_99 (gun : list gun_row) : list years_sum_row :=
  query_year 1999 (years_sum gun).
Definition checks_16 (gun : list gun_row) : list years_sum_row :=
  query_year 2016 (years_sum gun).

Record diff_row := DiffRow {
  d_state : string;
  d_year : Z;
  d_totals : Z
}.

(** The row of state [s] in a frame indexed by state. *)
Definition lookup_state (s : string) (ys : list years_sum_row) : option years_sum_row :=
  snd <$> list_find (λ r, ys_state r = s) ys.

(** [a.set_index('state') - b.set_index('state')].  When both frames carry
    the same index the subtraction is done on the [int64] columns; otherwise
    both are re-indexed to the sorted union of the labels, which turns the
    columns into [float64] and leaves [NaN] ([None]) in the rows of a state
    present on one side only. *)
Definition sub_by_state (a b : list years_sum_row) : list (string * option (Z * Z)) :=
  if decide (ys_state <$> a = ys_state <$> b) then
    zip_with (λ ra rb,
      (ys_state ra, Some (wrap64 (ys_year ra - ys_year rb),
                          wrap64 (ys_totals ra - ys_totals rb)))) a b
  else
    (λ s, (s, ra ← lookup_state s a; rb ← lookup_state s b;
              Some (ys_year ra - ys_year rb, ys_totals ra - ys_totals rb))) <$>
    merge_sort String.le (remove_dups ((ys_state <$> a) ++ (ys_state <$> b))).

(** The value computed by the subtraction for a state present on both sides. *)
Definition sub_value (a b : list years_sum_row) (x y : Z) : Z :=
  if decide (ys_state <$> a = ys_state <$> b) then wrap64 (x - y) else x - y.

(** [.dropna(axis=0)] followed (line 591) by [reset_index(drop=False)]. *)
Definition dropna (l : list (string * option (Z * Z))) : list diff_row :=
  omap (λ sv, v ← sv.2; Some (DiffRow sv.1 v.1 v.2)) l.

(** Lines 582-591. *)
Definition diff (gun : list gun_row) : list diff_row :=
  dropna (sub_by_state (checks_16 gun) (checks_99 gun)).

(** [sort_values(by=['totals'], ascending=False)]: rows in non-increasing
    order of [totals].  NumPy's default sort kind does not fix the relative
    order of rows with equal keys; the model uses a merge sort. *)
Definition totals_ge : relation diff_row := λ a b, d_totals b ≤ d_totals a.

Global Instance totals_ge_dec : RelDecision totals_ge.
Proof. intros a b. unfold totals_ge. apply _. Defined.

Definition sort_values_desc (l : list diff_row) : list diff_row :=
  merge_sort totals_ge l.

(** Lines 599 and 608: [.head()] keeps five rows, [.iloc[0:5, [0, 2]]] keeps
    the columns [state] and [totals]. *)
Definition top_five (gun : list gun_row) : list (string * Z) :=
  (λ r, (d_state r, d_totals r)) <$>
  iloc_rows 0 5 (take 5 (sort_values_desc (diff gun))).

(** ** The cleaned Census table

    One row per state; the columns left after line 430.  Every proportion is a
    [float64] value, [NaN] being [None]. *)

Record census_row := CensusRow {
  c_state : string;
  population_estimates : Z;
  black_or_african_american_alone : option Qc;
  american_indian_and_alaska_native_alone : option Qc;
  asian_alone : option Qc;
  native_hawaiian_and_other_pacific_islander_alone : option Qc;
  two_or_more_races : option Qc;
  hispanic_or_latino : option Qc;
  white_alone_mean : option Qc;
  high_school_graduate_or_higher : option Qc;
  bachelors_degree_or_higher : option Qc;
  persons_in_poverty : option Qc
}.

(** ** Research questions 1 and 2: ethnicity and education estimates *)

(** Line 445: [int(gun['totals'].mean())].  [int] of [NaN] raises. *)
Definition bg_checks_mean (gun : list gun_row) : result Z :=
  match mean_int64 (totals <$> gun) with
  | Some m => Ok (int_of_float m)
  | None => Err (ValueError "cannot convert float NaN to integer")
  end.

(** [census[col].mean() * bg_checks_mean]: a float times a Python [int]. *)
Definition estimate (col : census_row → option Qc) (census : list census_row)
    (bg : Z) : option Qc :=
  m ← mean_float (col <$> census); Some (m * Qc_of_Z bg)%Qc.

(** The ethnicity fields in the order of the bar chart of line 470:
    african, asian, hawaiian, hispanic, native_a, two_plus, white. *)
Definition ethnicity_fields : list (census_row → option Qc) :=
  [black_or_african_american_alone; asian_alone;
   native_hawaiian_and_other_pacific_islander_alone; hispanic_or_latino;
   american_indian_and_alaska_native_alone; two_or_more_races;
   white_alone_mean].

(** The education fields of line 496: diploma, bachelors. *)
Definition education_fields : list (census_row → option Qc) :=
  [high_school_graduate_or_higher; bachelors_degree_or_higher].

(** Lines 445-470: the heights of the ethnicity bar chart. *)
Definition ethnicity_heights (gun : list gun_row) (census : list census_row)
    : result (list (option Qc)) :=
  bg ← bg_checks_mean gun;
  Ok ((λ col, estimate col census bg) <$> ethnicity_fields).

(** Lines 486-496: the heights of the education bar chart. *)
Definition education_heights (gun : list gun_row) (census : list census_row)
    : result (list (option Qc)) :=
  bg ← bg_checks_mean gun;
  Ok ((λ col, estimate col census bg) <$> education_fields).

(** ** Research question 3: poverty *)

(** Line 512: [gun.loc[:, ['state', 'totals']].groupby('state').mean()]. *)
Definition state_checks (gun : list gun_row) : list (string * option Qc) :=
  groupby String.le state (λ g, mean_int64 (totals <$> g)) gun.

Record merged_row := MergedRow {
  m_totals : option Qc;
  m_census : census_row
}.

(** Line 521: [pd.merge(state_checks, census, on='state', how='inner')].  The
    rows follow the order of the left keys; the result carries a fresh
    [RangeIndex]. *)
Definition merge_inner (left : list (string * option Qc))
    (census : list census_row) : list merged_row :=
  left ≫= λ l, MergedRow l.2 <$> filter (λ c, c_state c = l.1) census.

Definition merged (gun : list gun_row) (census : list census_row) : list merged_row :=
  merge_inner (state_checks gun) census.

(** Product of two series that both carry a [RangeIndex] starting at 0: the
    operands are aligned on the index label, that is on the row position, and
    a label present on one side only gives [NaN]. *)
Definition reindex (n : nat) (a : list (option Qc)) : list (option Qc) :=
  (λ i, mjoin (a !! i)) <$> seq 0 n.

Definition mul_aligned (a b : list (option Qc)) : list (option Qc) :=
  let n := Nat.max (length a) (length b) in
  zip_with (λ x y, u ← x; v ← y; Some (u * v)%Qc) (reindex n a) (reindex n b).

(** Line 530: [census['persons_in_poverty'] * merged['totals']]. *)
Definition state_checks_mean (gun : list gun_row) (census : list census_row)
    : list (option Qc) :=
  mul_aligned (persons_in_poverty <$> census) (m_totals <$> merged gun census).

(** Line 531: [census['persons_in_poverty'] * 100]. *)
Definition percent_poverty (census : list census_row) : list (option Qc) :=
  (λ p, u ← p; Some (u * Qc_of_Z 100)%Qc) <$> (persons_in_poverty <$> census).

(** ** Research question 5 as the specification words it

    Group the totals by [year], sum across states, keep the years with
    complete monthly coverage (all twelve months present), ascending. *)
Definition complete_year (gun : list gun_row) (y : Z) : bool :=
  forallb (λ m, bool_decide (Exists (λ r, year r = y ∧ month_no r = m) gun))
    (Z.of_nat <$> seq 1 12).

Definition overall_trend_spec (gun : list gun_row) : list (Z * Z) :=
  filter (λ yt, complete_year gun yt.1 = true)
    (groupby Z.le year (λ g, sum_int64 (totals <$> g)) gun).


Definition poverty_pairs_spec (gun : list gun_row) (census : list census_row)
    : list (string * option Qc * option Qc) :=
  (λ m, (c_state (m_census m),
         (p ← persons_in_poverty (m_census m); t ← m_totals m; Some (p * t)%Qc),
         (p ← persons_in_poverty (m_census m); Some (p * Qc_of_Z 100)%Qc))) <$>
  merged gun census.

(** The sum [years_sum] holds for the key [(s, y)]. *)
Definition year_total (gun : list gun_row) (s : string) (y : Z) : Z :=
  sum_int64 (totals <$> filter (λ r, (state r, year r) = (s, y)) gun).

(** ** Vocabulary of the properties *)

(** A cell that holds a number or [NaN], not text. *)
Definition is_numeric (c : cell) : Prop :=
  match c with
  | CStr _ => False
  | _ => True
  end.

(** Every cell outside the [state] column is numeric. *)
Definition numeric_row (cols row : list cell) : Prop :=
  (length row ≤ length cols)%nat ∧
  ∀ i l c, cols !! i = Some l → row !! i = Some c → l ≠ CStr "state" → is_numeric c.

Definition numeric_frame (f : frame) : Prop :=
  Forall (numeric_row (columns f)) (data f).

(** The block of line 371 with every number divided by 100. *)
Definition rescale_block (f : frame) : frame :=
  Frame (columns f) (index f)
    ((λ ir : nat * list cell,
        if decide (ir.1 ∈ percent_rows)
        then take 2 ir.2 ++ (div_cell 100 <$> drop 2 ir.2) else ir.2) <$>
     zip (seq 0 (length (data f))) (data f)).

(** A cell with its number as a reduced fraction, for reading results. *)
Inductive plain :=
  | PStr (s : string)
  | PNum (q : Q)
  | PNaN.

Definition plain_of (c : cell) : plain :=
  match c with
  | CStr s => PStr s
  | CNum q => PNum (this q)
  | CNaN => PNaN
  end.

Definition plain_row (row : list cell) : list plain := plain_of <$> row.

Definition first_row (r : result frame) : result (option (list plain)) :=
  (λ f, plain_row <$> head (data f)) <$> r.

(** The key space the specification names: the fifty states. *)
Definition us_states : list string :=
  ["Alabama"; "Alaska"; "Arizona"; "Arkansas"; "California"; "Colorado";
   "Connecticut"; "Delaware"; "Florida"; "Georgia"; "Hawaii"; "Idaho";
   "Illinois"; "Indiana"; "Iowa"; "Kansas"; "Kentucky"; "Louisiana"; "Maine";
   "Maryland"; "Massachusetts"; "Michigan"; "Minnesota"; "Mississippi";
   "Missouri"; "Montana"; "Nebraska"; "Nevada"; "New Hampshire"; "New Jersey";
   "New Mexico"; "New York"; "North Carolina"; "North Dakota"; "Ohio";
   "Oklahoma"; "Oregon"; "Pennsylvania"; "Rhode Island"; "South Carolina";
   "South Dakota"; "Tennessee"; "Texas"; "Utah"; "Vermont"; "Virginia";
   "Washington"; "West Virginia"; "Wisconsin"; "Wyoming"].

(** ** Concrete tables *)

(** The table as it stands before line 202, with one record per state and
    territory of the source data. *)
Definition gun_all_states : frame :=
  read_csv ["month_no"; "year"; "state"; "totals"]
    ((λ c, [CNum (Qc_of_Z 9); CNum (Qc_of_Z 2017); c; CNum (Qc_of_Z 1)]) <$>
     ((CStr <$> us_states) ++ territories)).

(** The Census file as read: facts in rows, three of them empty. *)
Definition census_raw : frame :=
  read_csv ["Fact"; "Fact Note"; "Alabama"; "Alaska"]
    [[CStr "Population estimates"; CNaN; CStr "4,863,300"; CStr "741,894"];
     [CNaN; CNaN; CNaN; CNaN];
     [CStr "Persons in poverty, percent"; CNaN; CStr "17.10%"; CStr "9.90%"];
     [CNaN; CNaN; CNaN; CNaN];
     [CNaN; CNaN; CNaN; CNaN]].

(** The Census table before line 321: the thirteen selected columns and one
    row per state, every row carrying the same cells. *)
Definition census_header : list string :=
  ["state"; "population_estimates"; "white_alone";
   "black_or_african_american_alone"; "american_indian_and_alaska_native_alone";
   "asian_alone"; "native_hawaiian_and_other_pacific_islander_alone";
   "two_or_more_races"; "hispanic_or_latino"; "white_alone_non_hispanic";
   "high_school_graduate_or_higher"; "bachelor's_degree_or_higher";
   "persons_in_poverty"].

Definition census_fifty (black hawaiian : string) : frame :=
  read_csv census_header
    ((λ s, [CStr s; CStr "11,614,373"; CStr "82.50%"; CStr black; CStr "0.30%";
            CStr "2.20%"; CStr hawaiian; CStr "2.20%"; CStr "3.70%"; CStr "79.50%";
            CStr "89.10%"; CStr "26.10%"; CStr "14.60%"]) <$> us_states).

(** Schema drift: a Census table with three columns, and a background-check
    file that carries only the three columns the analysis uses. *)
Definition census_narrow : frame :=
  read_csv ["State"; "Population estimates"; "White alone"]
    [[CStr "Alabama"; CStr "4,863,300"; CStr "69.30%"]].

Definition gun_three_columns : frame :=
  read_csv ["month"; "state"; "totals"]
    [[CStr "2017-09"; CStr "Ohio"; CNum (Qc_of_Z 7)]].

(** The table before line 202, with a repeated record. *)
Definition gun_before_filter : frame :=
  read_csv ["month_no"; "year"; "state"; "totals"]
    [[CNum (Qc_of_Z 9); CNum (Qc_of_Z 2017); CStr "Ohio"; CNum (Qc_of_Z 7)];
     [CNum (Qc_of_Z 9); CNum (Qc_of_Z 2017); CStr "Guam"; CNum (Qc_of_Z 3)];
     [CNum (Qc_of_Z 9); CNum (Qc_of_Z 2017); CStr "Ohio"; CNum (Qc_of_Z 7)]].

(** A raw background-check file with the 27 columns of the source and four
    records, one of them repeated and one for a territory. *)
Definition gun_header : list string :=
  ["month"; "state"] ++ ((λ i, "t" +:+ pretty i) <$> seq 1 24) ++ ["totals"].

Definition gun_record (m s : string) (t : Z) : list cell :=
  [CStr m; CStr s] ++ replicate 24 (CNum (Qc_of_Z 0)) ++ [CNum (Qc_of_Z t)].

Definition gun_raw : frame :=
  read_csv gun_header
    [gun_record "2017-09" "Ohio" 7; gun_record "2017-09" "Guam" 3;
     gun_record "2017-09" "Ohio" 7; gun_record "2017-08" "Utah" 5].

(** Months on record per year: the data start in November 1998 and stop in
    September 2017. *)
Definition months_of (y : Z) : list Z :=
  if decide (y = 1998) then [11; 12]
  else if decide (y = 2017) then Z.of_nat <$> seq 1 9
  else Z.of_nat <$> seq 1 12.

(** Two states, every month from 1998-11 to 2017-09; each Alabama month
    counts 1 check and each Alaska month counts 100. *)
Definition gun_two_states : list gun_row :=
  s ← ["Alabama"; "Alaska"];
  y ← (λ i, 1998 + Z.of_nat i) <$> seq 0 20;
  m ← months_of y;
  [GunRow m y s (if decide (s = "Alabama") then 1 else 100)].

(** A Census row with every proportion equal to [p]. *)
Definition uniform_row (s : string) (p : Qc) : census_row :=
  CensusRow s 0 (Some p) (Some p) (Some p) (Some p) (Some p) (Some p) (Some p)
    (Some p) (Some p) (Some p).

Definition Qc_frac (n d : Z) : Qc := (Qc_of_Z n / Qc_of_Z d)%Qc.

(** One state, two months with 1 and 2 checks: the mean is 1.5. *)
Definition gun_mean_three_halves : list gun_row :=
  [GunRow 1 2016 "Ohio" 1; GunRow 2 2016 "Ohio" 2].
Definition census_half : list census_row := [uniform_row "Ohio" (Qc_frac 1 2)].

(** The Census lists Alabama and Alaska; the background checks only Alaska. *)
Definition census_two : list census_row :=
  [uniform_row "Alabama" (Qc_frac 1 10); uniform_row "Alaska" (Qc_frac 2 10)].
Definition gun_alaska_only : list gun_row :=
  [GunRow 1 2016 "Alaska" 10; GunRow 2 2016 "Alaska" 30].

(** One state whose monthly mean is exactly 20,000. *)
Definition gun_mean_20000 : list gun_row :=
  [GunRow 1 2016 "Ohio" 15000; GunRow 2 2016 "Ohio" 25000].

(** Kentucky: nothing in 1999, 3,500,000 over 2016. *)
Definition gun_kentucky : list gun_row :=
  [GunRow 1 1999 "Kentucky" 0; GunRow 1 2016 "Kentucky" 3000000;
   GunRow 2 2016 "Kentucky" 500000].

(** Eight states with different growths between 1999 and 2016, Kentucky
    going from nothing to 3,500,000. *)
Definition gun_eight_states : list gun_row :=
  [("Ohio", 10); ("Utah", 70); ("Iowa", 30); ("Maine", 60); ("Kentucky", 3500000);
   ("Texas", 20); ("Idaho", 50); ("Kansas", 40)]
  ≫= λ sg : string * Z,
       [GunRow 1 1999 sg.1 (if decide (sg.1 = "Kentucky") then 0 else 5);
        GunRow 1 2016 sg.1 ((if decide (sg.1 = "Kentucky") then 0 else 5) + sg.2)].

(** Two states with the same growth between 1999 and 2016. *)
Definition gun_tied : list gun_row :=
  [GunRow 1 1999 "Ohio" 0; GunRow 1 2016 "Ohio" 1;
   GunRow 1 1999 "Utah" 0; GunRow 1 2016 "Utah" 1].

(** The thirteen selected Census columns, labelled as a fact table labels
    them: the name of the fact, then a comma and what it measures. *)
Definition census_selected_labels : list string :=
  ["State"; "Population estimates, July 1, 2016,  (V2016)";
   "White alone, percent, July 1, 2016,  (V2016)";
   "Black or African American alone, percent, July 1, 2016,  (V2016)";
   "American Indian and Alaska Native alone, percent, July 1, 2016,  (V2016)";
   "Asian alone, percent, July 1, 2016,  (V2016)";
   "Native Hawaiian and Other Pacific Islander alone, percent, July 1, 2016,  (V2016)";
   "Two or More Races, percent, July 1, 2016,  (V2016)";
   "Hispanic or Latino, percent, July 1, 2016,  (V2016)";
   "White alone, not Hispanic or Latino, percent, July 1, 2016,  (V2016)";
   "High school graduate or higher, percent of persons age 25 years+, 2011-2015";
   "Bachelor's degree or higher, percent of persons age 25 years+, 2011-2015";
   "Persons in poverty, percent"].

(** A numeric Census table with the two [white_alone] columns. *)
Definition census_white : frame :=
  read_csv ["state"; "white_alone"; "asian_alone"; "white_alone_non_hispanic"]
    [[CStr "Ohio"; CNum (Qc_frac 8 10); CNum (Qc_frac 2 100); CNum (Qc_frac 6 10)];
     [CStr "Utah"; CNum (Qc_frac 9 10); CNaN; CNum (Qc_frac 7 10)]].

(** What lines 144-176 make of one record of the background-check file:
    month number, year, state, totals. *)
Definition cleaned_gun_row (row : list cell) : result (list cell) :=
  y ← datetime_field fst (cell_at 0 row);
  m ← datetime_field snd (cell_at 0 row);
  Ok [m; y; cell_at 1 row; cell_at 26 row].

(** The header of the cleaned Census table, the one the analysis reads by
    name. *)
Definition census_cleaned_header : list string :=
  ["state"; "population_estimates"; "black_or_african_american_alone";
   "american_indian_and_alaska_native_alone"; "asian_alone";
   "native_hawaiian_and_other_pacific_islander_alone"; "two_or_more_races";
   "hispanic_or_latino"; "white_alone_mean"; "high_school_graduate_or_higher";
   "bachelor's_degree_or_higher"; "persons_in_poverty"].

(** The fifty states, numbered from 1.  State number [n] has two months of
    10n and 30n checks (20n on average) and a poverty share of n percent. *)
Definition numbered_states : list (nat * string) := zip (seq 1 50) us_states.

Definition gun_by_state : list gun_row :=
  numbered_states ≫= λ ns : nat * string,
    [GunRow 1 2016 ns.2 (10 * Z.of_nat ns.1); GunRow 2 2016 ns.2 (30 * Z.of_nat ns.1)].

Definition census_by_state : list census_row :=
  (λ ns : nat * string, uniform_row ns.2 (Qc_frac (Z.of_nat ns.1) 100))
    <$> numbered_states.

(** A Census table whose poverty share is still text in one row. *)
Definition census_text_share : frame :=
  read_csv ["state"; "persons_in_poverty"]
    [[CStr "Ohio"; CStr "0.153"]; [CStr "Utah"; CNum (Qc_frac 12 100)]].

(** The characters of a string. *)
Definition chars (s : string) : list Ascii.ascii :=
  Stdlib.Strings.String.list_ascii_of_string s.

(** A capital letter A to Z. *)
Definition is_upper (a : Ascii.ascii) : Prop := (65 ≤ nat_of_ascii a ≤ 90)%nat.

(** Text of ASCII characters only.  On such text [strip], [lower_char] and
    the other string functions above are the [str] methods of Python. *)
Definition ascii_text (s : string) : Prop :=
  Forall (λ a, nat_of_ascii a < 128)%nat (chars s).

(** A number spelled with digits, an optional fraction of at least one digit
    and an optional sign in front, such as [12], [0.153] or [-3.5]: every
    reader of the source ([float], [pd.to_numeric]) reads it as that
    number. *)
Definition unsigned_number (s : string) : Prop :=
  let '(ip, fp) := split_first "."%char s in
  ip ≠ EmptyString ∧ is_Some (digits ip) ∧
  match fp with
  | None => True
  | Some t => t ≠ EmptyString ∧ is_Some (digits t)
  end.

Definition plain_number (s : string) : Prop :=
  match s with
  | String "-"%char r => unsigned_number r
  | String "+"%char r => unsigned_number r
  | _ => unsigned_number s
  end.

(** The ASCII characters that occur in the texts Python's [float] reads:
    digits, signs, the point, the underscore, white space, and the letters
    of an exponent and of [inf], [infinity] and [nan] in either case.  Text
    that holds any other ASCII character is no number for [float]. *)
Definition float_char (a : Ascii.ascii) : bool :=
  bool_decide (a ∈ chars "0123456789+-._eEiInNfFtTyYaA") || Ascii.is_space a.

(* ================================================================= *)
(** * Properties *)

(** ** Lists *)

Lemma filter_all {A} (P : A → Prop) `{∀ x, Decision (P x)} (l : list A) :
  Forall P l → filter P l = l.
Proof.
  induction 1 as [|x l Hx Hl IH]; [done|].
  by rewrite filter_cons_True, IH.
Qed.

Lemma filter_none {A} (P : A → Prop) `{∀ x, Decision (P x)} (l : list A) :
  Forall (λ x, ¬ P x) l → filter P l = [].
Proof.
  induction 1 as [|x l Hx Hl IH]; [done|].
  by rewrite filter_cons_False.
Qed.


(** ** [groupby] *)

Section groupby_facts.
Context {R K V : Type} `{EqDecision K}.
Context (le : relation K) `{!RelDecision le}.
Context (key : R → K) (agg : list R → V).

Lemma elem_of_group_keys rows k :
  k ∈ group_keys le key rows ↔ ∃ r, r ∈ rows ∧ key r = k.
Proof.
  unfold group_keys. rewrite merge_sort_Permutation, elem_of_remove_dups.
  rewrite list_elem_of_fmap. split; intros (r & ? & ?); eauto.
Qed.

Lemma NoDup_group_keys rows : NoDup (group_keys le key rows).
Proof.
  unfold group_keys. rewrite merge_sort_Permutation. apply NoDup_remove_dups.
Qed.

Lemma Sorted_group_keys `{!Total le} rows : Sorted le (group_keys le key rows).
Proof. apply Sorted_merge_sort, _. Qed.

Lemma fst_groupby rows : (groupby le key agg rows).*1 = group_keys le key rows.
Proof.
  unfold groupby. rewrite <-list_fmap_compose.
  rewrite <-(list_fmap_id (group_keys le key rows)) at 2.
  by apply list_fmap_ext.
Qed.

Lemma elem_of_groupby rows k v :
  (k, v) ∈ groupby le key agg rows ↔
  (∃ r, r ∈ rows ∧ key r = k) ∧ v = agg (group_rows key rows k).
Proof.
  unfold groupby. rewrite list_elem_of_fmap. setoid_rewrite elem_of_group_keys.
  split.
  - intros (k' & [= -> ->] & Hk). done.
  - intros [Hk ->]. eauto.
Qed.
End groupby_facts.

(** A duplicate-free list sorted by [≤] is strictly increasing. *)
Lemma Sorted_le_NoDup_lt (l : list Z) :
  Sorted Z.le l → NoDup l → StronglySorted Z.lt l.
Proof.
  intros Hs%Sorted_StronglySorted; [|apply _].
  induction Hs as [|x l Hl IH Hx]; intros Hnd; [constructor|].
  apply NoDup_cons in Hnd as [Hx' Hnd]. constructor; [auto|].
  apply Forall_forall. intros y Hy.
  rewrite Forall_forall in Hx. specialize (Hx y Hy).
  assert (x ≠ y) by (intros ->; done). lia.
Qed.

(** The years of the trend table are strictly increasing. *)
Lemma time_years_ascending gun : StronglySorted Z.lt (time_years gun).*1.
Proof.
  unfold time_years. rewrite fst_groupby.
  apply Sorted_le_NoDup_lt; [apply Sorted_group_keys, _|apply NoDup_group_keys].
Qed.

(** ** Yearly sums per state *)

Global Instance state_year_le_total : Total state_year_le.
Proof.
  intros [s1 y1] [s2 y2]. unfold state_year_le. simpl.
  destruct (decide (s1 = s2)) as [->|Hne].
  - rewrite decide_True by done. lia.
  - rewrite decide_False by done. apply (total String.le).
Qed.

Lemma in_int64_wrap64 z : in_int64 z → wrap64 z = z.
Proof.
  unfold in_int64, wrap64. intros Hz.
  rewrite Z.mod_small by lia. lia.
Qed.

Lemma wrap64_in_int64 z : in_int64 (wrap64 z).
Proof.
  unfold in_int64, wrap64.
  pose proof (Z.mod_pos_bound (z + 2 ^ 63) (2 ^ 64) eq_refl). lia.
Qed.

Lemma NoDup_fmap_elem_eq {A B} (f : A → B) (l : list A) x y :
  NoDup (f <$> l) → x ∈ l → y ∈ l → f x = f y → x = y.
Proof.
  intros Hnd [i Hi]%list_elem_of_lookup [j Hj]%list_elem_of_lookup Hf.
  assert (i = j) as ->.
  { eapply (NoDup_lookup _ _ _ (f x) Hnd); rewrite list_lookup_fmap.
    - by rewrite Hi.
    - by rewrite Hj, Hf. }
  congruence.
Qed.

Lemma elem_of_years_sum gun s y t :
  YearsSum s y t ∈ years_sum gun ↔
  (∃ r, r ∈ gun ∧ state r = s ∧ year r = y) ∧
  t = sum_int64 (totals <$> filter (λ r, (state r, year r) = (s, y)) gun).
Proof.
  unfold years_sum. rewrite list_elem_of_fmap. split.
  - intros ([[s' y'] t'] & [= -> -> ->] & Hin).
    apply elem_of_groupby in Hin as [(r & Hr & [= <- <-]) ->]. eauto.
  - intros [(r & Hr & <- & <-) ->].
    eexists ((state r, year r), _). split; [done|].
    apply elem_of_groupby. eauto.
Qed.

Lemma years_sum_keys gun :
  (λ r, (ys_state r, ys_year r)) <$> years_sum gun =
  group_keys state_year_le (λ r, (state r, year r)) gun.
Proof.
  unfold years_sum. rewrite <-list_fmap_compose.
  rewrite <-(fst_groupby state_year_le (λ r, (state r, year r))
               (λ g, sum_int64 (totals <$> g)) gun).
  apply list_fmap_ext. by intros i [[s y] t] _.
Qed.

Lemma NoDup_years_sum_keys gun :
  NoDup ((λ r, (ys_state r, ys_year r)) <$> years_sum gun).
Proof. rewrite years_sum_keys. apply NoDup_group_keys. Qed.

Lemma elem_of_query_year y ys r : r ∈ query_year y ys ↔ ys_year r = y ∧ r ∈ ys.
Proof. unfold query_year. by rewrite list_elem_of_filter. Qed.

Lemma NoDup_query_year_states y ys :
  NoDup ((λ r, (ys_state r, ys_year r)) <$> ys) →
  NoDup (ys_state <$> query_year y ys).
Proof.
  unfold query_year. induction ys as [|r ys IH]; simpl; [constructor|].
  rewrite NoDup_cons. intros [Hr Hnd].
  rewrite filter_cons. destruct (decide (ys_year r = y)) as [Hy|]; [|auto].
  simpl. apply NoDup_cons. split; [|auto].
  intros (r' & Hs & [Hy' Hin]%list_elem_of_filter)%list_elem_of_fmap.
  apply Hr, list_elem_of_fmap. exists r'. split; [|done]. congruence.
Qed.

Lemma lookup_state_Some s ys r :
  NoDup (ys_state <$> ys) →
  lookup_state s ys = Some r ↔ r ∈ ys ∧ ys_state r = s.
Proof.
  intros Hnd. unfold lookup_state. split.
  - destruct (list_find _ ys) as [[i x]|] eqn:Hf; [|done].
    intros [= <-]. apply list_find_Some in Hf as (Hi & Hx & _).
    split; [by eapply list_elem_of_lookup_2|done].
  - intros [Hr Hs].
    destruct (list_find_elem_of (λ r, ys_state r = s) ys r Hr Hs) as [[i x] Hf].
    rewrite Hf. simpl. f_equal.
    apply list_find_Some in Hf as (Hi & Hx & _).
    apply (NoDup_fmap_elem_eq ys_state ys); [done|by eapply list_elem_of_lookup_2|done|].
    congruence.
Qed.

Lemma elem_of_sub_by_state a b s dy dt :
  NoDup (ys_state <$> a) → NoDup (ys_state <$> b) →
  (s, Some (dy, dt)) ∈ sub_by_state a b ↔
  ∃ ra rb, ra ∈ a ∧ rb ∈ b ∧ ys_state ra = s ∧ ys_state rb = s ∧
    dy = sub_value a b (ys_year ra) (ys_year rb) ∧
    dt = sub_value a b (ys_totals ra) (ys_totals rb).
Proof.
  intros Ha Hb. unfold sub_by_state, sub_value.
  destruct (decide (ys_state <$> a = ys_state <$> b)) as [Heq|Hne].
  - rewrite elem_of_lookup_zip_with. split.
    + intros (i & ra & rb & [= -> -> ->] & Hia & Hib).
      exists ra, rb. repeat split; try by eapply list_elem_of_lookup_2.
      assert ((ys_state <$> a) !! i = (ys_state <$> b) !! i) as Hi by (by rewrite Heq).
      rewrite !list_lookup_fmap, Hia, Hib in Hi. by injection Hi.
    + intros (ra & rb & [i Hi]%list_elem_of_lookup & [j Hj]%list_elem_of_lookup
              & <- & Hs & -> & ->).
      assert (i = j) as ->.
      { eapply (NoDup_lookup _ _ _ (ys_state ra) Ha); rewrite list_lookup_fmap.
        - by rewrite Hi.
        - rewrite <-list_lookup_fmap, Heq, list_lookup_fmap, Hj. simpl. by rewrite Hs. }
      exists j, ra, rb. done.
  - rewrite list_elem_of_fmap. split.
    + intros (s' & [= <- Hv] & _).
      destruct (lookup_state s a) as [ra|] eqn:Hra; [|done].
      destruct (lookup_state s b) as [rb|] eqn:Hrb; [|done].
      simpl in Hv. injection Hv as -> ->.
      apply lookup_state_Some in Hra as [? ?]; [|done].
      apply lookup_state_Some in Hrb as [? ?]; [|done].
      exists ra, rb. done.
    + intros (ra & rb & Hra & Hrb & <- & Hs & -> & ->).
      exists (ys_state ra). split.
      * f_equal.
        assert (lookup_state (ys_state ra) a = Some ra) as ->
          by (by apply lookup_state_Some).
        assert (lookup_state (ys_state ra) b = Some rb) as ->
          by (by apply lookup_state_Some).
        done.
      * rewrite merge_sort_Permutation, elem_of_remove_dups, elem_of_app.
        left. by apply list_elem_of_fmap_2.
Qed.

(** ** Growth between 1999 and 2016 *)

Global Instance totals_ge_total : Total totals_ge.
Proof. intros a b. unfold totals_ge. lia. Qed.

Global Instance totals_ge_trans : Transitive totals_ge.
Proof. intros a b c. unfold totals_ge. lia. Qed.

Lemma NoDup_checks_states y gun :
  NoDup (ys_state <$> query_year y (years_sum gun)).
Proof. apply NoDup_query_year_states, NoDup_years_sum_keys. Qed.

(** The rows of [diff]: one per state that has a sum for both reference
    years. *)
Lemma elem_of_diff gun s dy dt :
  DiffRow s dy dt ∈ diff gun ↔
  ∃ t16 t99,
    YearsSum s 2016 t16 ∈ years_sum gun ∧ YearsSum s 1999 t99 ∈ years_sum gun ∧
    dy = sub_value (checks_16 gun) (checks_99 gun) 2016 1999 ∧
    dt = sub_value (checks_16 gun) (checks_99 gun) t16 t99.
Proof.
  unfold diff, dropna. rewrite list_elem_of_omap. split.
  - intros ([s' [[dy' dt']|]] & Hin & Hv); [|done]. simpl in Hv.
    injection Hv as -> -> ->.
    apply elem_of_sub_by_state in Hin; [|apply NoDup_checks_states..].
    destruct Hin as ([sa ya ta] & [sb yb tb] & [Hya Ha]%elem_of_query_year
                     & [Hyb Hb]%elem_of_query_year & Hsa & Hsb & -> & ->).
    simpl in *. subst. eauto 10.
  - intros (t16 & t99 & H16 & H99 & -> & ->).
    exists (s, Some (sub_value (checks_16 gun) (checks_99 gun) 2016 1999,
                     sub_value (checks_16 gun) (checks_99 gun) t16 t99)).
    split; [|done].
    apply elem_of_sub_by_state; [apply NoDup_checks_states..|].
    exists (YearsSum s 2016 t16), (YearsSum s 1999 t99).
    unfold checks_16, checks_99. rewrite !elem_of_query_year. done.
Qed.

Lemma sub_value_in_range a b x y : in_int64 (x - y) → sub_value a b x y = x - y.
Proof. intros H. unfold sub_value. case_decide; [by apply in_int64_wrap64|done]. Qed.

Lemma top_five_take gun :
  top_five gun = (λ r, (d_state r, d_totals r)) <$> take 5 (sort_values_desc (diff gun)).
Proof. unfold top_five, iloc_rows. by rewrite drop_0, take_take. Qed.

Lemma top_five_length gun : (length (top_five gun) ≤ 5)%nat.
Proof. rewrite top_five_take, length_fmap, length_take. lia. Qed.

Lemma sort_values_desc_sorted l : StronglySorted totals_ge (sort_values_desc l).
Proof. apply Sorted_StronglySorted; [apply _|]. apply Sorted_merge_sort, _. Qed.

Lemma top_five_descending gun :
  StronglySorted (λ x y : string * Z, y.2 ≤ x.2) (top_five gun).
Proof.
  rewrite top_five_take.
  apply (StronglySorted_fmap _ totals_ge); [done|].
  apply (StronglySorted_app_1_l _ _ (drop 5 (sort_values_desc (diff gun)))).
  rewrite take_drop. apply sort_values_desc_sorted.
Qed.

Lemma top_five_leaders gun :
  ∃ rest,
    top_five gun ++ rest ≡ₚ (λ r, (d_state r, d_totals r)) <$> diff gun ∧
    ∀ x y, x ∈ top_five gun → y ∈ rest → y.2 ≤ x.2.
Proof.
  exists ((λ r, (d_state r, d_totals r)) <$> drop 5 (sort_values_desc (diff gun))).
  rewrite top_five_take. split.
  - rewrite <-fmap_app, take_drop. unfold sort_values_desc.
    by rewrite merge_sort_Permutation.
  - intros x y (rx & -> & Hx)%list_elem_of_fmap (ry & -> & Hy)%list_elem_of_fmap.
    simpl. pose proof (sort_values_desc_sorted (diff gun)) as Hs.
    rewrite <-(take_drop 5) in Hs.
    apply (StronglySorted_app_1_elem_of _ _ _ _ _ Hs Hx Hy).
Qed.

Lemma top_five_rows gun s d :
  (s, d) ∈ top_five gun →
  ∃ t16 t99,
    YearsSum s 2016 t16 ∈ years_sum gun ∧ YearsSum s 1999 t99 ∈ years_sum gun ∧
    d = sub_value (checks_16 gun) (checks_99 gun) t16 t99.
Proof.
  rewrite top_five_take. intros ([s' dy dt] & [= -> ->] & Hin)%list_elem_of_fmap.
  apply elem_of_take in Hin as (i & Hin%list_elem_of_lookup_2 & _).
  unfold sort_values_desc in Hin. rewrite merge_sort_Permutation in Hin.
  apply elem_of_diff in Hin as (t16 & t99 & ? & ? & _ & ->). eauto.
Qed.

(** ** Truncation of the mean *)


Lemma int_of_float_bounds m :
  ((0 ≤ m)%Qc →
   (Qc_of_Z (int_of_float m) ≤ m)%Qc ∧ (m < Qc_of_Z (int_of_float m + 1))%Qc) ∧
  ((m ≤ 0)%Qc →
   (Qc_of_Z (int_of_float m - 1) < m)%Qc ∧ (m ≤ Qc_of_Z (int_of_float m))%Qc).
Proof.
  destruct m as [[n d] Hc]. unfold int_of_float, Qcle, Qclt, Qle, Qlt. simpl.
  pose proof (Z.quot_rem' n (Z.pos d)) as Hqr.
  pose proof (Z.rem_bound_abs n (Z.pos d) ltac:(lia)) as Hab.
  split; intros Hm.
  - pose proof (Z.rem_nonneg n (Z.pos d) ltac:(lia) ltac:(lia)). lia.
  - pose proof (Z.rem_nonpos n (Z.pos d) ltac:(lia) ltac:(lia)). lia.
Qed.

Lemma int_of_float_not_integer m :
  (∀ z, m ≠ Qc_of_Z z) → Qc_of_Z (int_of_float m) ≠ m.
Proof. intros Hm Heq. by apply (Hm (int_of_float m)). Qed.

(** ** Mean of a constant column *)



Lemma Qc_of_nat_ne_0 n : n ≠ 0%nat → Qc_of_nat n ≠ Qc_of_Z 0.
Proof. unfold Qc_of_nat. intros Hn Heq%Z2Qc_inj. lia. Qed.


(** ** Research question 5: the yearly trend *)

(** C1.  The trend table is meant to hold, per year of complete coverage, the
    total over all states.  On a table with two states and every month from
    1998-11 to 2017-09, [time_years] holds the sums of the first state alone
    (12 per year), because rows 1 to 18 of [years_sum] are the rows of that
    state; the total over both states is 1212 per year. *)
Theorem time_years_covers_first_state_only :
  time_years gun_two_states = (λ i, (1999 + Z.of_nat i, 12)) <$> seq 0 18 ∧
  overall_trend_spec gun_two_states = (λ i, (1999 + Z.of_nat i, 1212)) <$> seq 0 18 ∧
  time_years gun_two_states ≠ overall_trend_spec gun_two_states.
Proof.
  assert (time_years gun_two_states
          = (λ i, (1999 + Z.of_nat i, 12)) <$> seq 0 18) as Hcode
    by (vm_compute; reflexivity).
  assert (overall_trend_spec gun_two_states
          = (λ i, (1999 + Z.of_nat i, 1212)) <$> seq 0 18) as Hspec
    by (vm_compute; reflexivity).
  split; [done|]. split; [done|]. by rewrite Hcode, Hspec.
Qed.

(** ** Research question 3: poverty *)

(** C2.  With Alabama in the Census only, the product series is aligned on
    row position: its first entry multiplies Alabama's poverty share (0.1) by
    Alaska's mean (20), its second entry is NaN, and [percent_poverty] still
    lists both Census states.  The pairing by state of the inner join would
    give the single pair (4, 20) for Alaska. *)
Theorem poverty_series_pair_by_position :
  c_state ∘ m_census <$> merged gun_alaska_only census_two = ["Alaska"] ∧
  float_value <$> state_checks_mean gun_alaska_only census_two = [Some 2%Q; None] ∧
  float_value <$> percent_poverty census_two = [Some 10%Q; Some 20%Q] ∧
  (λ x, (x.1.1, float_value x.1.2, float_value x.2)) <$>
    poverty_pairs_spec gun_alaska_only census_two = [("Alaska", Some 4%Q, Some 20%Q)] ∧
  length (state_checks_mean gun_alaska_only census_two)
    ≠ length (poverty_pairs_spec gun_alaska_only census_two).
Proof. repeat split; try (vm_compute; reflexivity). vm_compute. lia. Qed.

(** When the Census lists exactly the states of the background checks, in
    the same order (as the two source files do), the position of a row is its
    state and the two series do hold the per-state values of the inner
    join. *)

Lemma filter_unique {A B} `{EqDecision B} (f : A → B) (xs : list A) i x :
  NoDup (f <$> xs) → xs !! i = Some x → filter (λ y, f y = f x) xs = [x].
Proof.
  revert i. induction xs as [|y xs IH]; intros i Hnd Hi; [done|].
  rewrite fmap_cons in Hnd. apply NoDup_cons in Hnd as [Hy Hnd].
  destruct i as [|i]; simpl in Hi.
  - injection Hi as ->. rewrite filter_cons_True by done. f_equal.
    apply filter_none, Forall_forall. intros z Hz Heq.
    apply Hy. rewrite <-Heq. by apply list_elem_of_fmap_2.
  - rewrite filter_cons_False; [by eapply IH|].
    intros Heq. apply Hy. rewrite Heq.
    apply list_elem_of_fmap_2. by eapply list_elem_of_lookup_2.
Qed.

Lemma merge_inner_rows (full : list census_row) left cs :
  (∀ i l c, left !! i = Some l → cs !! i = Some c →
            filter (λ c', c_state c' = l.1) full = [c]) →
  length left = length cs →
  merge_inner left full = zip_with (λ l c, MergedRow l.2 c) left cs.
Proof.
  unfold merge_inner. revert cs.
  induction left as [|l left IH]; intros [|c cs] Hone Hlen; simplify_eq/=; [done|].
  rewrite (Hone 0%nat l c eq_refl eq_refl). simpl. f_equal.
  apply IH; [|done]. intros i l' c'. apply (Hone (S i)).
Qed.

Lemma merge_inner_aligned left census :
  NoDup left.*1 → c_state <$> census = left.*1 →
  merge_inner left census = zip_with (λ l c, MergedRow l.2 c) left census.
Proof.
  intros Hnd Heq. apply merge_inner_rows.
  - intros i l c Hl Hc.
    assert (c_state c = l.1) as <-.
    { apply (f_equal (λ k, k !! i)) in Heq.
      rewrite !list_lookup_fmap, Hl, Hc in Heq. by injection Heq. }
    eapply (filter_unique c_state); [by rewrite Heq|done].
  - apply (f_equal length) in Heq. by rewrite !length_fmap in Heq.
Qed.

Lemma reindex_length (a : list (option Qc)) : reindex (length a) a = a.
Proof.
  apply list_eq. intros i. unfold reindex. rewrite list_lookup_fmap.
  destruct (a !! i) as [x|] eqn:Hi.
  - rewrite (proj2 (lookup_seq 0 (length a) i i)).
    + simpl. by rewrite Hi.
    + split; [done|]. by eapply lookup_lt_Some.
  - apply lookup_ge_None in Hi. by rewrite lookup_seq_ge.
Qed.

Lemma fmap_m_census_zip (sc : list (string * option Qc)) (cs : list census_row) :
  length sc = length cs →
  m_census <$> zip_with (λ l c, MergedRow l.2 c) sc cs = cs.
Proof.
  revert sc. induction cs as [|c cs IH]; intros [|l sc] Hlen; simpl in *;
    try done. f_equal. apply IH. lia.
Qed.

Lemma poverty_series_aligned gun census :
  c_state <$> census = (state_checks gun).*1 →
  state_checks_mean gun census = (λ x, x.1.2) <$> poverty_pairs_spec gun census ∧
  percent_poverty census = (λ x, x.2) <$> poverty_pairs_spec gun census ∧
  c_state <$> census = (λ x, x.1.1) <$> poverty_pairs_spec gun census.
Proof.
  intros Heq.
  assert (length (state_checks gun) = length census) as Hlen.
  { apply (f_equal length) in Heq. by rewrite !length_fmap in Heq. }
  assert (merged gun census
          = zip_with (λ l c, MergedRow l.2 c) (state_checks gun) census) as Hm.
  { apply merge_inner_aligned; [|done]. unfold state_checks.
    rewrite fst_groupby. apply NoDup_group_keys. }
  assert (m_census <$> merged gun census = census) as Hc.
  { rewrite Hm. by apply fmap_m_census_zip. }
  unfold state_checks_mean, percent_poverty, poverty_pairs_spec.
  rewrite <-!list_fmap_compose. split; [|split].
  - unfold mul_aligned.
    assert (length (m_totals <$> merged gun census)
            = length (persons_in_poverty <$> census)) as Hl'.
    { rewrite <-Hc at 2. by rewrite !length_fmap. }
    rewrite Hl', Nat.max_id. rewrite <-Hl' at 2. rewrite !reindex_length.
    rewrite <-Hc at 1. rewrite <-list_fmap_compose, zip_with_fmap_l, zip_with_fmap_r.
    by rewrite zip_with_diag.
  - rewrite <-Hc at 1. by rewrite <-list_fmap_compose.
  - rewrite <-Hc at 1. by rewrite <-list_fmap_compose.
Qed.

(** ** Research questions 1 and 2: estimates *)

Lemma bg_checks_mean_Some gun m :
  mean_int64 (totals <$> gun) = Some m → bg_checks_mean gun = Ok (int_of_float m).
Proof. intros H. unfold bg_checks_mean. by rewrite H. Qed.

Lemma heights_Some (fields : list (census_row → option Qc)) gun census m :
  mean_int64 (totals <$> gun) = Some m →
  (bg ← bg_checks_mean gun; Ok ((λ col, estimate col census bg) <$> fields)) =
  Ok ((λ col, estimate col census (int_of_float m)) <$> fields).
Proof. intros H. by rewrite (bg_checks_mean_Some _ _ H). Qed.




(** C10.  [bg_checks_mean] is the mean of [totals] truncated toward zero.
    Every estimate is the mean share of its Census column times this integer
    ([NaN] when the column holds no value): the seven ethnicity estimates and
    the two education estimates are listed with their columns.  When the mean
    is not an integer each estimate with a non-zero share differs from the
    product with the exact mean. *)
Theorem bg_checks_mean_is_truncated gun census m :
  mean_int64 (totals <$> gun) = Some m →
  bg_checks_mean gun = Ok (int_of_float m) ∧
  ((0 ≤ m)%Qc →
   (Qc_of_Z (int_of_float m) ≤ m)%Qc ∧ (m < Qc_of_Z (int_of_float m + 1))%Qc) ∧
  ((m ≤ 0)%Qc →
   (Qc_of_Z (int_of_float m - 1) < m)%Qc ∧ (m ≤ Qc_of_Z (int_of_float m))%Qc) ∧
  (∀ col, estimate col census (int_of_float m)
          = (f ← mean_float (col <$> census);
             Some (f * Qc_of_Z (int_of_float m))%Qc)) ∧
  ethnicity_heights gun census =
    Ok ((λ col, f ← mean_float (col <$> census);
                Some (f * Qc_of_Z (int_of_float m))%Qc)
        <$> [black_or_african_american_alone; asian_alone;
             native_hawaiian_and_other_pacific_islander_alone; hispanic_or_latino;
             american_indian_and_alaska_native_alone; two_or_more_races;
             white_alone_mean]) ∧
  education_heights gun census =
    Ok ((λ col, f ← mean_float (col <$> census);
                Some (f * Qc_of_Z (int_of_float m))%Qc)
        <$> [high_school_graduate_or_higher; bachelors_degree_or_higher]) ∧
  ((∀ z, m ≠ Qc_of_Z z) →
   Qc_of_Z (int_of_float m) ≠ m ∧
   ∀ col f, mean_float (col <$> census) = Some f → f ≠ Qc_of_Z 0 →
            estimate col census (int_of_float m) ≠ Some (f * m)%Qc).
Proof.
  intros Hm.
  split; [by apply bg_checks_mean_Some|].
  split; [apply int_of_float_bounds|].
  split; [apply int_of_float_bounds|].
  split; [done|].
  split; [unfold ethnicity_heights; by rewrite (heights_Some _ _ _ _ Hm)|].
  split; [unfold education_heights; by rewrite (heights_Some _ _ _ _ Hm)|].
  intros Hni. pose proof (int_of_float_not_integer m Hni) as Hne.
  split; [done|].
  intros col f Hf Hf0. unfold estimate. rewrite Hf. simpl. intros Heq.
  apply (inj Some) in Heq.
  apply Hne. rewrite Z2Qc_inj_0 in Hf0.
  assert (Qc_of_Z (int_of_float m) - m = 0)%Qc as Hz.
  { apply (Qcmult_integral_l f _ Hf0).
    transitivity (f * Qc_of_Z (int_of_float m) - f * m)%Qc; [ring|].
    rewrite Heq. ring. }
  replace (Qc_of_Z (int_of_float m))
    with ((Qc_of_Z (int_of_float m) - m) + m)%Qc by ring.
  rewrite Hz. ring.
Qed.

Lemma bg_checks_mean_is_truncated_witness :
  mean_int64 (totals <$> gun_mean_three_halves) = Some (Qc_frac 3 2) ∧
  bg_checks_mean gun_mean_three_halves = Ok 1 ∧
  float_value (estimate asian_alone census_half 1) = Some (1 # 2)%Q ∧
  float_values <$> education_heights gun_mean_three_halves census_half
  = Ok [Some (1 # 2)%Q; Some (1 # 2)%Q].
Proof.
  assert (mean_int64 (totals <$> gun_mean_three_halves) = Some (Qc_frac 3 2)) as Hm
    by reflexivity.
  pose proof (bg_checks_mean_is_truncated gun_mean_three_halves census_half _ Hm)
    as (Hbg & _ & _ & Hest & _ & Hedu & _).
  split; [exact Hm|]. split; [exact Hbg|]. split.
  - change 1 with (int_of_float (Qc_frac 3 2)). rewrite Hest. vm_compute. reflexivity.
  - rewrite Hedu. vm_compute. reflexivity.
Defined.

(** ** Research question 4: the ranking *)

Lemma years_sum_year_total gun s y t :
  YearsSum s y t ∈ years_sum gun ↔
  (∃ r, r ∈ gun ∧ state r = s ∧ year r = y) ∧ t = year_total gun s y.
Proof. apply elem_of_years_sum. Qed.

(** C8 as stated fails on the word strictly: two states with the same
    growth are ranked next to each other with equal differences. *)
Lemma top_five_not_strictly_descending :
  top_five gun_tied = [("Ohio", 1); ("Utah", 1)] ∧
  ¬ StronglySorted (λ x y : string * Z, y.2 < x.2) (top_five gun_tied).
Proof.
  assert (top_five gun_tied = [("Ohio", 1); ("Utah", 1)]) as H
    by (vm_compute; reflexivity).
  split; [exact H|]. rewrite H. intros Hs.
  apply StronglySorted_cons in Hs as [Hs _].
  apply Forall_cons in Hs as [Hs _]. simpl in Hs. lia.
Qed.

(** C8 (amended).  [top_five] holds five rows [(state, difference)], or one
    row per state of the table of differences when these are fewer than five,
    in non-increasing order of the difference; each difference is the 2016 sum
    minus the 1999 sum of a state that has rows in both years (exactly so when
    it fits [int64]); no state left out has a larger difference than a ranked
    one; every state with rows in both years takes part in the ranking; and a
    state with 2016 sum 3,500,000 and 1999 sum 0 has difference 3,500,000. *)
Theorem top_five_growth_ranking gun :
  length (top_five gun) = (5 `min` length (diff gun))%nat ∧
  StronglySorted (λ x y : string * Z, y.2 ≤ x.2) (top_five gun) ∧
  (∀ s d, (s, d) ∈ top_five gun →
     (∃ r, r ∈ gun ∧ state r = s ∧ year r = 2016) ∧
     (∃ r, r ∈ gun ∧ state r = s ∧ year r = 1999) ∧
     d = sub_value (checks_16 gun) (checks_99 gun)
           (year_total gun s 2016) (year_total gun s 1999) ∧
     (in_int64 (year_total gun s 2016 - year_total gun s 1999) →
      d = year_total gun s 2016 - year_total gun s 1999)) ∧
  (∃ rest,
     top_five gun ++ rest ≡ₚ (λ r, (d_state r, d_totals r)) <$> diff gun ∧
     ∀ x y, x ∈ top_five gun → y ∈ rest → y.2 ≤ x.2) ∧
  (∀ s, (∃ r, r ∈ gun ∧ state r = s ∧ year r = 2016) →
        (∃ r, r ∈ gun ∧ state r = s ∧ year r = 1999) →
        (s, sub_value (checks_16 gun) (checks_99 gun)
              (year_total gun s 2016) (year_total gun s 1999))
          ∈ (λ r, (d_state r, d_totals r)) <$> diff gun) ∧
  (∀ s, (∃ r, r ∈ gun ∧ state r = s ∧ year r = 2016) →
        (∃ r, r ∈ gun ∧ state r = s ∧ year r = 1999) →
        year_total gun s 2016 = 3500000 → year_total gun s 1999 = 0 →
        (s, 3500000) ∈ (λ r, (d_state r, d_totals r)) <$> diff gun).
Proof.
  assert (∀ s, (∃ r, r ∈ gun ∧ state r = s ∧ year r = 2016) →
        (∃ r, r ∈ gun ∧ state r = s ∧ year r = 1999) →
        (s, sub_value (checks_16 gun) (checks_99 gun)
              (year_total gun s 2016) (year_total gun s 1999))
          ∈ (λ r, (d_state r, d_totals r)) <$> diff gun) as Hall.
  { intros s H16 H99. apply list_elem_of_fmap.
    eexists (DiffRow s _ _). split; [reflexivity|].
    apply elem_of_diff. do 2 eexists.
    rewrite !years_sum_year_total. eauto 10. }
  split.
  { rewrite top_five_take, length_fmap, length_take. unfold sort_values_desc.
    by rewrite merge_sort_Permutation. }
  split; [apply top_five_descending|].
  split.
  { intros s d (t16 & t99 & [H16 ->]%years_sum_year_total
                & [H99 ->]%years_sum_year_total & ->)%top_five_rows.
    repeat split; try done. apply sub_value_in_range. }
  split; [apply top_five_leaders|].
  split; [done|].
  intros s H16 H99 E16 E99. specialize (Hall s H16 H99).
  rewrite E16, E99, sub_value_in_range in Hall; [done|].
  unfold in_int64. lia.
Qed.

Lemma top_five_growth_ranking_witness :
  top_five gun_eight_states
  = [("Kentucky", 3500000); ("Utah", 70); ("Maine", 60); ("Idaho", 50); ("Kansas", 40)] ∧
  length (diff gun_eight_states) = 8%nat ∧
  length (top_five gun_eight_states) = (5 `min` length (diff gun_eight_states))%nat ∧
  StronglySorted (λ x y : string * Z, y.2 ≤ x.2) (top_five gun_eight_states).
Proof.
  split; [vm_compute; reflexivity|]. split; [vm_compute; reflexivity|].
  pose proof (top_five_growth_ranking gun_eight_states) as (Hlen & Hsorted & _).
  split; [exact Hlen|exact Hsorted].
Defined.

(** ** From the raw file to typed rows *)

Example gun_rows_of_cleaned_file :
  gun_rows <$> clean_gun gun_raw =
  Ok (Some [GunRow 9 2017 "Ohio" 7; GunRow 9 2017 "Ohio" 7; GunRow 8 2017 "Utah" 5]).
Proof. vm_compute. reflexivity. Qed.

(** ** Boolean masks and duplicate rows *)

Section masks.
Context {A : Type}.
Implicit Types (l : list A) (m : list bool).

Lemma boolean_mask_nil m : boolean_mask m (@nil A) = [].
Proof. by destruct m. Qed.

Lemma boolean_mask_cons b m x l :
  boolean_mask (b :: m) (x :: l) = (if b then [x] else []) ++ boolean_mask m l.
Proof. reflexivity. Qed.

Lemma boolean_mask_true n l :
  (length l ≤ n)%nat → boolean_mask (replicate n true) l = l.
Proof.
  revert n. induction l as [|x l IH]; intros n Hn; [apply boolean_mask_nil|].
  destruct n as [|n]; simpl in Hn; [lia|].
  simpl replicate. rewrite boolean_mask_cons. simpl. f_equal. apply IH. lia.
Qed.

Lemma length_boolean_mask m l :
  (length (boolean_mask m l) ≤ length (filter (λ b, b = true) m))%nat.
Proof.
  revert l. induction m as [|b m IH]; intros [|x l]; simpl; try lia.
  rewrite boolean_mask_cons, length_app, filter_cons.
  specialize (IH l). destruct b; simpl; lia.
Qed.

Lemma length_boolean_mask_full m l :
  (length m ≤ length l)%nat →
  length (boolean_mask m l) = length (filter (λ b, b = true) m).
Proof.
  revert l. induction m as [|b m IH]; intros l Hl; [done|].
  destruct l as [|x l]; simpl in Hl; [lia|].
  rewrite boolean_mask_cons, length_app, filter_cons.
  rewrite (IH l) by lia. by destruct b.
Qed.

Lemma elem_of_boolean_mask m l x :
  x ∈ boolean_mask m l ↔ ∃ i, m !! i = Some true ∧ l !! i = Some x.
Proof.
  revert l. induction m as [|b m IH]; intros [|y l].
  - split; [by intros ?%elem_of_nil|by intros (i & ? & ?)].
  - split; [by intros ?%elem_of_nil|by intros (i & ? & ?)].
  - rewrite boolean_mask_nil. split; [by intros ?%elem_of_nil|by intros (i & ? & ?)].
  - rewrite boolean_mask_cons, elem_of_app, IH. split.
    + intros [Hx|(i & ? & ?)]; [|by exists (S i)].
      destruct b; [|by apply elem_of_nil in Hx].
      apply list_elem_of_singleton in Hx as ->. by exists 0%nat.
    + intros ([|i] & Hm & Hl); simpl in *; [|right; eauto].
      left. injection Hm as ->. injection Hl as ->. by apply list_elem_of_singleton.
Qed.
End masks.

Section duplicates.
Context {A : Type} `{EqDecision A}.
Implicit Types (l seen : list A).

Lemma length_duplicated_from seen l : length (duplicated_from seen l) = length l.
Proof. revert seen. induction l as [|x l IH]; intros seen; simpl; [done|]. by rewrite IH. Qed.

Lemma kept_from_cons seen x l :
  kept_from seen (x :: l) =
  if decide (x ∈ seen) then kept_from (x :: seen) l else x :: kept_from (x :: seen) l.
Proof.
  unfold kept_from. simpl duplicated_from. rewrite fmap_cons, boolean_mask_cons.
  destruct (decide (x ∈ seen)).
  - by rewrite bool_decide_eq_true_2.
  - by rewrite bool_decide_eq_false_2.
Qed.

Lemma elem_of_kept_from seen l x : x ∈ kept_from seen l ↔ x ∈ l ∧ x ∉ seen.
Proof.
  revert seen. induction l as [|y l IH]; intros seen.
  - change (kept_from seen []) with (@nil A).
    split; [by intros ?%elem_of_nil|by intros [?%elem_of_nil _]].
  - rewrite kept_from_cons. destruct (decide (y ∈ seen)) as [Hy|Hy].
    + rewrite IH, !elem_of_cons. split.
      * intros [Hx Hns]. split; [by right|]. intros Hs. apply Hns. by right.
      * intros [[->|Hx] Hns]; [done|]. split; [done|].
        intros [->|?]; done.
    + rewrite !elem_of_cons, IH, elem_of_cons. split.
      * intros [->|[Hx Hns]]; [by split; [left|]|].
        split; [by right|]. intros Hs. apply Hns. by right.
      * intros [[->|Hx] Hns]; [by left|].
        destruct (decide (x = y)) as [->|Hne]; [by left|].
        right. split; [done|]. by intros [?|?].
Qed.

Lemma NoDup_kept_from seen l : NoDup (kept_from seen l).
Proof.
  revert seen. induction l as [|y l IH]; intros seen.
  - constructor.
  - rewrite kept_from_cons. destruct (decide (y ∈ seen)); [apply IH|].
    apply NoDup_cons. split; [|apply IH].
    rewrite elem_of_kept_from. intros [_ Hy]. apply Hy. by left.
Qed.

Lemma length_kept_from seen l : (length (kept_from seen l) ≤ length l)%nat.
Proof.
  revert seen. induction l as [|y l IH]; intros seen; [done|].
  rewrite kept_from_cons. specialize (IH (y :: seen)).
  destruct (decide (y ∈ seen)); simpl; lia.
Qed.

Lemma duplicated_from_NoDup seen l :
  NoDup l → (∀ x, x ∈ l → x ∉ seen) →
  duplicated_from seen l = replicate (length l) false.
Proof.
  revert seen. induction l as [|y l IH]; intros seen Hnd Hs; [done|].
  apply NoDup_cons in Hnd as [Hy Hnd]. simpl. f_equal.
  - apply bool_decide_eq_false_2, Hs. by left.
  - apply IH; [done|]. intros x Hx [->|Hin]%elem_of_cons; [done|].
    apply (Hs x); [by right|done].
Qed.

Lemma duplicated_from_kept seen l :
  duplicated_from seen (kept_from seen l) = replicate (length (kept_from seen l)) false.
Proof.
  apply duplicated_from_NoDup; [apply NoDup_kept_from|].
  by intros x [_ ?]%elem_of_kept_from.
Qed.

Lemma count_kept seen l :
  length (filter (λ b, b = true) (negb <$> duplicated_from seen l)) =
  length (kept_from seen l).
Proof.
  unfold kept_from. symmetry. apply length_boolean_mask_full.
  by rewrite length_fmap, length_duplicated_from.
Qed.
End duplicates.

Lemma drop_duplicates_data f : data (drop_duplicates f) = kept_from [] (data f).
Proof. reflexivity. Qed.

Lemma drop_duplicates_idemp f : drop_duplicates (drop_duplicates f) = drop_duplicates f.
Proof.
  unfold drop_duplicates at 1. unfold duplicated.
  rewrite drop_duplicates_data, duplicated_from_kept.
  assert (negb <$> replicate (length (kept_from [] (data f))) false
          = replicate (length (kept_from [] (data f))) true) as ->.
  { by rewrite fmap_replicate. }
  rewrite !boolean_mask_true; [by destruct f|done|].
  simpl. etrans; [apply length_boolean_mask|].
  unfold duplicated. by rewrite count_kept.
Qed.

Lemma duplicated_sum_drop_duplicates f : duplicated_sum (drop_duplicates f) = 0%nat.
Proof.
  unfold duplicated_sum, duplicated.
  rewrite drop_duplicates_data, duplicated_from_kept.
  induction (length (kept_from [] (data f))) as [|n IH]; [done|].
  simpl. by rewrite filter_cons_False.
Qed.

(** ** Territory filtering *)

Lemma boolean_mask_filter {A} (P : A → Prop) `{∀ x, Decision (P x)} (l : list A) :
  boolean_mask ((λ x, bool_decide (P x)) <$> l) l = filter P l.
Proof.
  induction l as [|x l IH]; [done|].
  rewrite fmap_cons, boolean_mask_cons, IH, filter_cons.
  destruct (decide (P x)).
  - by rewrite bool_decide_eq_true_2.
  - by rewrite bool_decide_eq_false_2.
Qed.

Lemma column_at_lookup p f i row :
  data f !! i = Some row → column_at p f !! i = Some (cell_at p row).
Proof. intros H. unfold column_at. by rewrite list_lookup_fmap, H. Qed.

Section territory.
Context (f f' : frame) (p : nat).
Hypothesis Hpos : column_position "state" f = Some p.
Hypothesis Hf : territory_filter f = Ok f'.

Lemma territory_filter_unfold : f' = drop_rows (territory_labels p f) f.
Proof using Hpos Hf.
  unfold territory_filter in Hf. rewrite Hpos in Hf. by injection Hf.
Qed.

Lemma territory_filter_columns : columns f' = columns f.
Proof using Hpos Hf. by rewrite territory_filter_unfold. Qed.

Lemma territory_row_label i row l :
  data f !! i = Some row → index f !! i = Some l →
  cell_at p row ∈ territories → l ∈ territory_labels p f.
Proof using Type.
  intros Hrow Hl Hin. apply elem_of_boolean_mask. exists i. split; [|done].
  rewrite list_lookup_fmap, (column_at_lookup _ _ _ _ Hrow).
  simpl. by rewrite bool_decide_eq_true_2.
Qed.

(** No row of a territory is left, whatever the index. *)
Lemma territory_filter_sound row :
  row ∈ data f' → row ∈ data f ∧ cell_at p row ∉ territories.
Proof using Hpos Hf.
  rewrite territory_filter_unfold. simpl.
  intros (i & Hm & Hrow)%elem_of_boolean_mask.
  split; [by eapply list_elem_of_lookup_2|].
  rewrite list_lookup_fmap in Hm.
  destruct (index f !! i) as [l|] eqn:Hl; [|done].
  simpl in Hm. injection Hm as Hm. apply bool_decide_eq_true in Hm.
  intros Hin. apply Hm. by eapply territory_row_label.
Qed.

(** With one label per row, exactly the territory rows go. *)
Lemma territory_filter_data :
  NoDup (index f) → length (index f) = length (data f) →
  data f' = filter (λ row, cell_at p row ∉ territories) (data f).
Proof using Hpos Hf.
  intros Hnd Hlen. rewrite territory_filter_unfold. simpl.
  rewrite <-boolean_mask_filter. f_equal.
  apply list_eq. intros i. rewrite !list_lookup_fmap.
  destruct (index f !! i) as [l|] eqn:Hl, (data f !! i) as [row|] eqn:Hrow; simpl.
  - f_equal. apply bool_decide_ext. split.
    + intros Hnl Hin. apply Hnl. by eapply territory_row_label.
    + intros Hnt (j & Hj & Hlj)%elem_of_boolean_mask.
      assert (j = i) as -> by (by eapply NoDup_lookup).
      rewrite list_lookup_fmap, (column_at_lookup _ _ _ _ Hrow) in Hj.
      simpl in Hj. injection Hj as Hj. by apply bool_decide_eq_true in Hj.
  - apply lookup_lt_Some in Hl. apply lookup_ge_None in Hrow. lia.
  - apply lookup_lt_Some in Hrow. apply lookup_ge_None in Hl. lia.
  - done.
Qed.
End territory.


Lemma territory_filter_position f f' :
  territory_filter f = Ok f' → ∃ p, column_position "state" f = Some p.
Proof.
  unfold territory_filter. destruct (column_position "state" f); [eauto|done].
Qed.



(** ** Traversals *)

Section traverse.
Context {A B : Type} (g : A → result B).

Lemma traverse_lookup l l' :
  traverse g l = Ok l' →
  length l' = length l ∧
  ∀ i x, l !! i = Some x → ∃ y, l' !! i = Some y ∧ g x = Ok y.
Proof.
  revert l'. induction l as [|x l IH]; intros l'; simpl.
  - intros [= <-]. split; [done|]. by intros i x ?.
  - destruct (g x) as [y|e] eqn:Hx; simpl; [|done].
    destruct (traverse g l) as [ys|e]; simpl; [|done].
    intros [= <-]. destruct (IH ys eq_refl) as [Hlen Hlk].
    split; [simpl; by rewrite Hlen|].
    intros [|i] x'; simpl; [intros [= <-]; eauto|apply Hlk].
Qed.

Lemma traverse_fmap (h : A → B) l :
  (∀ i x, l !! i = Some x → g x = Ok (h x)) → traverse g l = Ok (h <$> l).
Proof.
  induction l as [|x l IH]; intros Hl; [done|].
  simpl. rewrite (Hl 0%nat x eq_refl). simpl.
  rewrite IH; [done|]. intros i y Hy. by apply (Hl (S i)).
Qed.

Lemma traverse_Forall (P : B → Prop) l l' :
  (∀ x y, g x = Ok y → P y) → traverse g l = Ok l' → Forall P l'.
Proof.
  intros HP [Hlen Hlk]%traverse_lookup. apply Forall_lookup. intros i y Hy.
  destruct (l !! i) as [x|] eqn:Hx.
  - destruct (Hlk i x Hx) as (y' & Hy' & Hg). simplify_eq. eauto.
  - apply lookup_lt_Some in Hy. apply lookup_ge_None in Hx. lia.
Qed.
End traverse.

Lemma lookup_zip_seq {A} (l : list A) n i a x :
  zip (seq 0 n) l !! i = Some (a, x) ↔ a = i ∧ (i < n)%nat ∧ l !! i = Some x.
Proof.
  rewrite lookup_zip_with_Some. split.
  - intros (a' & x' & [= -> ->] & [-> ?]%lookup_seq & ?). done.
  - intros (-> & ? & ?). exists i, x. rewrite lookup_seq. done.
Qed.

(** ** Placeholder substitution and percent conversion *)

Lemma replace_Z_cell_idemp c : replace_Z_cell (replace_Z_cell c) = replace_Z_cell c.
Proof. unfold replace_Z_cell. repeat case_decide; congruence. Qed.

Lemma replace_Z_idemp f : replace_Z (replace_Z f) = replace_Z f.
Proof.
  unfold replace_Z, map_cells. simpl. f_equal.
  rewrite <-list_fmap_compose. apply list_fmap_ext. intros _ row _. simpl.
  rewrite <-list_fmap_compose. apply list_fmap_ext. intros _ c _. simpl.
  apply replace_Z_cell_idemp.
Qed.

Lemma percent_to_decimal_numeric c c' : percent_to_decimal c = Ok c' → is_numeric c'.
Proof.
  unfold percent_to_decimal, astype_float.
  destruct c as [s| |]; simpl; [|by intros [= <-]..].
  destruct (parse_float _); simpl; [by intros [= <-]|done].
Qed.

Lemma percent_to_decimal_of_numeric c :
  is_numeric c → percent_to_decimal c = Ok (div_cell 100 c).
Proof. by destruct c. Qed.

(** The function applied to the rows of the block of line 371. *)
Lemma percent_row_again (i : nat) (row row' : list cell) :
  (if decide (i ∈ percent_rows)
   then tl ← traverse percent_to_decimal (drop 2 row); Ok (take 2 row ++ tl)
   else Ok row) = Ok row' →
  (if decide (i ∈ percent_rows)
   then tl ← traverse percent_to_decimal (drop 2 row'); Ok (take 2 row' ++ tl)
   else Ok row') =
  Ok (if decide (i ∈ percent_rows)
      then take 2 row' ++ (div_cell 100 <$> drop 2 row') else row').
Proof.
  destruct (decide (i ∈ percent_rows)) as [Hin|]; [|done].
  destruct (traverse percent_to_decimal (drop 2 row)) as [tl|err] eqn:Htl; simpl; [|done].
  intros [= <-].
  assert (Forall is_numeric (drop 2 (take 2 row ++ tl))) as Hnum.
  { rewrite drop_app. apply Forall_app. split.
    - rewrite drop_ge; [constructor|]. rewrite length_take. lia.
    - apply Forall_drop.
      eapply traverse_Forall; [apply percent_to_decimal_numeric|done]. }
  rewrite (traverse_fmap _ (div_cell 100)); [done|].
  intros j c Hc. apply percent_to_decimal_of_numeric.
  by eapply Forall_lookup_1.
Qed.

Lemma percent_conversion_twice f f' :
  percent_conversion f = Ok f' → percent_conversion f' = Ok (rescale_block f').
Proof.
  unfold percent_conversion.
  destruct (decide (Forall _ percent_rows)) as [Hlen|]; [|done].
  destruct (traverse _ (zip _ (data f))) as [rows|e] eqn:Hrows; simpl; [|done].
  intros [= <-]. simpl.
  apply traverse_lookup in Hrows as [Hn Hlk].
  assert (length rows = length (data f)) as Hn'.
  { rewrite Hn, length_zip, length_seq. lia. }
  rewrite decide_True by (by rewrite Hn').
  unfold rescale_block. simpl.
  rewrite (traverse_fmap _ (λ ir : nat * list cell,
             if decide (ir.1 ∈ percent_rows)
             then take 2 ir.2 ++ (div_cell 100 <$> drop 2 ir.2) else ir.2)); [done|].
  intros i [a row'] (-> & Hi & Hrow')%lookup_zip_seq. simpl.
  destruct (data f !! i) as [row|] eqn:Hrow.
  - destruct (Hlk i (i, row)) as (y & Hy & Hg).
    { apply lookup_zip_seq. split; [done|]. split; [lia|done]. }
    simpl in Hg. simplify_eq. by apply percent_row_again in Hg.
  - apply lookup_ge_None in Hrow. lia.
Qed.

(** ** Numeric columns after cleaning *)

Lemma to_numeric_numeric c : is_numeric (to_numeric c).
Proof. destruct c as [s| |]; simpl; [|done..]. by destruct (parse_float s). Qed.

Lemma coerce_numeric_numeric f f' : coerce_numeric f = Ok f' → numeric_frame f'.
Proof.
  unfold coerce_numeric. case_decide; [|done]. intros [= <-].
  unfold numeric_frame. simpl. apply Forall_fmap, Forall_forall. intros row _.
  split; [rewrite length_zip_with; lia|].
  intros i l c Hl (l' & c0 & -> & Hl' & Hc0)%lookup_zip_with_Some Hne.
  simplify_eq. rewrite decide_False by done. apply to_numeric_numeric.
Qed.

Lemma set_column_numeric name vals f :
  numeric_frame f → Forall is_numeric vals → numeric_frame (set_column name vals f).
Proof.
  intros Hf Hvals. unfold set_column, numeric_frame.
  destruct (column_position name f) as [p|]; simpl;
    apply Forall_lookup; intros j row' (row & v & -> & Hrow & Hv)%lookup_zip_with_Some;
    pose proof (Forall_lookup_1 _ _ _ _ Hf Hrow) as [Hlen Hnum];
    pose proof (Forall_lookup_1 _ _ _ _ Hvals Hv) as Hvnum.
  - split; [by rewrite length_insert|].
    intros i l c Hl [(-> & -> & _)|[_ Hc]]%list_lookup_insert_Some Hne; [done|].
    by eapply Hnum.
  - split; [rewrite !length_app; simpl; lia|].
    intros i l c Hl [Hc|[Hi Hc]]%lookup_app_Some Hne.
    + apply (Hnum i l c); [|done..].
      rewrite lookup_app_l in Hl; [done|]. apply lookup_lt_Some in Hc. lia.
    + destruct (i - length row)%nat; [|done]. by injection Hc as <-.
Qed.

Lemma lookup_pick ps row j c :
  pick ps row !! j = Some c ↔ ∃ p, ps !! j = Some p ∧ c = cell_at p row.
Proof.
  unfold pick. rewrite list_lookup_fmap.
  destruct (ps !! j) as [p|]; simpl; [|by split; [|intros (? & ? & ?)]].
  split; [intros [= <-]; eauto|by intros (p' & [= <-] & ->)].
Qed.

Lemma take_positions_numeric ps f :
  Forall (λ p, p < length (columns f))%nat ps →
  numeric_frame f → numeric_frame (take_positions ps f).
Proof.
  intros Hps Hf. unfold numeric_frame, take_positions. simpl.
  apply Forall_fmap. eapply Forall_impl; [exact Hf|].
  intros row [Hlen Hnum]. simpl. split; [unfold pick; by rewrite !length_fmap|].
  intros j l c (p & Hp & ->)%lookup_pick (p' & Hp' & ->)%lookup_pick Hne.
  simplify_eq. pose proof (Forall_lookup_1 _ _ _ _ Hps Hp) as Hlt.
  unfold cell_at in *.
  destruct (columns f !! p) as [l|] eqn:Hl; [|apply lookup_ge_None in Hl; lia].
  destruct (row !! p) as [c|] eqn:Hc; [|done]. simpl in *. by eapply Hnum.
Qed.

Lemma drop_columns_numeric labels f :
  numeric_frame f → numeric_frame (drop_columns labels f).
Proof.
  intros Hf. apply take_positions_numeric; [|done].
  apply Forall_fmap, Forall_forall.
  intros [p c] [_ [i Hi]%list_elem_of_lookup]%list_elem_of_filter.
  apply lookup_zip_seq in Hi as (-> & Hi & Hc). simpl.
  by apply lookup_lt_Some in Hc.
Qed.

Lemma positions_of_lt l cols :
  Forall (λ p, p < length cols)%nat (positions_of l cols).
Proof.
  apply Forall_fmap, Forall_forall.
  intros [p c] [_ [i Hi]%list_elem_of_lookup]%list_elem_of_filter.
  apply lookup_zip_seq in Hi as (-> & Hi & Hc). simpl.
  by apply lookup_lt_Some in Hc.
Qed.

Lemma getitem_labels_numeric labels f f' :
  getitem_labels labels f = Ok f' → numeric_frame f → numeric_frame f'.
Proof.
  unfold getitem_labels.
  destruct (traverse _ labels) as [pss|e] eqn:Hps; simpl; [|done].
  intros [= <-] Hf. apply take_positions_numeric; [|done].
  apply Forall_concat.
  eapply traverse_Forall; [|exact Hps]. simpl. intros l ps Hl.
  assert (ps = positions_of l (columns f)) as ->
    by (destruct (positions_of l (columns f)); by simplify_eq).
  apply positions_of_lt.
Qed.

Lemma move_last_numeric n1 n2 n3 f f' :
  move_last n1 n2 n3 f = Ok f' → numeric_frame f → numeric_frame f'.
Proof.
  unfold move_last.
  destruct (pop_label n1 _) as [c1|e]; simpl; [|done].
  destruct (pop_label n2 _) as [c2|e]; simpl; [|done].
  destruct (pop_label n3 _) as [c3|e]; simpl; [|done].
  apply getitem_labels_numeric.
Qed.

Lemma halve_cell_numeric c c' : halve_cell c = Ok c' → is_numeric c'.
Proof. destruct c; simpl; [done|by intros [= <-]..]. Qed.

Lemma white_alone_mean_step_numeric f f' :
  white_alone_mean_step f = Ok f' → numeric_frame f → numeric_frame f'.
Proof.
  unfold white_alone_mean_step.
  destruct (get_column "white_alone" f) as [a|e]; simpl; [|done].
  destruct (get_column "white_alone_non_hispanic" f) as [b|e]; simpl; [|done].
  destruct (traverse _ (zip a b)) as [total|e]; simpl; [|done].
  destruct (traverse halve_cell total) as [halves|e] eqn:Hh; simpl; [|done].
  intros [= <-] Hf. apply drop_columns_numeric, set_column_numeric; [done|].
  eapply traverse_Forall; [apply halve_cell_numeric|done].
Qed.

Lemma clean_census_values_numeric f f' :
  clean_census_values f = Ok f' → numeric_frame f'.
Proof.
  unfold clean_census_values.
  destruct (get_column _ f) as [h|e]; simpl; [|done].
  destruct (percent_conversion _) as [f1|e]; simpl; [|done].
  destruct (convert_population f1) as [f2|e]; simpl; [|done].
  destruct (coerce_numeric f2) as [f3|e] eqn:H3; simpl; [|done].
  destruct (white_alone_mean_step f3) as [f4|e] eqn:H4; simpl; [|done].
  intros H5. eapply move_last_numeric; [exact H5|].
  eapply white_alone_mean_step_numeric; [exact H4|].
  by eapply coerce_numeric_numeric.
Qed.

(** ** Positional selection *)

Lemma census_positions_valid n :
  Forall (λ p, p < n)%nat census_positions ↔ (50 < n)%nat.
Proof.
  unfold census_positions. simpl. rewrite !Forall_cons, Forall_nil. lia.
Qed.

Lemma pick_cons p ps row : pick (p :: ps) row = cell_at p row :: pick ps row.
Proof. reflexivity. Qed.

Lemma pick_filter_positions (P : cell → Prop) `{∀ c, Decision (P c)} pre l :
  pick (fst <$> filter (λ pc : nat * cell, P pc.2) (zip (seq (length pre) (length l)) l))
       (pre ++ l) = filter P l.
Proof.
  revert pre. induction l as [|x l IH]; intros pre; [done|].
  specialize (IH (pre ++ [x])).
  rewrite length_app, Nat.add_1_r, <-app_assoc in IH. cbn [app] in IH.
  change (zip (seq (length pre) (length (x :: l))) (x :: l))
    with ((length pre, x) :: zip (seq (S (length pre)) (length l)) l).
  rewrite !filter_cons. cbn [snd].
  destruct (decide (P x)); [|done].
  rewrite fmap_cons, pick_cons, IH. f_equal.
  unfold cell_at. by rewrite list_lookup_middle.
Qed.

Lemma drop_columns_columns labels f :
  columns (drop_columns labels f) = filter (λ c, c ∉ labels) (columns f).
Proof. exact (pick_filter_positions (λ c, c ∉ labels) [] (columns f)). Qed.

Lemma filter_not_in_middle (a m b : list cell) :
  NoDup (a ++ m ++ b) → filter (λ c, c ∉ m) (a ++ m ++ b) = a ++ b.
Proof.
  intros (Ha & Ham & (Hm & Hmb & Hb)%NoDup_app)%NoDup_app.
  rewrite !filter_app.
  rewrite (filter_all _ a), (filter_none _ m), (filter_all _ b); [done|..].
  - apply Forall_forall. intros c Hc Hcm. by apply (Hmb c).
  - apply Forall_forall. intros c Hc Hcm. by apply Hcm.
  - apply Forall_forall. intros c Hc Hcm.
    apply (Ham c Hc), elem_of_app. by left.
Qed.

Lemma drop_transactions_columns f :
  NoDup (columns f) →
  columns (drop_transactions f) = take 2 (columns f) ++ drop 26 (columns f).
Proof.
  intros Hnd. unfold drop_transactions. rewrite drop_columns_columns.
  assert (columns f = take 2 (columns f) ++ take 24 (drop 2 (columns f))
                        ++ drop 26 (columns f)) as Hsplit.
  { rewrite <-(take_drop 2 (columns f)) at 1. f_equal.
    rewrite <-(take_drop 24 (drop 2 (columns f))) at 1. f_equal.
    by rewrite drop_drop. }
  pose proof (filter_not_in_middle (take 2 (columns f))
                (take 24 (drop 2 (columns f))) (drop 26 (columns f))) as Hfm.
  rewrite <-Hsplit in Hfm. by apply Hfm.
Qed.

(** ** The claims about the cleaner *)

(** C3 as stated fails for the percent conversion: a second pass over the
    converted table divides the block by 100 once more (82.50% becomes 0.825,
    then 0.00825). *)
Lemma percent_conversion_not_idempotent :
  first_row (percent_conversion (census_fifty "13.00%" "0.10%"))
    = Ok (Some [PStr "Alabama"; PStr "11,614,373"; PNum (33 # 40); PNum (13 # 100);
                PNum (3 # 1000); PNum (11 # 500); PNum (1 # 1000); PNum (11 # 500);
                PNum (37 # 1000); PNum (159 # 200); PNum (891 # 1000);
                PNum (261 # 1000); PNum (73 # 500)]%Q) ∧
  first_row (f ← percent_conversion (census_fifty "13.00%" "0.10%");
             percent_conversion f)
    = Ok (Some [PStr "Alabama"; PStr "11,614,373"; PNum (33 # 4000); PNum (13 # 10000);
                PNum (3 # 100000); PNum (11 # 50000); PNum (1 # 100000);
                PNum (11 # 50000); PNum (37 # 100000); PNum (159 # 20000);
                PNum (891 # 100000); PNum (261 # 100000); PNum (73 # 50000)]%Q) ∧
  (f ← percent_conversion (census_fifty "13.00%" "0.10%"); percent_conversion f)
    ≠ percent_conversion (census_fifty "13.00%" "0.10%").
Proof.
  split; [vm_compute; reflexivity|]. split; [vm_compute; reflexivity|].
  intros H. apply (f_equal first_row) in H. vm_compute in H. discriminate.
Qed.

(** C3 (amended).  The placeholder substitution and the de-duplication are
    idempotent.  The percent conversion is not: applied to its own output it
    succeeds and divides every cell of the block by 100 again. *)
Theorem cleaning_steps_rerun f :
  replace_Z (replace_Z f) = replace_Z f ∧
  drop_duplicates (drop_duplicates f) = drop_duplicates f ∧
  (∀ f', percent_conversion f = Ok f' →
         percent_conversion f' = Ok (rescale_block f')).
Proof.
  split; [apply replace_Z_idemp|].
  split; [apply drop_duplicates_idemp|].
  apply percent_conversion_twice.
Qed.

Lemma cleaning_steps_rerun_witness :
  ∃ f', percent_conversion (census_fifty "13.00%" "0.10%") = Ok f' ∧
        percent_conversion f' = Ok (rescale_block f').
Proof.
  eexists. split; [vm_compute; reflexivity|].
  apply (proj2 (proj2 (cleaning_steps_rerun (census_fifty "13.00%" "0.10%")))).
  vm_compute. reflexivity.
Defined.

(** C4 as stated fails for the background-check table: line 85 only counts
    its duplicates, and a repeated record is still repeated after cleaning. *)
Lemma gun_duplicates_survive_cleaning :
  duplicated_sum gun_raw = 1%nat ∧
  duplicated <$> clean_gun gun_raw = Ok [false; true; false] ∧
  ∃ f', clean_gun gun_raw = Ok f' ∧ ¬ NoDup (data f').
Proof.
  split; [vm_compute; reflexivity|]. split; [vm_compute; reflexivity|].
  eexists. split; [vm_compute; reflexivity|].
  intros [Hnot _]%NoDup_cons. apply Hnot. by left.
Qed.

(** C4 (amended).  The Census table is de-duplicated first of all: afterwards
    it has no duplicate row, no more rows than before, and the same distinct
    rows under the same columns.  The background-check table is not
    de-duplicated: the only rows cleaning removes from it are the territory
    rows, so a repeated record stays repeated. *)
Theorem deduplication_census_only (census gun gun' : frame) (p : nat) :
  NoDup (data (drop_duplicates census)) ∧
  (length (data (drop_duplicates census)) ≤ length (data census))%nat ∧
  (∀ row, row ∈ data (drop_duplicates census) ↔ row ∈ data census) ∧
  duplicated_sum (drop_duplicates census) = 0%nat ∧
  columns (drop_duplicates census) = columns census ∧
  (column_position "state" gun = Some p → territory_filter gun = Ok gun' →
   NoDup (index gun) → length (index gun) = length (data gun) →
   data gun' = filter (λ row, cell_at p row ∉ territories) (data gun)).
Proof.
  rewrite drop_duplicates_data.
  split; [apply NoDup_kept_from|].
  split; [apply length_kept_from|].
  split.
  { intros row. rewrite elem_of_kept_from. split; [by intros [? _]|].
    intros ?. split; [done|]. apply not_elem_of_nil. }
  split; [apply duplicated_sum_drop_duplicates|].
  split; [done|].
  apply territory_filter_data.
Qed.

Lemma deduplication_census_only_witness :
  ∃ gun',
    territory_filter gun_before_filter = Ok gun' ∧
    data gun' = filter (λ row, cell_at 2 row ∉ territories) (data gun_before_filter) ∧
    duplicated gun' = [false; true].
Proof.
  eexists. split; [vm_compute; reflexivity|]. split; [|vm_compute; reflexivity].
  refine (proj2 (proj2 (proj2 (proj2 (proj2
            (deduplication_census_only census_raw gun_before_filter _ 2))))) _ _ _ _).
  - reflexivity.
  - vm_compute. reflexivity.
  - apply (bool_decide_unpack _). vm_compute. exact I.
  - reflexivity.
Defined.

(** C5 as stated fails: with too few columns the positional Census selection
    raises an [IndexError] that names no column, and the positional slice of
    the background-check table raises nothing: it drops [totals], and the run
    stops later on a [ValueError]. *)
Lemma schema_drift_raises_no_schema_error :
  select_census_columns census_narrow
    = Err (Raise "IndexError" "positional indexers are out-of-bounds") ∧
  columns (drop_transactions gun_three_columns) = [CStr "month"; CStr "state"] ∧
  clean_gun gun_three_columns = Err (Raise "ValueError" "'totals' is not in list") ∧
  ¬ (∃ msg, select_census_columns census_narrow = Err (Raise "SchemaError" msg)) ∧
  ¬ (∃ msg, clean_gun gun_three_columns = Err (Raise "SchemaError" msg)).
Proof.
  assert (select_census_columns census_narrow
          = Err (Raise "IndexError" "positional indexers are out-of-bounds")) as H1
    by (vm_compute; reflexivity).
  assert (clean_gun gun_three_columns
          = Err (Raise "ValueError" "'totals' is not in list")) as H2
    by (vm_compute; reflexivity).
  split; [done|]. split; [vm_compute; reflexivity|]. split; [done|].
  rewrite H1, H2. split; intros [msg [=]].
Qed.

(** C5 (amended).  The cleaner checks no schema.  The Census selection by
    position raises [IndexError] exactly when the table has fewer than 51
    columns and otherwise returns the columns at the thirteen positions,
    whatever they are called; the slice of the background-check table never
    raises: the columns at positions 2 to 25 are dropped and the others
    kept. *)
Theorem positional_selection_unchecked (census gun : frame) :
  ((length (columns census) ≤ 50)%nat →
   select_census_columns census
     = Err (Raise "IndexError" "positional indexers are out-of-bounds")) ∧
  ((50 < length (columns census))%nat →
   select_census_columns census = Ok (take_positions census_positions census)) ∧
  (∀ e, select_census_columns census = Err e → exn_class e = "IndexError") ∧
  (NoDup (columns gun) →
   columns (drop_transactions gun) = take 2 (columns gun) ++ drop 26 (columns gun)).
Proof.
  unfold select_census_columns, iloc_columns.
  destruct (decide (Forall _ census_positions)) as [Hok|Hbad].
  - apply census_positions_valid in Hok.
    split; [lia|]. split; [done|]. split; [done|]. apply drop_transactions_columns.
  - rewrite census_positions_valid in Hbad.
    split; [done|]. split; [lia|]. split; [by intros e [= <-]|].
    apply drop_transactions_columns.
Qed.

Lemma positional_selection_unchecked_witness :
  select_census_columns census_narrow
    = Err (Raise "IndexError" "positional indexers are out-of-bounds") ∧
  columns (drop_transactions gun_raw) = [CStr "month"; CStr "state"; CStr "totals"].
Proof.
  pose proof (positional_selection_unchecked census_narrow gun_raw) as (H1 & _ & _ & H4).
  split.
  - apply H1. vm_compute. lia.
  - rewrite H4; [vm_compute; reflexivity|].
    apply (bool_decide_unpack _). vm_compute. exact I.
Defined.

(** C7 as stated fails on the range: nothing bounds the numbers, and a cell
    reading 250% is cleaned to 2.5. *)
Lemma cleaned_census_value_above_one :
  first_row (clean_census_values (census_fifty "250%" "Z"))
    = Ok (Some [PStr "Alabama"; PNum 11614373; PNum (5 # 2); PNum (3 # 1000);
                PNum (11 # 500); PNum 0; PNum (11 # 500); PNum (37 # 1000);
                PNum (81 # 100); PNum (891 # 1000); PNum (261 # 1000);
                PNum (73 # 500)]%Q) ∧
  ¬ (5 # 2 <= 1)%Q.
Proof. split; [vm_compute; reflexivity|]. intros H. by vm_compute in H. Qed.

Lemma percent_range (q : Qc) :
  (Qc_of_Z 0 ≤ q / Qc_of_Z 100 ∧ q / Qc_of_Z 100 ≤ Qc_of_Z 1)%Qc ↔
  (Qc_of_Z 0 ≤ q ∧ q ≤ Qc_of_Z 100)%Qc.
Proof.
  assert (0 < Qc_of_Z 100)%Qc as Hh.
  { rewrite <-Z2Qc_inj_0. by apply Z2Qc_inj_lt. }
  assert (Qc_of_Z 100 ≠ 0%Qc) as Hnz.
  { intros Heq. rewrite Heq in Hh. by apply (irreflexivity Qclt 0%Qc). }
  rewrite (Qcmult_le_mono_pos_r (Qc_of_Z 0) _ _ Hh).
  rewrite (Qcmult_le_mono_pos_r _ (Qc_of_Z 1) _ Hh).
  assert (q / Qc_of_Z 100 * Qc_of_Z 100 = q)%Qc as -> by (by field).
  assert (Qc_of_Z 0 * Qc_of_Z 100 = Qc_of_Z 0)%Qc as ->
    by (rewrite Z2Qc_inj_0; ring).
  assert (Qc_of_Z 1 * Qc_of_Z 100 = Qc_of_Z 100)%Qc as ->
    by (rewrite Z2Qc_inj_1; ring).
  done.
Qed.

(** C7 (amended).  After cleaning, every cell outside the [state] column is a
    number or the missing-value marker, so no percent sign and no placeholder
    is left.  The numbers are not bounded: a cell converted from a percentage
    lies in [0, 1] exactly when the percentage lies between 0 and 100. *)
Theorem cleaned_census_is_numeric f f' :
  clean_census_values f = Ok f' →
  numeric_frame f' ∧
  (∀ s q, parse_float (remove_char "%" s) = Some q →
     percent_to_decimal (CStr s) = Ok (CNum (q / Qc_of_Z 100)%Qc) ∧
     ((Qc_of_Z 0 ≤ q / Qc_of_Z 100 ∧ q / Qc_of_Z 100 ≤ Qc_of_Z 1)%Qc ↔
      (Qc_of_Z 0 ≤ q ∧ q ≤ Qc_of_Z 100)%Qc)).
Proof.
  intros Hf. split; [by eapply clean_census_values_numeric|].
  intros s q Hq. split; [|apply percent_range].
  unfold percent_to_decimal, astype_float. simpl. by rewrite Hq.
Qed.

Lemma cleaned_census_is_numeric_witness :
  ∃ f', clean_census_values (census_fifty "13.00%" "Z") = Ok f' ∧ numeric_frame f'.
Proof.
  eexists. split; [vm_compute; reflexivity|].
  refine (proj1 (cleaned_census_is_numeric (census_fifty "13.00%" "Z") _ _)).
  vm_compute. reflexivity.
Defined.

(* ================================================================= *)
(** * Further properties of the code *)

(** ** Sums and grouping *)

Lemma wrap64_add_l a b : wrap64 (wrap64 a + b) = wrap64 (a + b).
Proof.
  unfold wrap64. f_equal.
  replace ((a + 2 ^ 63) `mod` 2 ^ 64 - 2 ^ 63 + b + 2 ^ 63)
    with ((a + 2 ^ 63) `mod` 2 ^ 64 + b) by lia.
  rewrite Zplus_mod_idemp_l. f_equal. lia.
Qed.

Lemma wrap64_Zsum_wrap (l : list Z) : wrap64 (Zsum (wrap64 <$> l)) = wrap64 (Zsum l).
Proof.
  induction l as [|x l IH]; [done|].
  change (wrap64 (wrap64 x + Zsum (wrap64 <$> l)) = wrap64 (x + Zsum l)).
  rewrite wrap64_add_l, Z.add_comm, <-wrap64_add_l, IH, wrap64_add_l.
  f_equal. lia.
Qed.

Section partition.
Context {R K : Type} `{EqDecision K} (key : R → K) (v : R → Z).

Lemma Zsum_filter_cons k ks rows :
  k ∉ ks →
  Zsum (v <$> filter (λ r, key r ∈ k :: ks) rows) =
  Zsum (v <$> filter (λ r, key r = k) rows) + Zsum (v <$> filter (λ r, key r ∈ ks) rows).
Proof.
  intros Hk. induction rows as [|r rows IH]; [done|].
  rewrite !filter_cons.
  destruct (decide (key r = k)) as [Heq|Hne].
  - rewrite decide_True by (rewrite Heq; by left).
    rewrite (decide_False (P := key r ∈ ks)) by (by rewrite Heq).
    cbn [fmap list_fmap Zsum foldr]. unfold Zsum in *. lia.
  - destruct (decide (key r ∈ ks)) as [Hin|Hnin].
    + rewrite decide_True by (by right).
      cbn [fmap list_fmap Zsum foldr]. unfold Zsum in *. lia.
    + rewrite decide_False by (by intros [?|?]%elem_of_cons). done.
Qed.

Lemma Zsum_groups ks rows :
  NoDup ks →
  Zsum ((λ k, Zsum (v <$> filter (λ r, key r = k) rows)) <$> ks) =
  Zsum (v <$> filter (λ r, key r ∈ ks) rows).
Proof.
  induction 1 as [|k ks Hk Hnd IH].
  - simpl. rewrite (filter_none _ rows); [done|].
    apply Forall_forall. intros r _. apply not_elem_of_nil.
  - rewrite Zsum_filter_cons by done. rewrite <-IH. done.
Qed.
End partition.

(** X1.  The table of yearly sums per state has one row per (state, year)
    pair on record, in ascending order of state and then year; each row holds
    the sum of the totals of its pair, and the sums add up to the total of
    the whole table (in [int64] arithmetic): grouping loses no check. *)
Theorem years_sum_table gun :
  NoDup ((λ r, (ys_state r, ys_year r)) <$> years_sum gun) ∧
  Sorted state_year_le ((λ r, (ys_state r, ys_year r)) <$> years_sum gun) ∧
  (∀ s y t, YearsSum s y t ∈ years_sum gun ↔
            (∃ r, r ∈ gun ∧ state r = s ∧ year r = y) ∧ t = year_total gun s y) ∧
  wrap64 (Zsum (ys_totals <$> years_sum gun)) = sum_int64 (totals <$> gun).
Proof.
  split; [apply NoDup_years_sum_keys|].
  split; [rewrite years_sum_keys; apply Sorted_group_keys, _|].
  split; [apply elem_of_years_sum|].
  unfold years_sum, groupby. rewrite <-!list_fmap_compose.
  set (ks := group_keys state_year_le (λ r, (state r, year r)) gun).
  assert ((ys_totals ∘ (λ kv : string * Z * Z, YearsSum kv.1.1 kv.1.2 kv.2)
             ∘ (λ k, (k, sum_int64 (totals <$> group_rows (λ r, (state r, year r)) gun k))))
          <$> ks
          = wrap64 <$> ((λ k, Zsum (totals <$> filter (λ r, (state r, year r) = k) gun))
                          <$> ks)) as ->.
  { rewrite <-list_fmap_compose. by apply list_fmap_ext. }
  rewrite wrap64_Zsum_wrap, (Zsum_groups (λ r, (state r, year r)) totals ks gun).
  - unfold sum_int64. do 3 f_equal. apply filter_all, Forall_forall.
    intros r Hr. apply elem_of_group_keys. eauto.
  - apply NoDup_group_keys.
Qed.

Lemma length_group_keys {R K} `{EqDecision K} (le : relation K) `{!RelDecision le}
    (key : R → K) (rows : list R) :
  (length (group_keys le key rows) ≤ length rows)%nat.
Proof.
  unfold group_keys. rewrite merge_sort_Permutation.
  rewrite <-(length_fmap key rows). apply submseteq_length, NoDup_submseteq.
  - apply NoDup_remove_dups.
  - intros x. by rewrite elem_of_remove_dups.
Qed.

(** X2.  The yearly trend table lists its years in strictly increasing
    order, has at most 18 rows (it is built from rows 1 to 18 of the yearly
    sums), lists only years that occur in the data, and holds for each year
    the sum over the rows of that slice. *)
Theorem time_years_shape gun :
  StronglySorted Z.lt (time_years gun).*1 ∧
  (length (time_years gun) ≤ 18)%nat ∧
  (∀ y t, (y, t) ∈ time_years gun →
     (∃ r, r ∈ gun ∧ year r = y) ∧
     t = sum_int64 (ys_totals <$> filter (λ r, ys_year r = y)
                                    (iloc_rows 1 19 (years_sum gun)))).
Proof.
  split.
  { unfold time_years. rewrite fst_groupby.
    apply Sorted_le_NoDup_lt; [apply Sorted_group_keys, _|apply NoDup_group_keys]. }
  split.
  { unfold time_years, groupby. rewrite length_fmap.
    etrans; [apply length_group_keys|].
    unfold iloc_rows. rewrite length_take. lia. }
  intros y t [(r & Hr & <-) ->]%elem_of_groupby. split; [|done].
  unfold iloc_rows in Hr. apply elem_of_take in Hr as (i & Hi & _).
  apply list_elem_of_lookup_2 in Hi.
  assert (r ∈ years_sum gun) as Hin.
  { rewrite <-(take_drop 1 (years_sum gun)). apply elem_of_app. by right. }
  destruct r as [s y t]. apply elem_of_years_sum in Hin as [(r & ? & ? & ?) _].
  eauto.
Qed.

(** ** Means per state and the inner join *)

Lemma elem_of_state_checks gun s v :
  (s, v) ∈ state_checks gun ↔
  (∃ r, r ∈ gun ∧ state r = s) ∧
  v = mean_int64 (totals <$> filter (λ r, state r = s) gun).
Proof. unfold state_checks. by rewrite elem_of_groupby. Qed.

(** X3.  The per-state means list every state of the table once, in
    ascending order; the mean of a state is never NaN, and multiplied by the
    number of rows of the state it gives back the sum of their totals. *)
Theorem state_checks_groups gun :
  NoDup (state_checks gun).*1 ∧
  Sorted String.le (state_checks gun).*1 ∧
  (∀ s, s ∈ (state_checks gun).*1 ↔ ∃ r, r ∈ gun ∧ state r = s) ∧
  (∀ s v, (s, v) ∈ state_checks gun →
     ∃ q, v = Some q ∧
          (q * Qc_of_nat (length (filter (λ r, state r = s) gun)))%Qc
          = Qc_of_Z (Zsum (totals <$> filter (λ r, state r = s) gun))).
Proof.
  unfold state_checks at 1 2 3. rewrite fst_groupby.
  split; [apply NoDup_group_keys|].
  split; [apply Sorted_group_keys, _|].
  split; [apply elem_of_group_keys|].
  intros s v [(r & Hr & Hs) ->]%elem_of_state_checks.
  assert (r ∈ filter (λ r, state r = s) gun) as Hin by (by apply list_elem_of_filter).
  destruct (filter (λ r, state r = s) gun) as [|r0 g] eqn:Hg; [by apply elem_of_nil in Hin|].
  eexists. split; [reflexivity|]. rewrite length_fmap.
  pose proof (Qc_of_nat_ne_0 (length (r0 :: g)) ltac:(done)) as Hnz.
  rewrite Z2Qc_inj_0 in Hnz. by field.
Qed.

(** X4.  The merged table is the inner join on the state: a row belongs to it
    exactly when its Census part is a row of the Census table whose state has
    background-check rows, and its [totals] is the mean over those rows. *)
Theorem merged_is_inner_join gun census m :
  m ∈ merged gun census ↔
  m_census m ∈ census ∧
  (∃ r, r ∈ gun ∧ state r = c_state (m_census m)) ∧
  m_totals m = mean_int64 (totals <$> filter (λ r, state r = c_state (m_census m)) gun).
Proof.
  unfold merged, merge_inner. rewrite list_elem_of_bind. split.
  - intros ([s v] & (c & -> & [Hs Hc]%list_elem_of_filter)%list_elem_of_fmap
            & [Hr ->]%elem_of_state_checks).
    simpl in *. subst s. done.
  - intros (Hc & Hr & Hm). destruct m as [t c]. simpl in *.
    exists (c_state c, t). split.
    + apply list_elem_of_fmap. exists c. split; [done|].
      by apply list_elem_of_filter.
    + apply elem_of_state_checks. done.
Qed.

(** ** The truncated mean *)

Lemma mean_int64_bounds l lo hi m :
  Forall (λ x, lo ≤ x ≤ hi) l → mean_int64 l = Some m →
  (Qc_of_Z lo ≤ m)%Qc ∧ (m ≤ Qc_of_Z hi)%Qc.
Proof.
  intros Hl Hm.
  assert (lo * Z.of_nat (length l) ≤ Zsum l ≤ hi * Z.of_nat (length l)) as Hsum.
  { clear Hm. induction Hl as [|x l Hx Hl IH]; [simpl; lia|].
    change (Zsum (x :: l)) with (x + Zsum l). rewrite length_cons, Nat2Z.inj_succ. lia. }
  destruct l as [|x l]; [done|].
  change (mean_int64 (x :: l))
    with (Some (Qc_of_Z (Zsum (x :: l)) / Qc_of_nat (length (x :: l)))%Qc) in Hm.
  apply (inj Some) in Hm. subst m.
  set (n := length (x :: l)) in *. set (t := Zsum (x :: l)) in *.
  assert (0 < Qc_of_nat n)%Qc as Hn.
  { unfold Qc_of_nat. rewrite <-Z2Qc_inj_0, <-Z2Qc_inj_lt.
    unfold n. rewrite length_cons. lia. }
  assert (Qc_of_nat n ≠ 0%Qc) as Hnz.
  { intros Heq. rewrite Heq in Hn. by apply (irreflexivity Qclt 0%Qc). }
  rewrite (Qcmult_le_mono_pos_r _ _ _ Hn), (Qcmult_le_mono_pos_r _ (Qc_of_Z hi) _ Hn).
  assert (Qc_of_Z t / Qc_of_nat n * Qc_of_nat n = Qc_of_Z t)%Qc as ->
    by (by field).
  unfold Qc_of_nat. rewrite <-!Z2Qc_inj_mul, <-!Z2Qc_inj_le. done.
Qed.

(** X5.  The average number of checks cannot be computed on an empty table
    ([int] of NaN raises) and only then; when every [totals] lies between two
    bounds, the lower one not negative, so does the truncated mean. *)
Theorem bg_checks_mean_range gun :
  (bg_checks_mean gun = Err (ValueError "cannot convert float NaN to integer")
   ↔ gun = []) ∧
  (∀ lo hi bg, 0 ≤ lo → Forall (λ r, lo ≤ totals r ≤ hi) gun →
               bg_checks_mean gun = Ok bg → lo ≤ bg ≤ hi).
Proof.
  split.
  { unfold bg_checks_mean. destruct gun as [|r gun]; [done|]. simpl. by split. }
  intros lo hi bg Hlo Hall. unfold bg_checks_mean.
  destruct (mean_int64 (totals <$> gun)) as [m|] eqn:Hm; [|done].
  intros [= <-].
  destruct (mean_int64_bounds _ lo hi m (proj2 (Forall_fmap _ _ _) Hall) Hm) as [Hl Hh].
  assert (0 ≤ m)%Qc as Hpos.
  { etrans; [|exact Hl]. by rewrite <-Z2Qc_inj_0, <-Z2Qc_inj_le. }
  destruct (proj1 (int_of_float_bounds m) Hpos) as [H1 H2].
  split.
  - assert (Qc_of_Z lo < Qc_of_Z (int_of_float m + 1))%Qc as Hlt
      by (by eapply Qcle_lt_trans).
    rewrite <-Z2Qc_inj_lt in Hlt. lia.
  - rewrite Z2Qc_inj_le. by etrans.
Qed.

(** ** The ranking *)

Lemma NoDup_sub_by_state a b :
  NoDup (ys_state <$> a) → NoDup (sub_by_state a b).*1.
Proof.
  intros Ha. unfold sub_by_state. case_decide as Heq.
  - assert ((zip_with (λ ra rb,
               (ys_state ra, Some (wrap64 (ys_year ra - ys_year rb),
                                   wrap64 (ys_totals ra - ys_totals rb)))) a b).*1
            = ys_state <$> a) as ->; [|done].
    assert (length a = length b) as Hlen.
    { apply (f_equal length) in Heq. by rewrite !length_fmap in Heq. }
    clear Heq Ha. revert b Hlen.
    induction a as [|ra a IH]; intros [|rb b] Hlen; simplify_eq/=; [done|].
    f_equal. by apply IH.
  - rewrite <-list_fmap_compose.
    rewrite (list_fmap_ext _ id _); [|by intros].
    rewrite list_fmap_id, merge_sort_Permutation. apply NoDup_remove_dups.
Qed.

Lemma NoDup_dropna l : NoDup l.*1 → NoDup (d_state <$> dropna l).
Proof.
  induction l as [|[s [[y t]|]] l IH]; csimpl; intros Hnd; [done|..];
    apply NoDup_cons in Hnd as [Hs Hnd]; [|by apply IH].
  apply NoDup_cons. split; [|by apply IH].
  intros (r & -> & ([s' v] & Hin & Hr)%list_elem_of_omap)%list_elem_of_fmap.
  apply Hs. apply list_elem_of_fmap. exists (s', v). split; [|done].
  simpl in *. destruct v as [[y' t']|]; [|done]. by injection Hr as <-.
Qed.

(** X7.  No state is listed twice, neither in the table of differences nor
    in the five-row ranking taken from it. *)
Theorem top_five_states_distinct gun :
  NoDup (d_state <$> diff gun) ∧ NoDup (top_five gun).*1.
Proof.
  assert (NoDup (d_state <$> diff gun)) as Hd.
  { apply NoDup_dropna, NoDup_sub_by_state, NoDup_checks_states. }
  split; [done|].
  rewrite top_five_take, <-list_fmap_compose.
  change (fst ∘ (λ r, (d_state r, d_totals r))) with d_state.
  rewrite fmap_take. eapply sublist_NoDup; [|apply sublist_take].
  unfold sort_values_desc. by rewrite merge_sort_Permutation.
Qed.

Lemma bg_checks_mean_range_witness :
  bg_checks_mean gun_mean_20000 = Ok 20000 ∧ 15000 ≤ 20000 ≤ 25000.
Proof.
  assert (bg_checks_mean gun_mean_20000 = Ok 20000) as Hm by (vm_compute; reflexivity).
  split; [exact Hm|].
  refine (proj2 (bg_checks_mean_range gun_mean_20000) 15000 25000 20000 _ _ Hm).
  - lia.
  - apply (bool_decide_unpack _). vm_compute. exact I.
Defined.

(** ** Counting and dropping duplicate rows *)

Lemma count_mask (m : list bool) :
  (length (filter (λ b, b = true) m) + length (filter (λ b, b = true) (negb <$> m))
   = length m)%nat.
Proof.
  induction m as [|[] m IH]; [done|..]; rewrite fmap_cons, !filter_cons; simpl; lia.
Qed.

Lemma filter_replicate_false n :
  filter (λ b, b = true) (replicate n false) = [].
Proof. induction n as [|n IH]; [done|]. simpl. by rewrite filter_cons_False. Qed.

Lemma kept_from_sublist {A} `{EqDecision A} (seen l : list A) :
  kept_from seen l `sublist_of` l.
Proof.
  revert seen. induction l as [|x l IH]; intros seen; [done|].
  rewrite kept_from_cons. destruct (decide (x ∈ seen)).
  - by apply sublist_cons.
  - by apply sublist_skip.
Qed.

Lemma boolean_mask_zip {A B} (m : list bool) (a : list A) (b : list B) :
  zip (boolean_mask m a) (boolean_mask m b) = boolean_mask m (zip a b).
Proof.
  revert a b. induction m as [|c m IH]; intros [|x a] [|y b]; try done.
  - rewrite boolean_mask_nil. by destruct (boolean_mask _ _).
  - change (zip (x :: a) (y :: b)) with ((x, y) :: zip a b).
    rewrite !boolean_mask_cons, <-IH. by destruct c.
Qed.

(** X8.  The count of duplicate rows is the number of rows [drop_duplicates]
    removes; it is zero exactly when no row is repeated, and then the table
    is returned as it is; the rows kept stay in their order, each one under
    the index label it had. *)
Theorem duplicated_rows_accounting f :
  (duplicated_sum f + length (data (drop_duplicates f)) = length (data f))%nat ∧
  (duplicated_sum f = 0%nat ↔ NoDup (data f)) ∧
  data (drop_duplicates f) `sublist_of` data f ∧
  zip (index (drop_duplicates f)) (data (drop_duplicates f))
    `sublist_of` zip (index f) (data f) ∧
  (NoDup (data f) → (length (index f) ≤ length (data f))%nat → drop_duplicates f = f).
Proof.
  assert (duplicated_sum f + length (data (drop_duplicates f)) = length (data f))%nat
    as Hcount.
  { unfold duplicated_sum, duplicated. rewrite drop_duplicates_data, <-count_kept.
    by rewrite count_mask, length_duplicated_from. }
  assert (NoDup (data f) → duplicated f = replicate (length (data f)) false) as Hnone.
  { intros Hnd. apply duplicated_from_NoDup; [done|]. intros x _. apply not_elem_of_nil. }
  split; [done|]. split; [|split; [|split]].
  - split.
    + intros H0. rewrite H0 in Hcount.
      pose proof (kept_from_sublist [] (data f)) as Hsub.
      rewrite <-drop_duplicates_data in Hsub.
      apply sublist_submseteq, submseteq_length_Permutation in Hsub; [|lia].
      rewrite <-Hsub, drop_duplicates_data. apply NoDup_kept_from.
    + intros Hnd. unfold duplicated_sum. by rewrite (Hnone Hnd), filter_replicate_false.
  - rewrite drop_duplicates_data. apply kept_from_sublist.
  - unfold drop_duplicates. simpl. rewrite boolean_mask_zip.
    generalize (negb <$> duplicated f) (zip (index f) (data f)).
    intros m l. revert l.
    induction m as [|b m IH]; intros [|x l]; try done; [apply sublist_nil_l|].
    rewrite boolean_mask_cons. destruct b; simpl.
    + by apply sublist_skip.
    + by apply sublist_cons.
  - intros Hnd Hlen. unfold drop_duplicates. rewrite (Hnone Hnd), fmap_replicate.
    rewrite !boolean_mask_true by done. by destruct f.
Qed.

Lemma duplicated_rows_accounting_witness :
  drop_duplicates gun_all_states = gun_all_states.
Proof.
  refine (proj2 (proj2 (proj2 (proj2 (duplicated_rows_accounting gun_all_states)))) _ _).
  - apply (bool_decide_unpack _). vm_compute. exact I.
  - vm_compute. lia.
Defined.

(** ** The percent block *)

Lemma percent_rows_49 : (49 ∈ percent_rows)%nat.
Proof. apply (bool_decide_unpack _). vm_compute. exact I. Qed.

Lemma take_2_app_tail (row tl : list cell) :
  length tl = length (drop 2 row) → take 2 (take 2 row ++ tl) = take 2 row.
Proof.
  intros Hlen. rewrite length_drop in Hlen.
  rewrite take_app, take_take, Nat.min_id, length_take.
  destruct (decide (length row ≤ 2)%nat) as [Hle|Hgt].
  - destruct tl; [|simpl in Hlen; lia]. by rewrite take_nil, app_nil_r.
  - replace (2 - 2 `min` length row)%nat with 0%nat by lia.
    by rewrite take_0, app_nil_r.
Qed.

(** X9.  The percent conversion needs a table of at least 50 rows (fewer
    raise an [IndexError]).  When it succeeds the labels, the index and the
    number of rows are unchanged; every row keeps its width and its first two
    cells; the rows 30 to 41 and the rows from 50 on are untouched; and in the
    other rows each cell from the third on is the converted cell. *)
Theorem percent_conversion_shape f :
  ((length (data f) < 50)%nat →
   percent_conversion f = Err (IndexError "positional indexers are out-of-bounds")) ∧
  (∀ f', percent_conversion f = Ok f' →
     (50 ≤ length (data f))%nat ∧
     columns f' = columns f ∧ index f' = index f ∧
     length (data f') = length (data f) ∧
     ∀ i row, data f !! i = Some row →
       ∃ row', data f' !! i = Some row' ∧ length row' = length row ∧
         take 2 row' = take 2 row ∧
         (i ∉ percent_rows → row' = row) ∧
         (i ∈ percent_rows → ∀ j c, (2 ≤ j)%nat → row !! j = Some c →
            ∃ c', row' !! j = Some c' ∧ percent_to_decimal c = Ok c')).
Proof.
  split.
  { intros Hlt. unfold percent_conversion. rewrite decide_False; [done|].
    intros HF. rewrite Forall_forall in HF. specialize (HF _ percent_rows_49). lia. }
  intros f'. unfold percent_conversion. case_decide as HF; [|done].
  destruct (traverse _ _) as [rows|e] eqn:Ht; [|done]. intros [= <-]. simpl.
  rewrite Forall_forall in HF. pose proof (HF _ percent_rows_49) as H49.
  apply traverse_lookup in Ht as [Hlen Hrows].
  rewrite length_zip_with, length_seq, Nat.min_id in Hlen.
  split; [lia|]. do 3 (split; [done|]).
  intros i row Hrow.
  destruct (Hrows i (i, row)) as (row' & Hrow' & Hg).
  { apply lookup_zip_seq. split; [done|]. split; [|done]. by eapply lookup_lt_Some. }
  exists row'. split; [done|]. simpl in Hg.
  destruct (decide (i ∈ percent_rows)) as [Hi|Hi].
  - destruct (traverse percent_to_decimal (drop 2 row)) as [tl|e] eqn:Htl; [|done].
    injection Hg as <-. apply traverse_lookup in Htl as [Hltl Htl].
    split; [|split; [|split]].
    + rewrite length_app, Hltl, <-length_app. by rewrite take_drop.
    + by apply take_2_app_tail.
    + done.
    + intros _ j c Hj Hc.
      assert (2 < length row)%nat as Hlr by (apply lookup_lt_Some in Hc; lia).
      destruct (Htl (j - 2)%nat c) as (c' & Hc' & Hcc).
      { rewrite lookup_drop. by replace (2 + (j - 2))%nat with j by lia. }
      exists c'. split; [|done].
      rewrite lookup_app_r; rewrite length_take; [|lia].
      by replace (j - 2 `min` length row)%nat with (j - 2)%nat by lia.
  - injection Hg as <-. done.
Qed.

Lemma percent_conversion_shape_witness :
  ∃ f', percent_conversion (census_fifty "13.00%" "0.10%") = Ok f' ∧
        columns f' = columns (census_fifty "13.00%" "0.10%") ∧
        length (data f') = 50%nat.
Proof.
  eexists. split; [vm_compute; reflexivity|].
  destruct (proj2 (percent_conversion_shape (census_fifty "13.00%" "0.10%")) _
              ltac:(vm_compute; reflexivity)) as (_ & Hc & _ & Hl & _).
  split; [exact Hc|]. rewrite Hl. vm_compute. reflexivity.
Defined.

(** ** Reordering the columns *)

Lemma traverse_Err {A B} (g : A → result B) (l : list A) e :
  traverse g l = Err e → ∃ x, x ∈ l ∧ g x = Err e.
Proof.
  induction l as [|x l IH]; [done|]. simpl.
  destruct (g x) as [y|e'] eqn:Hx; simpl.
  - destruct (traverse g l) as [ys|e'']; simpl; [done|]. intros [= ->].
    destruct IH as (z & Hz & Hgz); [done|]. exists z. split; [by right|done].
  - intros [= ->]. exists x. split; [by left|done].
Qed.

Lemma get_column_missing name f :
  CStr name ∉ columns f → get_column name f = Err (KeyError name).
Proof.
  intros Hn. unfold get_column, column_position.
  destruct (list_find _ _) as [[i y]|] eqn:Hf; [|done].
  apply list_find_Some in Hf as (Hi & -> & _).
  destruct Hn. by eapply list_elem_of_lookup_2.
Qed.

Lemma positions_of_NoDup l cols p :
  NoDup cols → cols !! p = Some l → positions_of l cols = [p].
Proof.
  intros Hnd Hp. unfold positions_of.
  pose proof (filter_unique snd (zip (seq 0 (length cols)) cols) p (p, l)) as H.
  simpl in H. rewrite H; [done| |].
  - by rewrite snd_zip by (by rewrite length_seq).
  - apply lookup_zip_seq. split; [done|]. split; [by eapply lookup_lt_Some|done].
Qed.

Lemma positions_of_missing l cols : l ∉ cols → positions_of l cols = [].
Proof.
  intros Hn. unfold positions_of. rewrite filter_none; [done|].
  apply Forall_forall. intros [p c] Hin Heq. simpl in Heq. subst c.
  by apply elem_of_zip_r in Hin.
Qed.

Lemma positions_of_nil l cols : positions_of l cols = [] → l ∉ cols.
Proof.
  unfold positions_of. intros H%fmap_nil_inv [p Hp]%list_elem_of_lookup.
  assert ((p, l) ∈ filter (λ pc : nat * cell, pc.2 = l)
                     (zip (seq 0 (length cols)) cols)) as Hin.
  { apply list_elem_of_filter. split; [done|].
    apply (list_elem_of_lookup_2 _ p), lookup_zip_seq.
    split; [done|]. split; [by eapply lookup_lt_Some|done]. }
  rewrite H in Hin. by apply elem_of_nil in Hin.
Qed.

(** When no label is repeated, each label selects the one column that
    carries it. *)
Lemma getitem_labels_NoDup labels f :
  NoDup (columns f) →
  getitem_labels labels f
  = (ps ← traverse (λ l, match list_find (λ c, c = l) (columns f) with
                         | Some (p, _) => Ok p
                         | None => Err (KeyError "not in index")
                         end) labels;
     Ok (take_positions ps f)).
Proof.
  intros Hnd. unfold getitem_labels.
  assert (∀ ls,
    traverse (λ l, match positions_of l (columns f) with
                   | [] => Err (KeyError "not in index")
                   | ps => Ok ps
                   end) ls
    = fmap (M := list) (λ p, [p]) <$>
      traverse (λ l, match list_find (λ c, c = l) (columns f) with
                     | Some (p, _) => Ok p
                     | None => Err (KeyError "not in index")
                     end) ls) as ->.
  { induction ls as [|l ls IH]; [done|]. simpl. rewrite IH. clear IH.
    destruct (list_find _ _) as [[p y]|] eqn:Hf.
    - apply list_find_Some in Hf as (Hy & -> & _).
      rewrite (positions_of_NoDup _ _ _ Hnd Hy). simpl. by destruct (traverse _ ls).
    - rewrite list_find_None, Forall_forall in Hf.
      rewrite positions_of_missing; [done|]. intros Hin. by apply (Hf _ Hin). }
  destruct (traverse _ labels) as [ps|e]; [|done].
  change (Ok (take_positions (concat ((λ p, [p]) <$> ps)) f)
          = Ok (take_positions ps f)).
  do 2 f_equal. induction ps as [|p ps IH]; [done|].
  rewrite fmap_cons. simpl. f_equal. exact IH.
Qed.

Lemma getitem_labels_spec labels f f' :
  NoDup (columns f) →
  getitem_labels labels f = Ok f' →
  columns f' = labels ∧ index f' = index f ∧ length (data f') = length (data f) ∧
  ∀ name, CStr name ∈ labels → get_column name f' = get_column name f.
Proof.
  intros Hnd. rewrite (getitem_labels_NoDup _ _ Hnd).
  destruct (traverse _ labels) as [ps|e] eqn:Ht; [|done].
  simpl. intros [= <-]. apply traverse_lookup in Ht as [Hlen Hps].
  assert (pick ps (columns f) = labels) as Hcols.
  { apply list_eq. intros i. unfold pick. rewrite list_lookup_fmap.
    destruct (labels !! i) as [l|] eqn:Hl.
    - destruct (Hps i l Hl) as (p & -> & Hp). simpl. f_equal.
      destruct (list_find _ _) as [[p' y]|] eqn:Hf; [|done]. injection Hp as ->.
      apply list_find_Some in Hf as (Hy & -> & _). unfold cell_at. by rewrite Hy.
    - apply lookup_ge_None in Hl. rewrite lookup_ge_None_2; [done|lia]. }
  simpl. split; [done|]. split; [done|]. split; [by rewrite length_fmap|].
  intros name Hin. unfold get_column, column_position. simpl. rewrite Hcols.
  destruct (list_find_elem_of (λ c, c = CStr name) labels (CStr name) Hin eq_refl)
    as [[i y] Hf].
  rewrite Hf. simpl. apply list_find_Some in Hf as (Hi & -> & _).
  destruct (Hps i _ Hi) as (p & Hp & Hg).
  destruct (list_find _ (columns f)) as [[p' y]|] eqn:Hf'; [|done].
  injection Hg as ->. simpl. f_equal. unfold column_at. simpl.
  rewrite <-list_fmap_compose. apply list_fmap_ext. intros _ row _. simpl.
  unfold cell_at at 1. unfold pick. by rewrite list_lookup_fmap, Hp.
Qed.

Lemma pop_label_Ok n cols cols' :
  pop_label n cols = Ok cols' → cols ≡ₚ CStr n :: cols' ∧ cols' `sublist_of` cols.
Proof.
  unfold pop_label. destruct (list_find _ _) as [[i y]|] eqn:Hf; [|done].
  intros [= <-]. apply list_find_Some in Hf as (Hi & -> & _).
  split; [by apply delete_Permutation|apply sublist_delete].
Qed.

Lemma pop_label_Err n cols e :
  pop_label n cols = Err e →
  (CStr n ∉ cols) ∧ e = ValueError ("'" +:+ n +:+ "' is not in list").
Proof.
  unfold pop_label. destruct (list_find _ _) as [[i y]|] eqn:Hf; [done|].
  intros [= <-]. split; [|done]. rewrite list_find_None, Forall_forall in Hf.
  intros Hin. by apply (Hf _ Hin).
Qed.

Lemma three_pops n1 n2 n3 cols c1 c2 c3 :
  pop_label n1 cols = Ok c1 → pop_label n2 c1 = Ok c2 → pop_label n3 c2 = Ok c3 →
  c3 ++ [CStr n1; CStr n2; CStr n3] ≡ₚ cols ∧ c3 `sublist_of` cols.
Proof.
  intros [Hp1 Hs1]%pop_label_Ok [Hp2 Hs2]%pop_label_Ok [Hp3 Hs3]%pop_label_Ok.
  split; [|by repeat (etrans; [eassumption|])].
  rewrite Hp1, Hp2, Hp3. rewrite (comm (++)). simpl. done.
Qed.

Lemma getitem_labels_total f labels :
  labels ≡ₚ columns f → ∃ f', getitem_labels labels f = Ok f'.
Proof.
  intros Hperm. destruct (getitem_labels _ f) as [f'|e] eqn:Hg; [by eexists|].
  unfold getitem_labels in Hg.
  destruct (traverse _ _) as [ps|e'] eqn:Ht; [done|].
  apply traverse_Err in Ht as (l & Hl & Hgl).
  destruct (positions_of l (columns f)) as [|p ps] eqn:Hf; [|done].
  apply positions_of_nil in Hf. rewrite Hperm in Hl. done.
Qed.

(** X11.  Moving three columns to the end (lines 163-167 and 426-430), on a
    table whose column labels are distinct, succeeds exactly when the three
    labels are distinct and occur among the columns.  The result then ends
    with the three labels, the other labels come before them
    in their former order, nothing is lost or added, and every column still
    holds the same values under its label.  A failure is always the
    [ValueError] of [list.index], never a [KeyError] of the selection. *)
Theorem move_last_spec n1 n2 n3 f :
  NoDup (columns f) →
  ((∃ f', move_last n1 n2 n3 f = Ok f') ↔
   NoDup [n1; n2; n3] ∧ Forall (λ n, CStr n ∈ columns f) [n1; n2; n3]) ∧
  (∀ f', move_last n1 n2 n3 f = Ok f' →
     (∃ rest, columns f' = rest ++ [CStr n1; CStr n2; CStr n3] ∧
              rest `sublist_of` columns f) ∧
     columns f' ≡ₚ columns f ∧
     index f' = index f ∧ length (data f') = length (data f) ∧
     ∀ name, get_column name f' = get_column name f) ∧
  (∀ e, move_last n1 n2 n3 f = Err e → exn_class e = "ValueError").
Proof.
  intros Hnd.
  assert ([CStr n1; CStr n2; CStr n3] ⊆+ columns f ↔
          NoDup [n1; n2; n3] ∧ Forall (λ n, CStr n ∈ columns f) [n1; n2; n3]) as <-.
  { assert (Inj (=) (=) CStr) as Hinj by (by intros ?? [=]).
    change [CStr n1; CStr n2; CStr n3] with (CStr <$> [n1; n2; n3]). split.
    - intros Hsub. split.
      + apply (NoDup_fmap_1 CStr).
        destruct (submseteq_Permutation _ _ Hsub) as [k Hk].
        rewrite Hk in Hnd. by apply NoDup_app in Hnd as [? _].
      + apply Forall_forall. intros n Hn.
        eapply elem_of_submseteq; [|exact Hsub]. by apply list_elem_of_fmap_2.
    - intros [Hd Hin]. apply NoDup_submseteq.
      + by apply (NoDup_fmap_2 CStr).
      + intros c (n & -> & Hn)%list_elem_of_fmap.
        rewrite Forall_forall in Hin. by apply Hin. }
  split; [split|split].
  - intros [f' Hf']. unfold move_last in Hf'.
    destruct (pop_label n1 _) as [c1|] eqn:H1; [|done]. simpl in Hf'.
    destruct (pop_label n2 _) as [c2|] eqn:H2; [|done]. simpl in Hf'.
    destruct (pop_label n3 _) as [c3|] eqn:H3; [|done]. simpl in Hf'.
    destruct (three_pops _ _ _ _ _ _ _ H1 H2 H3) as [Hperm _]. rewrite <-Hperm.
    apply submseteq_inserts_l. done.
  - intros Hsub. unfold move_last.
    destruct (pop_label n1 _) as [c1|e] eqn:H1.
    2:{ apply pop_label_Err in H1 as [Hn _]. destruct Hn.
        eapply elem_of_submseteq; [|exact Hsub]. by left. }
    simpl. pose proof H1 as [Hp1 _]%pop_label_Ok. rewrite Hp1 in Hsub.
    apply (submseteq_app_inv_l [_; _] c1 [_]) in Hsub.
    destruct (pop_label n2 _) as [c2|e] eqn:H2.
    2:{ apply pop_label_Err in H2 as [Hn _]. destruct Hn.
        eapply elem_of_submseteq; [|exact Hsub]. by left. }
    simpl. pose proof H2 as [Hp2 _]%pop_label_Ok. rewrite Hp2 in Hsub.
    apply (submseteq_app_inv_l [_] c2 [_]) in Hsub.
    destruct (pop_label n3 _) as [c3|e] eqn:H3.
    2:{ apply pop_label_Err in H3 as [Hn _]. destruct Hn.
        eapply elem_of_submseteq; [|exact Hsub]. by left. }
    simpl. apply getitem_labels_total. by destruct (three_pops _ _ _ _ _ _ _ H1 H2 H3).
  - intros f' Hf'. unfold move_last in Hf'.
    destruct (pop_label n1 _) as [c1|] eqn:H1; [|done]. simpl in Hf'.
    destruct (pop_label n2 _) as [c2|] eqn:H2; [|done]. simpl in Hf'.
    destruct (pop_label n3 _) as [c3|] eqn:H3; [|done]. simpl in Hf'.
    destruct (three_pops _ _ _ _ _ _ _ H1 H2 H3) as [Hperm Hsub].
    apply (getitem_labels_spec _ _ _ Hnd) in Hf' as (Hc & Hi & Hl & Hcol).
    split; [by exists c3|]. split; [by rewrite Hc|]. do 2 (split; [done|]).
    intros name. destruct (decide (CStr name ∈ c3 ++ [CStr n1; CStr n2; CStr n3]))
      as [Hin|Hin]; [by apply Hcol|].
    rewrite !get_column_missing; [done|by rewrite <-Hperm|by rewrite Hc].
  - intros e. unfold move_last.
    destruct (pop_label n1 _) as [c1|e1] eqn:H1;
      [|intros [= <-]; by apply pop_label_Err in H1 as [_ ->]]. simpl.
    destruct (pop_label n2 _) as [c2|e2] eqn:H2;
      [|intros [= <-]; by apply pop_label_Err in H2 as [_ ->]]. simpl.
    destruct (pop_label n3 _) as [c3|e3] eqn:H3;
      [|intros [= <-]; by apply pop_label_Err in H3 as [_ ->]]. simpl.
    intros He. destruct (getitem_labels_total f (c3 ++ [CStr n1; CStr n2; CStr n3])) as [f' Hf'];
      [by destruct (three_pops _ _ _ _ _ _ _ H1 H2 H3)|].
    congruence.
Qed.

Lemma move_last_spec_witness :
  ∃ f', move_last "year" "state" "totals" gun_before_filter = Ok f' ∧
        columns f' = [CStr "month_no"; CStr "year"; CStr "state"; CStr "totals"] ∧
        get_column "state" f' = get_column "state" gun_before_filter.
Proof.
  assert (NoDup (columns gun_before_filter)) as Hnd
    by (apply (bool_decide_unpack _); vm_compute; exact I).
  eexists. split; [vm_compute; reflexivity|]. split; [vm_compute; reflexivity|].
  refine (proj2 (proj2 (proj2 (proj2 (proj1 (proj2
            (move_last_spec "year" "state" "totals" gun_before_filter Hnd)) _ _))))
            "state").
  vm_compute. reflexivity.
Defined.

(** ** Dropping the territories again *)

Lemma drop_rows_nil f :
  (length (data f) ≤ length (index f))%nat → drop_rows [] f = f.
Proof.
  intros Hlen. unfold drop_rows.
  assert ((λ l : cell, bool_decide (l ∉ [])) <$> index f
          = replicate (length (index f)) true) as ->.
  { clear Hlen. induction (index f) as [|l ls IH]; [done|].
    rewrite fmap_cons, IH. simpl. f_equal; apply bool_decide_eq_true_2, not_elem_of_nil. }
  rewrite !boolean_mask_true by done. by destruct f.
Qed.

Lemma drop_rows_lengths labels f :
  (length (data (drop_rows labels f)) ≤ length (index (drop_rows labels f)))%nat.
Proof.
  unfold drop_rows. simpl. etrans; [apply length_boolean_mask|].
  rewrite length_boolean_mask_full; [done|]. by rewrite length_fmap.
Qed.

(** X12.  Filtering the territories a second time changes nothing: after
    line 202 no row of a territory is left, so the second pass finds no label
    to drop. *)
Theorem territory_filter_again f f' :
  territory_filter f = Ok f' → territory_filter f' = Ok f'.
Proof.
  intros Hf. destruct (territory_filter_position _ _ Hf) as [p Hp].
  pose proof (territory_filter_unfold f f' p Hp Hf) as Hf'.
  assert (column_position "state" f' = Some p) as Hp'.
  { unfold column_position in *. by rewrite (territory_filter_columns f f' p Hp Hf). }
  unfold territory_filter. rewrite Hp'. f_equal.
  assert (territory_labels p f' = []) as ->.
  { apply elem_of_nil_inv. intros l (i & Hm & _)%elem_of_boolean_mask.
    rewrite list_lookup_fmap in Hm. unfold column_at in Hm.
    rewrite list_lookup_fmap in Hm.
    destruct (data f' !! i) as [row|] eqn:Hrow; [|done].
    simpl in Hm. injection Hm as Hm. apply bool_decide_eq_true in Hm.
    apply list_elem_of_lookup_2 in Hrow.
    by destruct (territory_filter_sound f f' p Hp Hf row Hrow). }
  apply drop_rows_nil. rewrite Hf'. apply drop_rows_lengths.
Qed.

Lemma territory_filter_again_witness :
  ∃ f', territory_filter gun_before_filter = Ok f' ∧ territory_filter f' = Ok f'.
Proof.
  eexists. split; [vm_compute; reflexivity|].
  apply (territory_filter_again gun_before_filter). vm_compute. reflexivity.
Defined.

(** ** Column labels *)

Lemma chars_map_string g s : chars (map_string g s) = g <$> chars s.
Proof. induction s as [|a s IH]; [done|]. unfold chars in *. simpl. by rewrite IH. Qed.

Lemma chars_rev_app s t : chars (String.rev_app s t) = reverse (chars s) ++ chars t.
Proof.
  revert t. induction s as [|a s IH]; intros t; [done|].
  simpl String.rev_app. rewrite IH. unfold chars. simpl.
  by rewrite reverse_cons, <-app_assoc.
Qed.

Lemma chars_lstrip s a : a ∈ chars (lstrip s) → a ∈ chars s.
Proof.
  induction s as [|b s IH]; [done|]. simpl. destruct (is_space b); [|done].
  intros Ha. unfold chars. simpl. right. by apply IH.
Qed.

Lemma chars_strip s a : a ∈ chars (strip s) → a ∈ chars s.
Proof.
  unfold strip, String.rev. rewrite chars_rev_app, app_nil_r, elem_of_reverse.
  intros Ha%chars_lstrip. rewrite chars_rev_app, app_nil_r, elem_of_reverse in Ha.
  by apply chars_lstrip.
Qed.

Lemma chars_split_first c s a :
  a ∈ chars (split_first c s).1 → a ≠ c ∧ a ∈ chars s.
Proof.
  induction s as [|b s IH]; simpl; [by intros ?%elem_of_nil|].
  destruct (decide (b = c)) as [->|Hne]; simpl; [by intros ?%elem_of_nil|].
  destruct (split_first c s) as [h t] eqn:Hs. unfold chars in *. simpl in *.
  intros [->|Ha]%elem_of_cons.
  - split; [done|by left].
  - destruct (IH Ha). split; [done|by right].
Qed.

Lemma normalize_char (a : Ascii.ascii) :
  let b := if decide (lower_char a = " "%char) then "_"%char else lower_char a in
  b ≠ " "%char ∧ ¬ is_upper b ∧ (b = ","%char → a = ","%char).
Proof.
  destruct a as [[] [] [] [] [] [] [] []]; vm_compute;
    (split; [discriminate|split; [lia|try discriminate; done]]).
Qed.

Lemma chars_normalize_label t a :
  a ∈ chars (normalize_label t) →
  a ≠ " "%char ∧ ¬ is_upper a ∧ (a = ","%char → ","%char ∈ chars t).
Proof.
  unfold normalize_label. rewrite !chars_map_string, <-list_fmap_compose.
  intros (b & -> & Hb%chars_strip)%list_elem_of_fmap. simpl.
  destruct (normalize_char b) as (H1 & H2 & H3).
  split; [done|]. split; [done|]. intros Hc. by rewrite <-(H3 Hc).
Qed.

(** X13.  Relabelling the Census columns (lines 286-304) needs at least ten
    columns, otherwise line 295 raises an [IndexError].  On a table whose
    text labels are ASCII text it leaves index and cells alone; the columns 2 and 9 are called [white_alone] and
    [white_alone_non_hispanic]; every other text label is the text before its
    first comma, stripped, in lower case and with [_] for each space; and no
    label of the result holds a space, a comma or a capital letter. *)
Theorem label_columns_spec f :
  ((length (columns f) ≤ 9)%nat →
   ∃ e, label_columns f = Err e ∧ exn_class e = "IndexError") ∧
  (∀ f', (∀ s, CStr s ∈ columns f → ascii_text s) → label_columns f = Ok f' →
     length (columns f') = length (columns f) ∧ index f' = index f ∧ data f' = data f ∧
     columns f' !! 2%nat = Some (CStr "white_alone") ∧
     columns f' !! 9%nat = Some (CStr "white_alone_non_hispanic") ∧
     (∀ i s, i ≠ 2%nat → i ≠ 9%nat → columns f !! i = Some (CStr s) →
        columns f' !! i = Some (CStr (normalize_label (before_comma s)))) ∧
     (∀ s a, CStr s ∈ columns f' → a ∈ chars s →
        a ≠ " "%char ∧ a ≠ ","%char ∧ ¬ is_upper a)).
Proof.
  unfold label_columns, rename_white, map_labels. simpl. rewrite length_fmap.
  split.
  { intros Hle. rewrite decide_False by lia. eexists. split; reflexivity. }
  intros f' _. case_decide as Hlen; [|done]. simpl. intros [= <-]. simpl.
  set (L := (λ l, match l with CStr s => CStr (before_comma s) | _ => CNaN end)
              <$> columns f).
  assert (length L = length (columns f)) as HL by (unfold L; by rewrite length_fmap).
  split; [by rewrite length_fmap, !length_insert|]. do 2 (split; [done|]).
  split; [|split; [|split]].
  - rewrite list_lookup_fmap, list_lookup_insert_ne, list_lookup_insert_eq by lia.
    vm_compute. reflexivity.
  - rewrite list_lookup_fmap, list_lookup_insert_eq by (rewrite length_insert; lia).
    vm_compute. reflexivity.
  - intros i s H2 H9 Hi.
    rewrite list_lookup_fmap, !list_lookup_insert_ne by done.
    unfold L. by rewrite list_lookup_fmap, Hi.
  - intros s a (l & Hs & Hl)%list_elem_of_fmap Ha.
    destruct l as [t| |]; [|done..]. injection Hs as ->.
    destruct (chars_normalize_label _ _ Ha) as (H1 & H2 & H3).
    split; [done|]. split; [|done]. intros ->. specialize (H3 eq_refl).
    apply list_elem_of_lookup in Hl as [j Hj].
    apply list_lookup_insert_Some in Hj as [(_ & [= <-] & _)|[_ Hj]].
    { revert H3. apply (bool_decide_unpack _). vm_compute. exact I. }
    apply list_lookup_insert_Some in Hj as [(_ & [= <-] & _)|[_ Hj]].
    { revert H3. apply (bool_decide_unpack _). vm_compute. exact I. }
    unfold L in Hj. rewrite list_lookup_fmap in Hj.
    destruct (columns f !! j) as [[u| |]|]; simplify_eq/=.
    by apply chars_split_first in H3 as [? _].
Qed.

Lemma label_columns_spec_witness :
  ∃ f', label_columns (read_csv census_selected_labels []) = Ok f' ∧
        columns f' = CStr <$> census_header ∧
        ∀ s a, CStr s ∈ columns f' → a ∈ chars s →
               a ≠ " "%char ∧ a ≠ ","%char ∧ ¬ is_upper a.
Proof.
  eexists. split; [vm_compute; reflexivity|]. split; [vm_compute; reflexivity|].
  refine (proj2 (proj2 (proj2 (proj2 (proj2 (proj2 (proj2
            (label_columns_spec (read_csv census_selected_labels [])) _ _ _))))))).
  - intros s (t & [= ->] & Ht)%list_elem_of_fmap. revert t Ht.
    apply Forall_forall. unfold ascii_text.
    apply (bool_decide_unpack _). vm_compute. exact I.
  - vm_compute. reflexivity.
Defined.

(** ** The population column *)

Lemma column_position_missing name f :
  CStr name ∉ columns f → column_position name f = None.
Proof.
  intros Hn. unfold column_position.
  destruct (list_find _ _) as [[i y]|] eqn:Hf; [|done].
  apply list_find_Some in Hf as (Hi & -> & _).
  destruct Hn. by eapply list_elem_of_lookup_2.
Qed.

Lemma int64_cell_Ok z y :
  int64_cell z = Ok y → y = CNum (Qc_of_Z z) ∧ in_int64 z.
Proof. unfold int64_cell. case_decide; [|done]. by intros [= <-]. Qed.

Lemma astype_int_Ok c y :
  astype_int c = Ok y →
  ∃ z, y = CNum (Qc_of_Z z) ∧ in_int64 z ∧
       match c with
       | CStr s => parse_int s = Some z
       | CNum q => z = int_of_float q
       | CNaN => False
       end.
Proof.
  destruct c as [s|q|]; simpl; [| |done].
  - destruct (parse_int s) as [z|]; [|done].
    intros [-> ?]%int64_cell_Ok. by exists z.
  - intros [-> ?]%int64_cell_Ok. by eexists.
Qed.

(** X14.  Converting the population column (line 388) raises an
    [AttributeError] when the table has no such column.  When it succeeds,
    labels, index and number of rows are kept, and each row is changed in one
    cell at most, the one of that column, which now holds a whole number
    within [int64]: for a text cell the integer its text spells once the
    commas are removed, for a number its integer part; no cell of the column
    was [NaN]. *)
Theorem convert_population_spec f :
  (CStr "population_estimates" ∉ columns f →
   convert_population f
   = Err (AttributeError "'DataFrame' object has no attribute 'population_estimates'")) ∧
  (∀ f', convert_population f = Ok f' →
     columns f' = columns f ∧ index f' = index f ∧
     length (data f') = length (data f) ∧
     ∃ p, column_position "population_estimates" f = Some p ∧
       ∀ i row, data f !! i = Some row →
         ∃ z, data f' !! i = Some (<[p := CNum (Qc_of_Z z)]> row) ∧
              in_int64 z ∧
              match cell_at p row with
              | CStr s => parse_int (remove_char "," s) = Some z
              | CNum q => z = int_of_float q
              | CNaN => False
              end).
Proof.
  unfold convert_population. split.
  { intros Hn. by rewrite (column_position_missing _ _ Hn). }
  intros f'. destruct (column_position _ f) as [p|] eqn:Hp; [|done].
  destruct (traverse _ _) as [values|e] eqn:Ht; [|done]. simpl. intros [= <-].
  unfold set_column. rewrite Hp. simpl.
  apply traverse_lookup in Ht as [Hlen Hvals].
  unfold column_at in Hlen. rewrite length_fmap in Hlen.
  do 2 (split; [done|]). split; [rewrite length_zip_with; lia|].
  exists p. split; [done|]. intros i row Hrow.
  destruct (Hvals i _ (column_at_lookup p f i row Hrow)) as (y & Hy & Hg).
  destruct (astype_int_Ok _ _ Hg) as (z & -> & Hz & Hval). exists z.
  split; [by rewrite lookup_zip_with, Hrow, Hy|]. split; [done|].
  by destruct (cell_at p row).
Qed.

Lemma convert_population_spec_witness :
  ∃ f', convert_population (census_fifty "13.00%" "Z") = Ok f' ∧
        columns f' = columns (census_fifty "13.00%" "Z") ∧
        ∃ row', data f' !! 0%nat = Some row' ∧
                plain_of <$> row' !! 1%nat = Some (PNum 11614373%Q).
Proof.
  assert (∃ f', convert_population (census_fifty "13.00%" "Z") = Ok f') as [f' Hf']
    by (eexists; vm_compute; reflexivity).
  destruct (proj2 (convert_population_spec (census_fifty "13.00%" "Z")) f' Hf')
    as (Hc & _ & _ & p & Hp & Hrows).
  assert (p = 1%nat) as -> by (vm_compute in Hp; by injection Hp).
  destruct (Hrows 0%nat _ eq_refl) as (z & Hrow & _ & Hz).
  vm_compute in Hz. injection Hz as <-.
  exists f'. split; [done|]. split; [done|].
  eexists. split; [exact Hrow|]. vm_compute. reflexivity.
Defined.

(** ** The mean of the two [white_alone] columns *)

Lemma get_column_Ok name f col :
  get_column name f = Ok col →
  ∃ p, column_position name f = Some p ∧ col = column_at p f.
Proof.
  unfold get_column. destruct (column_position name f) as [p|]; [|done].
  intros [= <-]. by exists p.
Qed.

Lemma kept_positions_snoc (labels cols : list cell) (c : cell) :
  c ∉ labels →
  fst <$> filter (λ pc : nat * cell, pc.2 ∉ labels)
            (zip (seq 0 (length (cols ++ [c]))) (cols ++ [c]))
  = (fst <$> filter (λ pc : nat * cell, pc.2 ∉ labels)
               (zip (seq 0 (length cols)) cols)) ++ [length cols].
Proof.
  intros Hc. rewrite length_app. simpl. rewrite seq_app. simpl.
  rewrite zip_with_app by (by rewrite length_seq).
  rewrite filter_app, fmap_app. f_equal. simpl.
  by rewrite filter_cons_True.
Qed.

(** X15.  Lines 415-417 on a table that has no column [white_alone_mean]
    yet: the two [white_alone] columns go, the other labels keep their order
    and [white_alone_mean] comes last; index and number of rows are kept; and
    in every row of full width the last cell is the sum of the two former
    cells halved, [NaN] when one of them is [NaN]. *)
Theorem white_alone_mean_step_spec f f' :
  white_alone_mean_step f = Ok f' →
  CStr "white_alone_mean" ∉ columns f →
  columns f'
  = filter (λ c, c ∉ [CStr "white_alone"; CStr "white_alone_non_hispanic"]) (columns f)
    ++ [CStr "white_alone_mean"] ∧
  index f' = index f ∧ length (data f') = length (data f) ∧
  ∃ pa pb,
    column_position "white_alone" f = Some pa ∧
    column_position "white_alone_non_hispanic" f = Some pb ∧
    ∀ i row, data f !! i = Some row → length row = length (columns f) →
      ∃ row' m, data f' !! i = Some row' ∧ last row' = Some m ∧
        (t ← add_cell (cell_at pa row) (cell_at pb row); halve_cell t) = Ok m ∧
        (∀ x y, cell_at pa row = CNum x → cell_at pb row = CNum y →
                m = CNum ((x + y) / Qc_of_Z 2)%Qc) ∧
        (cell_at pa row = CNaN ∨ cell_at pb row = CNaN → m = CNaN).
Proof.
  unfold white_alone_mean_step. intros Hf Hnew.
  destruct (get_column "white_alone" f) as [a|] eqn:Ha; [|done].
  destruct (get_column "white_alone_non_hispanic" f) as [b|] eqn:Hb; [|done].
  simpl in Hf.
  destruct (traverse _ (zip a b)) as [total|] eqn:Ht; [|done]. simpl in Hf.
  destruct (traverse halve_cell total) as [halves|] eqn:Hh; [|done]. simpl in Hf.
  injection Hf as <-.
  apply get_column_Ok in Ha as (pa & Hpa & ->).
  apply get_column_Ok in Hb as (pb & Hpb & ->).
  apply traverse_lookup in Ht as [Hlt Htot]. apply traverse_lookup in Hh as [Hlh Hhalf].
  rewrite length_zip_with in Hlt. unfold column_at in Hlt. rewrite !length_fmap in Hlt.
  unfold set_column. rewrite (column_position_missing _ _ Hnew).
  set (L := [CStr "white_alone"; CStr "white_alone_non_hispanic"]).
  assert (CStr "white_alone_mean" ∉ L) as HL.
  { apply (bool_decide_unpack _). vm_compute. exact I. }
  split.
  { rewrite drop_columns_columns. simpl. rewrite filter_app.
    f_equal; by rewrite filter_cons_True. }
  split; [done|]. unfold drop_columns, take_positions. simpl.
  rewrite (kept_positions_snoc L (columns f) _ HL).
  split; [rewrite length_fmap, length_zip_with; lia|].
  exists pa, pb. do 2 (split; [done|]). intros i row Hrow Hwidth.
  destruct (Htot i (cell_at pa row, cell_at pb row)) as (t & Hti & Hadd).
  { apply lookup_zip_with_Some. exists (cell_at pa row), (cell_at pb row).
    split; [done|]. split; by apply column_at_lookup. }
  destruct (Hhalf i t Hti) as (m & Hmi & Hhalve). simpl in Hadd.
  eexists _, m. split; [|split; [|split; [|split]]].
  - rewrite list_lookup_fmap, lookup_zip_with, Hrow. simpl. rewrite Hmi. reflexivity.
  - unfold pick. rewrite fmap_app.
    change ((λ p, cell_at p (row ++ [m])) <$> [length (columns f)])
      with [cell_at (length (columns f)) (row ++ [m])].
    rewrite last_snoc. f_equal.
    unfold cell_at. rewrite lookup_app_r by lia.
    by rewrite <-Hwidth, Nat.sub_diag.
  - by rewrite Hadd.
  - intros x y Hx Hy. rewrite Hx, Hy in Hadd. simpl in Hadd. injection Hadd as <-.
    simpl in Hhalve. by injection Hhalve as <-.
  - intros Hnan.
    destruct (cell_at pa row) as [sa|qa|], (cell_at pb row) as [sb|qb|];
      simplify_eq/=; by destruct Hnan.
Qed.

Lemma white_alone_mean_step_spec_witness :
  ∃ f', white_alone_mean_step census_white = Ok f' ∧
        columns f' = [CStr "state"; CStr "asian_alone"; CStr "white_alone_mean"].
Proof.
  eexists. split; [vm_compute; reflexivity|].
  refine (eq_trans (proj1 (white_alone_mean_step_spec census_white _ _ _)) _).
  - vm_compute. reflexivity.
  - apply (bool_decide_unpack _). vm_compute. exact I.
  - vm_compute. reflexivity.
Defined.

(** ** Orientation of the Census table *)

Lemma boolean_mask_false_true {A} a b (xs : list A) :
  (length xs ≤ a + b)%nat →
  boolean_mask (replicate a false ++ replicate b true) xs = drop a xs.
Proof.
  revert xs. induction a as [|a IH]; intros xs Hlen.
  - simpl. rewrite drop_0. by apply boolean_mask_true.
  - destruct xs as [|x xs]; [by rewrite boolean_mask_nil|].
    change (replicate (S a) false ++ replicate b true)
      with (false :: (replicate a false ++ replicate b true)).
    rewrite boolean_mask_cons. simpl. apply IH. simpl in Hlen. lia.
Qed.

Lemma mask_not_in_prefix (A B : list cell) :
  NoDup (A ++ B) →
  (λ x, bool_decide (x ∉ A)) <$> (A ++ B)
  = replicate (length A) false ++ replicate (length B) true.
Proof.
  intros (_ & Hdisj & _)%NoDup_app. rewrite fmap_app. f_equal.
  - apply const_fmap. intros i x Hx. apply bool_decide_eq_false_2.
    intros Hn. apply Hn. by eapply list_elem_of_lookup_2.
  - apply const_fmap. intros i x Hx. apply bool_decide_eq_true_2.
    intros Hin. apply (Hdisj x Hin). by eapply list_elem_of_lookup_2.
Qed.

Lemma drop_rows_first k f :
  NoDup (index f) → (length (data f) ≤ length (index f))%nat →
  drop_rows (take k (index f)) f
  = Frame (columns f) (drop k (index f)) (drop k (data f)).
Proof.
  intros Hnd Hlen. unfold drop_rows.
  set (A := take k (index f)). set (B := drop k (index f)).
  assert (index f = A ++ B) as Heq by (unfold A, B; by rewrite take_drop).
  assert ((λ l, bool_decide (l ∉ A)) <$> index f
          = replicate (length A) false ++ replicate (length B) true) as ->.
  { rewrite Heq. apply mask_not_in_prefix. by rewrite <-Heq. }
  assert (length A + length B = length (index f))%nat as Hsum.
  { by rewrite Heq, length_app. }
  rewrite !boolean_mask_false_true by lia.
  unfold A, B. rewrite length_take. f_equal.
  - destruct (decide (k ≤ length (index f))%nat); [by rewrite Nat.min_l|].
    rewrite Nat.min_r by lia. rewrite !drop_ge; [done|lia..].
  - destruct (decide (k ≤ length (index f))%nat); [by rewrite Nat.min_l|].
    rewrite Nat.min_r by lia. rewrite !drop_ge; [done|lia..].
Qed.

Lemma drop_as_positions k (l : list cell) :
  drop k l = (λ j, cell_at j l) <$> seq k (length l - k).
Proof.
  apply list_eq. intros i. rewrite lookup_drop, list_lookup_fmap.
  destruct (decide (i < length l - k)%nat) as [Hi|Hi].
  - rewrite lookup_seq_lt by done. simpl. unfold cell_at.
    destruct (lookup_lt_is_Some_2 l (k + i)) as [x ->]; [lia|done].
  - rewrite lookup_seq_ge by lia. simpl. apply lookup_ge_None_2. lia.
Qed.

(** X16.  Lines 214-259 on a Census file as [read_csv] returns it (distinct
    labels, one index label per record, at least one column) none of whose
    facts is called [index]: the result has one row per column of the file
    from the third on (the first two, the fact and its note, are dropped), in
    the order of the file; a row starts with the label of its column, under
    the header [State], followed by the cells of that column; the other
    headers are the cells of the first column of the file. *)
Theorem orient_census_spec f :
  NoDup (columns f) → length (index f) = length (data f) → columns f ≠ [] →
  CStr "index" ∉ column_at 0 f →
  orient_census f
  = Ok (Frame (CStr "State" :: column_at 0 f)
          (range_index (length (columns f) - 2))
          ((λ j, cell_at j (columns f) :: column_at j f)
             <$> seq 2 (length (columns f) - 2))).
Proof.
  intros Hnd Hlen Hne Hidx. unfold orient_census.
  assert (promote_header (transpose f)
          = Ok (Frame (column_at 0 f) (columns f) (data (transpose f)))) as ->.
  { unfold promote_header, transpose. simpl.
    destruct (columns f) as [|c cs]; [done|]. simpl.
    rewrite decide_True; [done|]. by rewrite length_fmap. }
  change ((f0 ← reset_index
                  (drop_first_two (Frame (column_at 0 f) (columns f) (data (transpose f))));
           Ok (rename_columns "index" "State" f0))
          = Ok (Frame (CStr "State" :: column_at 0 f)
                  (range_index (length (columns f) - 2))
                  ((λ j, cell_at j (columns f) :: column_at j f)
                     <$> seq 2 (length (columns f) - 2)))).
  unfold drop_first_two.
  rewrite (drop_rows_first 2 (Frame (column_at 0 f) (columns f) (data (transpose f))));
    [|done|simpl; by rewrite length_fmap, length_seq].
  unfold reset_index. simpl.
  rewrite (decide_False (P := CStr "index" ∈ column_at 0 f)) by done.
  rewrite (decide_False (P := CStr "index" ∈ column_at 0 f)) by done.
  simpl. unfold rename_columns. simpl. do 2 f_equal.
  - rewrite <-(list_fmap_id (column_at 0 f)) at 2. f_equal.
    apply list_fmap_ext. intros i x Hx. rewrite decide_False; [done|].
    intros ->. apply Hidx. by eapply list_elem_of_lookup_2.
  - by rewrite length_drop.
  - rewrite <-fmap_drop, drop_seq, (drop_as_positions 2 (columns f)).
    rewrite zip_with_fmap_l, zip_with_fmap_r, zip_with_diag. done.
Qed.

Lemma orient_census_spec_witness :
  columns <$> orient_census census_raw
  = Ok [CStr "State"; CStr "Population estimates"; CNaN;
        CStr "Persons in poverty, percent"; CNaN; CNaN].
Proof.
  rewrite (orient_census_spec census_raw).
  - reflexivity.
  - apply (bool_decide_unpack _). vm_compute. exact I.
  - reflexivity.
  - discriminate.
  - apply (bool_decide_unpack _). vm_compute. exact I.
Defined.

(** X17.  Transposing twice gives the table back, when the table is
    rectangular: one index label per row and one cell per column in every
    row. *)
Theorem transpose_involutive f :
  length (index f) = length (data f) →
  Forall (λ row, length row = length (columns f)) (data f) →
  transpose (transpose f) = f.
Proof.
  destruct f as [cols idx rows]. unfold transpose. simpl. intros Hlen Hrect.
  f_equal. apply list_eq. intros i. rewrite list_lookup_fmap.
  destruct (rows !! i) as [row|] eqn:Hrow.
  - rewrite lookup_seq_lt by (rewrite Hlen; by eapply lookup_lt_Some).
    simpl. f_equal. rewrite <-list_fmap_compose.
    rewrite Forall_forall in Hrect.
    pose proof (Hrect row (list_elem_of_lookup_2 _ _ _ Hrow)) as Hw.
    apply list_eq. intros j. rewrite list_lookup_fmap.
    destruct (decide (j < length cols)%nat) as [Hj|Hj].
    + rewrite lookup_seq_lt by done. simpl. unfold cell_at at 1.
      rewrite list_lookup_fmap, Hrow. simpl. unfold cell_at.
      destruct (lookup_lt_is_Some_2 row j) as [x ->]; [lia|done].
    + rewrite lookup_seq_ge by lia. simpl. symmetry. apply lookup_ge_None_2. lia.
  - apply lookup_ge_None in Hrow. rewrite lookup_seq_ge by lia. done.
Qed.

Lemma transpose_involutive_witness : transpose (transpose census_raw) = census_raw.
Proof.
  apply (transpose_involutive census_raw).
  - reflexivity.
  - apply (bool_decide_unpack _). vm_compute. exact I.
Defined.

(** ** The background-check table, from the file to the cleaned table *)

Lemma kept_positions_keep (labels : list cell) k xs :
  Forall (λ c, c ∉ labels) xs →
  fst <$> filter (λ pc : nat * cell, pc.2 ∉ labels) (zip (seq k (length xs)) xs)
  = seq k (length xs).
Proof.
  intros HF. rewrite filter_all.
  - apply fst_zip. by rewrite length_seq.
  - apply Forall_forall. intros [i c] Hin. simpl.
    rewrite Forall_forall in HF. apply HF. by apply elem_of_zip_r in Hin.
Qed.

Lemma kept_positions_drop (labels : list cell) k xs :
  Forall (λ c, c ∈ labels) xs →
  fst <$> filter (λ pc : nat * cell, pc.2 ∉ labels) (zip (seq k (length xs)) xs) = [].
Proof.
  intros HF. rewrite filter_none; [done|].
  apply Forall_forall. intros [i c] Hin Hn. simpl in Hn. apply Hn.
  rewrite Forall_forall in HF. apply HF. by apply elem_of_zip_r in Hin.
Qed.

Lemma kept_positions_middle (a m b : list cell) :
  NoDup (a ++ m ++ b) →
  fst <$> filter (λ pc : nat * cell, pc.2 ∉ m)
            (zip (seq 0 (length (a ++ m ++ b))) (a ++ m ++ b))
  = seq 0 (length a) ++ seq (length a + length m) (length b).
Proof.
  intros (Ha & Hda & (Hm & Hdm & Hb)%NoDup_app)%NoDup_app.
  rewrite !length_app, !seq_app. simpl.
  rewrite zip_with_app by (by rewrite length_seq).
  rewrite zip_with_app by (by rewrite length_seq).
  rewrite !filter_app, !fmap_app.
  rewrite kept_positions_keep, kept_positions_drop, kept_positions_keep; [done|..].
  - apply Forall_forall. intros x Hx Hxm. by apply (Hdm x).
  - by apply Forall_forall.
  - apply Forall_forall. intros x Hx Hxm. apply (Hda x Hx), elem_of_app. by left.
Qed.

Lemma drop_transactions_rows f mid :
  columns f = [CStr "month"; CStr "state"] ++ mid ++ [CStr "totals"] →
  length mid = 24%nat → NoDup (columns f) →
  drop_transactions f
  = Frame [CStr "month"; CStr "state"; CStr "totals"] (index f)
      ((λ row, [cell_at 0 row; cell_at 1 row; cell_at 26 row]) <$> data f).
Proof.
  intros Hc Hlen Hnd. unfold drop_transactions, drop_columns.
  assert (take 24 (drop 2 (columns f)) = mid) as ->.
  { rewrite Hc.
    change (drop 2 ([CStr "month"; CStr "state"] ++ mid ++ [CStr "totals"]))
      with (mid ++ [CStr "totals"]).
    by rewrite take_app_length'. }
  unfold take_positions.
  rewrite Hc in Hnd. rewrite Hc, (kept_positions_middle _ _ _ Hnd), Hlen.
  f_equal. simpl. do 2 f_equal.
  unfold cell_at. simpl. rewrite lookup_app_r by lia. by rewrite Hlen.
Qed.

Lemma datetime_fields_agree c :
  (∃ y m, datetime_field fst c = Ok y ∧ datetime_field snd c = Ok m) ∨
  (∃ e, datetime_field fst c = Err e ∧ datetime_field snd c = Err e).
Proof.
  destruct c as [s|q|]; simpl; [destruct (parse_month s)|..]; eauto.
Qed.

Lemma traverse_two_columns (rows : list (list cell)) :
  traverse (λ row, y ← datetime_field fst (cell_at 0 row);
                   m ← datetime_field snd (cell_at 0 row); Ok (row ++ [y; m])) rows
  = (ys ← traverse (datetime_field fst) (cell_at 0 <$> rows);
     ms ← traverse (datetime_field snd) (cell_at 0 <$> rows);
     Ok (zip_with (λ (r : list cell) v, r ++ [v])
           (zip_with (λ (r : list cell) v, r ++ [v]) rows ys) ms)).
Proof.
  induction rows as [|row rows IH]; [done|].
  rewrite fmap_cons. simpl traverse. rewrite IH. clear IH.
  destruct (datetime_fields_agree (cell_at 0 row)) as [(y & m & -> & ->)|(e & -> & ->)];
    [|done]. simpl.
  destruct (traverse (datetime_field fst) _) as [ys|e1]; [|done]. simpl.
  destruct (traverse (datetime_field snd) _) as [ms|e2]; [|done]. simpl.
  by rewrite <-app_assoc.
Qed.

Lemma column_0_snoc (rows : list (list cell)) (vs : list cell) :
  Forall (λ r, r ≠ []) rows → length vs = length rows →
  cell_at 0 <$> zip_with (λ (r : list cell) v, r ++ [v]) rows vs = cell_at 0 <$> rows.
Proof.
  intros Hne. revert vs.
  induction Hne as [|r rows Hr Hne IH]; intros [|v vs] Hlen; simplify_eq/=; [done|].
  rewrite IH by done. f_equal. by destruct r.
Qed.

Lemma add_year_month_gun idx (rows : list (list cell)) :
  Forall (λ r, r ≠ []) rows →
  add_year_month (Frame [CStr "month"; CStr "state"; CStr "totals"] idx rows)
  = (rows' ← traverse (λ row, y ← datetime_field fst (cell_at 0 row);
                              m ← datetime_field snd (cell_at 0 row);
                              Ok (row ++ [y; m])) rows;
     Ok (Frame [CStr "month"; CStr "state"; CStr "totals"; CStr "year"; CStr "month_no"]
           idx rows')).
Proof.
  intros Hne. rewrite traverse_two_columns. unfold add_year_month.
  change (get_column "month" (Frame [CStr "month"; CStr "state"; CStr "totals"] idx rows))
    with (Ok (cell_at 0 <$> rows)).
  simpl. destruct (traverse (datetime_field fst) _) as [ys|e] eqn:Hys; [|done]. simpl.
  apply traverse_lookup in Hys as [Hlen _]. rewrite length_fmap in Hlen.
  change (set_column "year" ys
            (Frame [CStr "month"; CStr "state"; CStr "totals"] idx rows))
    with (Frame [CStr "month"; CStr "state"; CStr "totals"; CStr "year"] idx
            (zip_with (λ (r : list cell) v, r ++ [v]) rows ys)).
  unfold column_at. cbn [data]. rewrite (column_0_snoc _ _ Hne Hlen).
  by destruct (traverse (datetime_field snd) _) as [ms|e].
Qed.

Lemma move_last_gun idx (rows : list (list cell)) :
  move_last "year" "state" "totals"
    (Frame [CStr "month"; CStr "state"; CStr "totals"; CStr "year"; CStr "month_no"]
       idx rows)
  = Ok (Frame [CStr "month"; CStr "month_no"; CStr "year"; CStr "state"; CStr "totals"]
          idx (pick [0; 4; 3; 1; 2]%nat <$> rows)).
Proof. reflexivity. Qed.

Lemma drop_month_gun idx (rows : list (list cell)) :
  drop_month
    (Frame [CStr "month"; CStr "month_no"; CStr "year"; CStr "state"; CStr "totals"]
       idx rows)
  = Ok (Frame [CStr "month_no"; CStr "year"; CStr "state"; CStr "totals"]
          idx (pick [1; 2; 3; 4]%nat <$> rows)).
Proof. reflexivity. Qed.

Lemma bind_Ok {A B} (a : A) (k : A → result B) : Ok a ≫= k = k a.
Proof. reflexivity. Qed.

Lemma traverse_cleaned_gun_row (l : list (list cell)) :
  traverse cleaned_gun_row l
  = fmap (M := list) (λ r, pick [1; 2; 3; 4]%nat (pick [0; 4; 3; 1; 2]%nat r)) <$>
    traverse (λ row, y ← datetime_field fst (cell_at 0 row);
                     m ← datetime_field snd (cell_at 0 row); Ok (row ++ [y; m]))
      ((λ row, [cell_at 0 row; cell_at 1 row; cell_at 26 row]) <$> l).
Proof.
  induction l as [|row l IH]; [done|].
  rewrite fmap_cons. simpl traverse. rewrite IH. clear IH. unfold cleaned_gun_row.
  change (cell_at 0 [cell_at 0 row; cell_at 1 row; cell_at 26 row]) with (cell_at 0 row).
  destruct (datetime_field fst (cell_at 0 row)) as [y|e]; [|done]. simpl.
  destruct (datetime_field snd (cell_at 0 row)) as [m|e]; [|done]. simpl.
  by destruct (traverse _ _).
Qed.

(** X18.  The cleaning of the background-check file (lines 144-202), for a
    file with the 27 columns of the source: [month], [state], 24 transaction
    columns, [totals], all distinct, and one index label per record.  When
    every month is written as in the source file ([YYYY-MM], with a year
    from 1678 to 2261) or is [NaN], the cleaning succeeds: the cleaned table
    has the columns [month_no], [year], [state], [totals] and holds, in the
    order of the file, the records that are not of a territory, each as
    month number, year, state and totals. *)
Theorem clean_gun_rows f mid rows :
  columns f = [CStr "month"; CStr "state"] ++ mid ++ [CStr "totals"] →
  length mid = 24%nat → NoDup (columns f) →
  NoDup (index f) → length (index f) = length (data f) →
  traverse cleaned_gun_row (data f) = Ok rows →
  length rows = length (data f) ∧
  (∀ i row, data f !! i = Some row →
     ∃ y m, datetime_field fst (cell_at 0 row) = Ok y ∧
            datetime_field snd (cell_at 0 row) = Ok m ∧
            rows !! i = Some [m; y; cell_at 1 row; cell_at 26 row]) ∧
  ∃ f', clean_gun f = Ok f' ∧
        columns f' = [CStr "month_no"; CStr "year"; CStr "state"; CStr "totals"] ∧
        data f' = filter (λ row, cell_at 2 row ∉ territories) rows.
Proof.
  intros Hc Hmid Hnd Hidx Hlen Hrows.
  pose proof (traverse_lookup _ _ _ Hrows) as [Hlr Hlook].
  split; [done|]. split.
  { intros i row Hrow. destruct (Hlook i row Hrow) as (r & Hr & Hg).
    unfold cleaned_gun_row in Hg.
    destruct (datetime_field fst (cell_at 0 row)) as [y|]; [|done]. simpl in Hg.
    destruct (datetime_field snd (cell_at 0 row)) as [m|]; [|done]. simpl in Hg.
    injection Hg as <-. by exists y, m. }
  revert rows Hrows Hlr Hlook. 
  cut (∀ rows, traverse cleaned_gun_row (data f) = Ok rows →
     ∃ f', clean_gun f = Ok f' ∧
           columns f' = [CStr "month_no"; CStr "year"; CStr "state"; CStr "totals"] ∧
           data f' = filter (λ row, cell_at 2 row ∉ territories) rows);
    [by intros H rows Hrows _ _; apply H|].
  cut ((∀ rows, traverse cleaned_gun_row (data f) = Ok rows →
     ∃ f', clean_gun f = Ok f' ∧
           columns f' = [CStr "month_no"; CStr "year"; CStr "state"; CStr "totals"] ∧
           data f' = filter (λ row, cell_at 2 row ∉ territories) rows) ∧
    (∀ e, traverse cleaned_gun_row (data f) = Err e → clean_gun f = Err e));
    [by intros [H _]|].
  unfold clean_gun.
  rewrite (drop_transactions_rows f mid Hc Hmid Hnd), add_year_month_gun;
    [|apply Forall_fmap, Forall_forall; by intros].
  rewrite traverse_cleaned_gun_row.
  destruct (traverse _ _) as [rows'|e'] eqn:Ht.
  - split; [|done]. intros rows [= <-].
    rewrite !bind_Ok, move_last_gun, !bind_Ok, drop_month_gun, !bind_Ok.
    apply traverse_lookup in Ht as [Hl _]. rewrite length_fmap in Hl.
    set (g := Frame [CStr "month_no"; CStr "year"; CStr "state"; CStr "totals"]
                (index f) _).
    assert (column_position "state" g = Some 2%nat) as Hp by reflexivity.
    destruct (territory_filter g) as [f'|e] eqn:Hf;
      [|unfold territory_filter in Hf; by rewrite Hp in Hf].
    exists f'. split; [done|]. split.
    + by rewrite (territory_filter_columns g f' 2 Hp Hf).
    + rewrite (territory_filter_data g f' 2 Hp Hf); [|done|].
      * unfold g. simpl. by rewrite <-list_fmap_compose.
      * unfold g. simpl. rewrite !length_fmap. lia.
  - split; [done|]. by intros e [= <-].
Qed.

Lemma clean_gun_rows_witness :
  ∃ f', clean_gun gun_raw = Ok f' ∧
        columns f' = [CStr "month_no"; CStr "year"; CStr "state"; CStr "totals"] ∧
        plain_row <$> data f'
        = [[PNum 9%Q; PNum 2017%Q; PStr "Ohio"; PNum 7%Q];
           [PNum 9%Q; PNum 2017%Q; PStr "Ohio"; PNum 7%Q];
           [PNum 8%Q; PNum 2017%Q; PStr "Utah"; PNum 5%Q]].
Proof.
  assert (columns gun_raw
          = [CStr "month"; CStr "state"]
            ++ (CStr <$> ((λ i : nat, "t" +:+ pretty i) <$> seq 1 24))
            ++ [CStr "totals"]) as Hc by (vm_compute; reflexivity).
  assert (NoDup (columns gun_raw)) as Hnd
    by (apply (bool_decide_unpack _); vm_compute; exact I).
  assert (NoDup (index gun_raw)) as Hidx
    by (apply (bool_decide_unpack _); vm_compute; exact I).
  destruct (clean_gun_rows gun_raw _ _ Hc eq_refl Hnd Hidx eq_refl eq_refl)
    as (_ & _ & f' & Hf & Hcols & Hdata).
  exists f'. split; [exact Hf|]. split; [exact Hcols|].
  rewrite Hdata. vm_compute. reflexivity.
Defined.

(** ** The poverty series when the two tables list the same states *)

(** X19.  When the Census table lists exactly the states of the
    background-check table, once each and in ascending order, the series of
    line 530 has one entry per Census row and holds, at the position of a
    state, the poverty rate of that state times the mean of its own totals;
    the series of line 531 holds the poverty rate times 100. *)
Theorem state_checks_mean_by_state gun census :
  c_state <$> census = (state_checks gun).*1 →
  length (state_checks_mean gun census) = length census ∧
  ∀ i c, census !! i = Some c →
    state_checks_mean gun census !! i
    = Some (p ← persons_in_poverty c;
            t ← mean_int64 (totals <$> filter (λ r, state r = c_state c) gun);
            Some (p * t)%Qc) ∧
    percent_poverty census !! i
    = Some (p ← persons_in_poverty c; Some (p * Qc_of_Z 100)%Qc).
Proof.
  intros Heq. destruct (poverty_series_aligned gun census Heq) as (Hs & _ & _).
  assert (length (state_checks gun) = length census) as Hlen.
  { apply (f_equal length) in Heq. by rewrite !length_fmap in Heq. }
  assert (merged gun census
          = zip_with (λ l c, MergedRow l.2 c) (state_checks gun) census) as Hm.
  { apply merge_inner_aligned; [|done]. unfold state_checks.
    rewrite fst_groupby. apply NoDup_group_keys. }
  rewrite Hs. unfold poverty_pairs_spec. rewrite <-list_fmap_compose, Hm. split.
  { rewrite length_fmap, length_zip_with. lia. }
  intros i c Hc. split.
  - rewrite list_lookup_fmap, lookup_zip_with.
    destruct (state_checks gun !! i) as [[s v]|] eqn:Hl.
    + simpl. rewrite Hc. simpl. do 3 f_equal.
      assert (s = c_state c) as ->.
      { apply (f_equal (λ k, k !! i)) in Heq.
        rewrite !list_lookup_fmap, Hl, Hc in Heq. by injection Heq. }
      apply list_elem_of_lookup_2 in Hl. by apply elem_of_state_checks in Hl as [_ ->].
    + apply lookup_ge_None in Hl. apply lookup_lt_Some in Hc. lia.
  - unfold percent_poverty. by rewrite <-list_fmap_compose, list_lookup_fmap, Hc.
Qed.

Lemma state_checks_mean_by_state_witness :
  length (state_checks_mean gun_by_state census_by_state) = 50%nat ∧
  c_state <$> census_by_state !! 1%nat = Some "Alaska" ∧
  float_value <$> state_checks_mean gun_by_state census_by_state !! 1%nat
  = Some (Some (4 # 5)%Q) ∧
  float_value <$> percent_poverty census_by_state !! 1%nat = Some (Some 2%Q) ∧
  c_state <$> census_by_state !! 49%nat = Some "Wyoming" ∧
  float_value <$> state_checks_mean gun_by_state census_by_state !! 49%nat
  = Some (Some 500%Q).
Proof.
  assert (c_state <$> census_by_state = (state_checks gun_by_state).*1) as Heq
    by (vm_compute; reflexivity).
  destruct (state_checks_mean_by_state gun_by_state census_by_state Heq)
    as [Hlen Hrows].
  split; [exact Hlen|]. split; [reflexivity|].
  destruct (Hrows 1%nat (uniform_row "Alaska" (Qc_frac 2 100)) eq_refl) as [-> ->].
  destruct (Hrows 49%nat (uniform_row "Wyoming" (Qc_frac 50 100)) eq_refl) as [-> _].
  repeat split; vm_compute; reflexivity.
Defined.

(** ** Percent signs outside the converted rows *)

Lemma digits_None s a :
  a ∈ chars s → Ascii.is_nat a = None → digits s = None.
Proof.
  induction s as [|b s IH]; [by intros ?%elem_of_nil|].
  unfold chars in *. simpl. intros [->|Ha]%elem_of_cons Hn.
  - by rewrite Hn.
  - rewrite (IH Ha Hn). by destruct (Ascii.is_nat b).
Qed.

Lemma chars_lstrip_keep s a :
  a ∈ chars s → Ascii.is_space a = false → a ∈ chars (lstrip_c s).
Proof.
  induction s as [|b s IH]; [done|]. simpl.
  destruct (Ascii.is_space b) eqn:Hb; [|done].
  unfold chars in *. simpl. intros [->|Ha]%elem_of_cons Hn; [congruence|by apply IH].
Qed.

Lemma chars_strip_keep s a :
  a ∈ chars s → Ascii.is_space a = false → a ∈ chars (strip_c s).
Proof.
  intros Ha Hn. unfold strip_c, String.rev.
  rewrite chars_rev_app, app_nil_r, elem_of_reverse.
  apply chars_lstrip_keep; [|done].
  rewrite chars_rev_app, app_nil_r, elem_of_reverse. by apply chars_lstrip_keep.
Qed.

Lemma chars_remove_char_keep c s a :
  a ∈ chars s → a ≠ c → a ∈ chars (remove_char c s).
Proof.
  induction s as [|b s IH]; [done|]. unfold chars in *. simpl.
  intros [->|Ha]%elem_of_cons Hne.
  - rewrite decide_False by done. by left.
  - destruct (decide (b = c)); [by apply IH|]. right. by apply IH.
Qed.

Lemma chars_split_first_keep c s a :
  a ∈ chars s → a ≠ c →
  a ∈ chars (split_first c s).1 ∨
  ∃ t, (split_first c s).2 = Some t ∧ a ∈ chars t.
Proof.
  induction s as [|b s IH]; [by intros ?%elem_of_nil|].
  unfold chars in *. simpl. intros [->|Ha]%elem_of_cons Hne.
  - rewrite decide_False by done.
    destruct (split_first c s) as [h t]. simpl. left. by left.
  - destruct (decide (b = c)) as [->|Hb]; simpl; [right; by eexists|].
    destruct (IH Ha Hne) as [Hh|(t & Ht & Hin)];
      destruct (split_first c s) as [h t']; simpl in *.
    + left. by right.
    + right. by exists t.
Qed.

(** Text that holds a character which is no digit, sign, point or white
    space is read neither by [parse_float] nor by [parse_int]. *)
Section unreadable.
Context (a : Ascii.ascii).
Hypothesis Hdigit : Ascii.is_nat a = None.
Hypothesis Hpoint : a ≠ "."%char.
Hypothesis Hminus : a ≠ "-"%char.
Hypothesis Hplus : a ≠ "+"%char.
Hypothesis Hspace : Ascii.is_space a = false.

Lemma parse_unsigned_None r : a ∈ chars r → parse_unsigned r = None.
Proof using Hdigit Hpoint.
  intros Hin. unfold parse_unsigned.
  destruct (chars_split_first_keep "."%char r a Hin Hpoint)
    as [Hh|(t & Ht & Ht')]; destruct (split_first "." r) as [ip fp]; simpl in *.
  - by rewrite (digits_None ip a Hh Hdigit).
  - subst fp. simpl. rewrite (digits_None t a Ht' Hdigit).
    by destruct (digits ip).
Qed.

Lemma signed_body s :
  a ∈ chars s →
  ∃ r, a ∈ chars r ∧
       (parse_float s = parse_unsigned r ∨ parse_float s = Qcopp <$> parse_unsigned r) ∧
       ∀ body : string → option Z,
         match strip_c s with
         | String "-"%char r' => Z.opp <$> body r'
         | String "+"%char r' => body r'
         | r' => body r'
         end = body r ∨
         match strip_c s with
         | String "-"%char r' => Z.opp <$> body r'
         | String "+"%char r' => body r'
         | r' => body r'
         end = Z.opp <$> body r.
Proof using Hminus Hplus Hspace.
  intros Hin. apply (chars_strip_keep s) in Hin; [|done]. unfold parse_float.
  destruct (strip_c s) as [|b r]; [by apply elem_of_nil in Hin|].
  destruct (decide (b = "-"%char)) as [->|Hm].
  { exists r. split; [|by eauto].
    unfold chars in Hin. simpl in Hin. by apply elem_of_cons in Hin as [?|?]. }
  destruct (decide (b = "+"%char)) as [->|Hp].
  { exists r. split; [|by eauto].
    unfold chars in Hin. simpl in Hin. by apply elem_of_cons in Hin as [?|?]. }
  exists (String b r). split; [done|].
  destruct b as [[] [] [] [] [] [] [] []]; try done; eauto.
Qed.

Lemma parse_float_unreadable s : a ∈ chars s → parse_float s = None.
Proof using All.
  intros (r & Hr & [->| ->] & _)%signed_body; by rewrite (parse_unsigned_None r Hr).
Qed.

Lemma parse_int_unreadable s : a ∈ chars s → parse_int s = None.
Proof using All.
  intros (r & Hr & _ & Hb)%signed_body. unfold parse_int.
  destruct (Hb (λ r, ds ← digits r;
                     if decide (ds = []) then None else Some (decimal_value ds)))
    as [-> | ->]; by rewrite (digits_None r a Hr Hdigit).
Qed.
End unreadable.

Lemma parse_float_percent s : "%"%char ∈ chars s → parse_float s = None.
Proof. by apply parse_float_unreadable. Qed.

Lemma parse_int_percent s : "%"%char ∈ chars s → parse_int s = None.
Proof. by apply parse_int_unreadable. Qed.

Lemma percent_conversion_other_row f f' i row :
  percent_conversion f = Ok f' → data f !! i = Some row → i ∉ percent_rows →
  columns f' = columns f ∧ data f' !! i = Some row.
Proof.
  unfold percent_conversion. case_decide as HF; [|done].
  destruct (traverse _ _) as [rows|e] eqn:Ht; [|done]. intros [= <-] Hrow Hi.
  split; [done|]. simpl. apply traverse_lookup in Ht as [_ Hrows].
  destruct (Hrows i (i, row)) as (row' & Hrow' & Hg).
  { apply lookup_zip_seq. split; [done|]. split; [|done]. by eapply lookup_lt_Some. }
  simpl in Hg. rewrite decide_False in Hg by done. by injection Hg as <-.
Qed.

Lemma convert_population_row f f' i row :
  convert_population f = Ok f' → data f !! i = Some row →
  columns f' = columns f ∧
  ∃ p c, data f' !! i = Some (<[p := c]> row) ∧
         astype_int (remove_commas (cell_at p row)) = Ok c.
Proof.
  unfold convert_population.
  destruct (column_position _ f) as [p|] eqn:Hp; [|done].
  destruct (traverse _ _) as [values|e] eqn:Ht; [|done]. simpl. intros [= <-] Hrow.
  unfold set_column. rewrite Hp. simpl. split; [done|].
  apply traverse_lookup in Ht as [_ Hvals].
  destruct (Hvals i _ (column_at_lookup p f i row Hrow)) as (y & Hy & Hg).
  exists p, y. split; [|done]. by rewrite lookup_zip_with, Hrow, Hy.
Qed.

(** X21.  Line 371 converts the rows [np.r_[0:30, 42:50]] only.  A text
    cell with a percent sign in any other row (and not in the [state]
    column) is therefore still text when line 406 coerces the table, and
    whenever the three steps succeed it ends as [NaN]: the value is lost
    without an error. *)
Theorem percent_outside_block_becomes_nan f f1 f2 f3 i row j s l :
  percent_conversion f = Ok f1 → convert_population f1 = Ok f2 →
  coerce_numeric f2 = Ok f3 →
  data f !! i = Some row → i ∉ percent_rows →
  row !! j = Some (CStr s) → "%"%char ∈ chars s →
  columns f !! j = Some l → l ≠ CStr "state" →
  ∃ row3, data f3 !! i = Some row3 ∧ row3 !! j = Some CNaN.
Proof.
  intros H1 H2 H3 Hrow Hi Hc Hs Hl Hne.
  destruct (percent_conversion_other_row _ _ _ _ H1 Hrow Hi) as [Hc1 Hr1].
  destruct (convert_population_row _ _ _ _ H2 Hr1) as (Hc2 & p & c & Hr2 & Hint).
  assert (j ≠ p) as Hjp.
  { intros ->. unfold cell_at in Hint. rewrite Hc in Hint. simpl in Hint.
    rewrite parse_int_percent in Hint; [done|].
    by apply chars_remove_char_keep. }
  unfold coerce_numeric in H3. case_decide; [|done]. injection H3 as <-. simpl.
  eexists. split; [by rewrite list_lookup_fmap, Hr2|].
  rewrite lookup_zip_with, Hc2, Hc1, Hl. simpl.
  rewrite list_lookup_insert_ne by done. rewrite Hc. simpl.
  rewrite decide_False by done. simpl. by rewrite parse_float_percent.
Qed.

Lemma percent_outside_block_becomes_nan_witness :
  ∃ f1 f2 f3,
    percent_conversion (census_fifty "13.00%" "0.10%") = Ok f1 ∧
    convert_population f1 = Ok f2 ∧ coerce_numeric f2 = Ok f3 ∧
    ∃ row3, data f3 !! 30%nat = Some row3 ∧ row3 !! 2%nat = Some CNaN.
Proof.
  eexists _, _, _.
  split; [vm_compute; reflexivity|]. split; [vm_compute; reflexivity|].
  split; [vm_compute; reflexivity|].
  refine (percent_outside_block_becomes_nan (census_fifty "13.00%" "0.10%")
            _ _ _ 30%nat _ 2%nat "82.50%" (CStr "white_alone")
            _ _ _ eq_refl _ eq_refl _ eq_refl _).
  - vm_compute. reflexivity.
  - vm_compute. reflexivity.
  - vm_compute. reflexivity.
  - apply (bool_decide_unpack _). vm_compute. exact I.
  - apply (bool_decide_unpack _). vm_compute. exact I.
  - discriminate.
Defined.

(** ** The header of the cleaned Census table *)

Lemma percent_conversion_frame f f' :
  percent_conversion f = Ok f' →
  columns f' = columns f ∧ index f' = index f ∧ length (data f') = length (data f).
Proof.
  unfold percent_conversion. case_decide as HF; [|done].
  destruct (traverse _ _) as [rows|e] eqn:Ht; [|done]. intros [= <-]. simpl.
  apply traverse_lookup in Ht as [Hlen _].
  rewrite length_zip_with, length_seq, Nat.min_id in Hlen. done.
Qed.

Lemma convert_population_frame f f' :
  convert_population f = Ok f' →
  columns f' = columns f ∧ index f' = index f ∧ length (data f') = length (data f).
Proof.
  unfold convert_population.
  destruct (column_position _ f) as [p|] eqn:Hp; [|done].
  destruct (traverse _ _) as [values|e] eqn:Ht; [|done]. simpl. intros [= <-].
  unfold set_column. rewrite Hp. simpl.
  apply traverse_lookup in Ht as [Hlen _].
  unfold column_at in Hlen. rewrite length_fmap in Hlen.
  do 2 (split; [done|]). rewrite length_zip_with. lia.
Qed.

Lemma coerce_numeric_frame f f' :
  coerce_numeric f = Ok f' →
  columns f' = columns f ∧ index f' = index f ∧ length (data f') = length (data f).
Proof.
  unfold coerce_numeric. case_decide; [|done]. intros [= <-]. simpl.
  by rewrite length_fmap.
Qed.

Lemma white_alone_mean_step_frame f f' :
  white_alone_mean_step f = Ok f' → CStr "white_alone_mean" ∉ columns f →
  columns f'
  = filter (λ c, c ∉ [CStr "white_alone"; CStr "white_alone_non_hispanic"]) (columns f)
    ++ [CStr "white_alone_mean"] ∧
  index f' = index f ∧ length (data f') = length (data f).
Proof.
  unfold white_alone_mean_step. intros Hf Hnew.
  destruct (get_column "white_alone" f) as [a|] eqn:Ha; [|done].
  destruct (get_column "white_alone_non_hispanic" f) as [b|] eqn:Hb; [|done].
  simpl in Hf.
  destruct (traverse _ (zip a b)) as [total|] eqn:Ht; [|done]. simpl in Hf.
  destruct (traverse halve_cell total) as [halves|] eqn:Hh; [|done]. simpl in Hf.
  injection Hf as <-.
  apply get_column_Ok in Ha as (pa & Hpa & ->).
  apply get_column_Ok in Hb as (pb & Hpb & ->).
  apply traverse_lookup in Ht as [Hlt _]. apply traverse_lookup in Hh as [Hlh _].
  rewrite length_zip_with in Hlt. unfold column_at in Hlt. rewrite !length_fmap in Hlt.
  unfold set_column. rewrite (column_position_missing _ _ Hnew).
  split.
  { rewrite drop_columns_columns. simpl. rewrite filter_app.
    f_equal; by rewrite filter_cons_True. }
  split; [done|]. unfold drop_columns, take_positions. simpl.
  rewrite length_fmap, length_zip_with. lia.
Qed.

Lemma move_last_frame n1 n2 n3 f f' c1 c2 c3 :
  NoDup (columns f) →
  pop_label n1 (columns f) = Ok c1 → pop_label n2 c1 = Ok c2 →
  pop_label n3 c2 = Ok c3 → move_last n1 n2 n3 f = Ok f' →
  columns f' = c3 ++ [CStr n1; CStr n2; CStr n3] ∧
  index f' = index f ∧ length (data f') = length (data f).
Proof.
  intros Hnd H1 H2 H3. unfold move_last. rewrite H1. simpl. rewrite H2. simpl.
  rewrite H3. simpl. intros (? & ? & ? & _)%(getitem_labels_spec _ _ _ Hnd). done.
Qed.

(** X22.  Lines 321-430 on the Census table with the thirteen selected and
    renamed columns: when the cleaning succeeds, the table has one row per
    input row, the same index, and exactly the twelve columns the analysis
    reads, in this order: state, population, the six ethnicity shares,
    [white_alone_mean], the two education shares and the poverty share. *)
Theorem clean_census_values_header f f' :
  columns f = CStr <$> census_header → clean_census_values f = Ok f' →
  columns f' = CStr <$> census_cleaned_header ∧
  index f' = index f ∧ length (data f') = length (data f).
Proof.
  intros Hc. unfold clean_census_values.
  destruct (get_column _ f) as [h|e]; simpl; [|done].
  destruct (percent_conversion _) as [f1|e] eqn:H1; simpl; [|done].
  destruct (convert_population f1) as [f2|e] eqn:H2; simpl; [|done].
  destruct (coerce_numeric f2) as [f3|e] eqn:H3; simpl; [|done].
  destruct (white_alone_mean_step f3) as [f4|e] eqn:H4; simpl; [|done].
  intros H5.
  apply percent_conversion_frame in H1 as (Hc1 & Hi1 & Hl1).
  apply convert_population_frame in H2 as (Hc2 & Hi2 & Hl2).
  apply coerce_numeric_frame in H3 as (Hc3 & Hi3 & Hl3).
  assert (columns f3 = CStr <$> census_header) as Hc3'.
  { rewrite Hc3, Hc2, Hc1. exact Hc. }
  apply white_alone_mean_step_frame in H4 as (Hc4 & Hi4 & Hl4);
    [|rewrite Hc3'; apply (bool_decide_unpack _); vm_compute; exact I].
  rewrite Hc3' in Hc4.
  eapply move_last_frame in H5 as (Hc5 & Hi5 & Hl5);
    [|rewrite Hc4; apply (bool_decide_unpack _); vm_compute; exact I
     |rewrite Hc4; reflexivity|reflexivity|reflexivity].
  split; [exact Hc5|]. split.
  - rewrite Hi5, Hi4, Hi3, Hi2, Hi1. done.
  - rewrite Hl5, Hl4, Hl3, Hl2, Hl1. unfold replace_Z, map_cells. simpl.
    by rewrite length_fmap.
Qed.

Lemma clean_census_values_header_witness :
  ∃ f', clean_census_values (census_fifty "13.00%" "Z") = Ok f' ∧
        columns f' = CStr <$> census_cleaned_header.
Proof.
  eexists. split; [vm_compute; reflexivity|].
  refine (proj1 (clean_census_values_header (census_fifty "13.00%" "Z") _ eq_refl _)).
  vm_compute. reflexivity.
Defined.

(** ** Coercion to numbers *)

Lemma to_numeric_idemp c : to_numeric (to_numeric c) = to_numeric c.
Proof. destruct c as [s| |]; simpl; [|done..]. by destruct (parse_float s). Qed.

Lemma digit_no_space a : is_Some (Ascii.is_nat a) → Ascii.is_space a = false.
Proof. destruct a as [[] [] [] [] [] [] [] []]; by intros [? [=]]. Qed.

Lemma digits_chars s a :
  is_Some (digits s) → a ∈ chars s → is_Some (Ascii.is_nat a).
Proof.
  induction s as [|b s IH]; [by intros _ ?%elem_of_nil|].
  unfold chars in *. simpl. intros [ds Hds] [->|Ha]%elem_of_cons.
  - destruct (Ascii.is_nat b); [by eexists|done].
  - apply IH; [|done]. destruct (Ascii.is_nat b); [|done]. simpl in Hds.
    destruct (digits s); [by eexists|done].
Qed.

Lemma digits_nonempty s ds : digits s = Some ds → s ≠ EmptyString → ds ≠ [].
Proof.
  destruct s as [|b s]; [done|]. simpl.
  destruct (Ascii.is_nat b); [|done]. simpl.
  destruct (digits s); [|done]. simpl. by intros [= <-].
Qed.

Lemma chars_split_first_all c s a :
  a ∈ chars s →
  a ∈ chars (split_first c s).1 ∨ a = c ∨
  ∃ t, (split_first c s).2 = Some t ∧ a ∈ chars t.
Proof.
  intros Ha. destruct (decide (a = c)) as [->|Hne]; [by right; left|].
  destruct (chars_split_first_keep c s a Ha Hne); eauto.
Qed.

Lemma unsigned_number_no_space r a :
  unsigned_number r → a ∈ chars r → Ascii.is_space a = false.
Proof.
  unfold unsigned_number. intros Hr Ha.
  destruct (chars_split_first_all "."%char r a Ha) as [Hh|[->|(t & Ht & Hin)]];
    destruct (split_first "." r) as [ip fp]; simpl in *; [| done |].
  - destruct Hr as (_ & Hd & _). by eapply digit_no_space, digits_chars.
  - subst fp. destruct Hr as (_ & _ & _ & Hd). by eapply digit_no_space, digits_chars.
Qed.

Lemma unsigned_number_parse r : unsigned_number r → is_Some (parse_unsigned r).
Proof.
  unfold unsigned_number, parse_unsigned.
  destruct (split_first "." r) as [ip fp]. intros (Hne & [i Hi] & Hfp).
  rewrite Hi. simpl.
  assert (i ≠ []) as Hi0 by (by eapply digits_nonempty).
  destruct fp as [t|]; simpl.
  - destruct Hfp as [_ [fl ->]]. simpl. rewrite decide_False; [by eexists|].
    by intros [? _].
  - rewrite decide_False; [by eexists|]. by intros [? _].
Qed.

Lemma unsigned_number_head r :
  unsigned_number r → ∃ d r', r = String d r' ∧ is_Some (Ascii.is_nat d).
Proof.
  unfold unsigned_number. destruct r as [|d r']; simpl.
  { by intros [? _]. }
  destruct (decide (d = "."%char)) as [->|Hd]; simpl; [by intros [? _]|].
  destruct (split_first "." r') as [h t]. intros (_ & [ds Hds] & _).
  exists d, r'. split; [done|]. simpl in Hds.
  destruct (Ascii.is_nat d); [by eexists|done].
Qed.

Lemma rev_app_rev_app s t u :
  String.rev_app (String.rev_app s t) u = String.rev_app t (s +:+ u).
Proof.
  revert t u. induction s as [|a s IH]; intros t u; [done|].
  change (String a s +:+ u) with (String a (s +:+ u)).
  simpl. by rewrite IH.
Qed.

Lemma string_app_nil_r s : s +:+ "" = s.
Proof.
  induction s as [|a s IH]; [done|].
  change (String a (s +:+ "") = String a s). by rewrite IH.
Qed.

Lemma lstrip_head s :
  (∀ a, a ∈ chars s → Ascii.is_space a = false) → lstrip_c s = s.
Proof.
  destruct s as [|a s]; [done|]. intros H. simpl.
  rewrite (H a); [done|]. unfold chars. simpl. by left.
Qed.

Lemma strip_no_space s :
  (∀ a, a ∈ chars s → Ascii.is_space a = false) → strip_c s = s.
Proof.
  intros H. unfold strip_c. rewrite (lstrip_head s H), lstrip_head.
  - unfold String.rev. by rewrite rev_app_rev_app, string_app_nil_r.
  - intros a. unfold String.rev.
    rewrite chars_rev_app, app_nil_r, elem_of_reverse. apply H.
Qed.

Lemma plain_number_cases s :
  plain_number s →
  unsigned_number s ∨
  ∃ b r, s = String b r ∧ (b = "-"%char ∨ b = "+"%char) ∧ unsigned_number r.
Proof.
  destruct s as [|[[] [] [] [] [] [] [] []] r]; simpl; eauto 10.
Qed.

Lemma plain_number_parse s : plain_number s → is_Some (parse_float s).
Proof.
  intros [Hu|(b & r & -> & Hb & Hu)]%plain_number_cases.
  - unfold parse_float.
    rewrite strip_no_space by (intros a; by apply unsigned_number_no_space).
    destruct (unsigned_number_head _ Hu) as (d & r' & -> & Hd).
    destruct (unsigned_number_parse _ Hu) as [q Hq].
    exists q. rewrite <-Hq.
    destruct d as [[] [] [] [] [] [] [] []]; try done; by destruct Hd.
  - unfold parse_float. rewrite strip_no_space.
    + destruct (unsigned_number_parse _ Hu) as [q Hq].
      destruct Hb as [-> | ->]; simpl; rewrite Hq; by eexists.
    + intros a. unfold chars. simpl. intros [->|Ha]%elem_of_cons.
      * by destruct Hb as [-> | ->].
      * by eapply unsigned_number_no_space.
Qed.

(** X10.  Without a column [state] the coercion raises a [KeyError].
    Otherwise labels, index and number of rows are kept, the [state] column
    holds what it held, and coercing the result again changes nothing.  A
    cell of another column that holds a number or [NaN] is kept, and one
    that holds the text of a plain number becomes that number. *)
Theorem coerce_numeric_again f :
  (CStr "state" ∉ columns f →
   coerce_numeric f = Err (KeyError "['state'] not found in axis")) ∧
  (∀ f', coerce_numeric f = Ok f' →
     coerce_numeric f' = Ok f' ∧
     columns f' = columns f ∧ index f' = index f ∧
     length (data f') = length (data f) ∧
     (∀ p, columns f !! p = Some (CStr "state") → column_at p f' = column_at p f) ∧
     (∀ i p row l c, data f !! i = Some row → columns f !! p = Some l →
        l ≠ CStr "state" → row !! p = Some c →
        (∀ s, c = CStr s → plain_number s) →
        ∃ row', data f' !! i = Some row' ∧
                row' !! p = Some (to_numeric c) ∧
                (is_numeric c → to_numeric c = c) ∧
                (∀ s, c = CStr s → ∃ q, parse_float s = Some q ∧
                                        to_numeric c = CNum q))).
Proof.
  split.
  { intros Hn. unfold coerce_numeric. by rewrite decide_False. }
  intros f'. unfold coerce_numeric at 1. case_decide as Hs; [|done]. intros [= <-].
  simpl. split; [|split; [done|split; [done|split; [by rewrite length_fmap|split]]]].
  - unfold coerce_numeric. simpl. rewrite decide_True by done. do 2 f_equal.
    rewrite <-list_fmap_compose. apply list_fmap_ext. intros _ row _. simpl.
    apply list_eq. intros p. rewrite !lookup_zip_with.
    destruct (columns f !! p) as [l|]; [|done]. simpl.
    destruct (row !! p) as [c|]; [|done]. simpl.
    case_decide; [done|]. by rewrite to_numeric_idemp.
  - intros p Hp. unfold column_at. simpl. rewrite <-list_fmap_compose.
    apply list_fmap_ext. intros _ row _. simpl. unfold cell_at.
    rewrite lookup_zip_with, Hp. simpl.
    destruct (row !! p) as [c|]; [|done]. simpl. by rewrite ?decide_True.
  - intros i p row l c Hrow Hl Hne Hc Hplain. eexists. split; [|split; [|split]].
    + rewrite list_lookup_fmap, Hrow. reflexivity.
    + rewrite lookup_zip_with, Hl. simpl. rewrite Hc. simpl. by rewrite decide_False.
    + by destruct c.
    + intros s ->. destruct (plain_number_parse s (Hplain s eq_refl)) as [q Hq].
      exists q. split; [done|]. simpl. by rewrite Hq.
Qed.

Lemma coerce_numeric_again_witness :
  ∃ f' row', coerce_numeric census_text_share = Ok f' ∧
             coerce_numeric f' = Ok f' ∧
             data f' !! 0%nat = Some row' ∧
             plain_of <$> row' !! 1%nat = Some (PNum (153 # 1000)%Q).
Proof.
  destruct (proj2 (coerce_numeric_again census_text_share) _ eq_refl)
    as (Hagain & _ & _ & _ & _ & Hcell).
  destruct (Hcell 0%nat 1%nat _ _ (CStr "0.153") eq_refl eq_refl) as (row' & Hrow' & Hv & _).
  - discriminate.
  - reflexivity.
  - intros s [= <-]. vm_compute. repeat split; try discriminate; by eexists.
  - eexists _, row'. split; [reflexivity|]. split; [exact Hagain|].
    split; [exact Hrow'|]. rewrite Hv. vm_compute. reflexivity.
Defined.

(** ** Why [Z] is replaced before the percent conversion *)

Lemma percent_to_decimal_Err c e :
  percent_to_decimal c = Err e → exn_class e = "ValueError".
Proof.
  unfold percent_to_decimal. destruct c as [s|q|]; simpl; [|done..].
  destruct (parse_float _); simpl; [done|]. by intros [= <-].
Qed.

Lemma percent_rows_below n : (50 ≤ n)%nat → Forall (λ i, i < n)%nat percent_rows.
Proof.
  intros Hn.
  assert (Forall (λ i, i < 50)%nat percent_rows) as H50.
  { apply (bool_decide_unpack _). vm_compute. exact I. }
  eapply Forall_impl; [exact H50|]. simpl. lia.
Qed.

Lemma percent_conversion_cell f f' i row j c :
  percent_conversion f = Ok f' → data f !! i = Some row → i ∈ percent_rows →
  (2 ≤ j)%nat → row !! j = Some c →
  ∃ row' c', data f' !! i = Some row' ∧ row' !! j = Some c' ∧
             percent_to_decimal c = Ok c'.
Proof.
  unfold percent_conversion. case_decide as HF; [|done].
  destruct (traverse _ _) as [rows|e] eqn:Ht; [|done]. intros [= <-] Hrow Hi Hj Hc.
  apply traverse_lookup in Ht as [_ Hrows].
  destruct (Hrows i (i, row)) as (row' & Hrow' & Hg).
  { apply lookup_zip_seq. split; [done|]. split; [|done]. by eapply lookup_lt_Some. }
  simpl in Hg. rewrite decide_True in Hg by done.
  destruct (traverse percent_to_decimal (drop 2 row)) as [tl|e] eqn:Htl; [|done].
  injection Hg as <-. apply traverse_lookup in Htl as [_ Htl].
  assert (2 < length row)%nat as Hlr by (apply lookup_lt_Some in Hc; lia).
  destruct (Htl (j - 2)%nat c) as (c' & Hc' & Hcc).
  { rewrite lookup_drop. by replace (2 + (j - 2))%nat with j by lia. }
  exists (take 2 row ++ tl), c'. split; [done|]. split; [|done].
  rewrite lookup_app_r; rewrite length_take; [|lia].
  by replace (j - 2 `min` length row)%nat with (j - 2)%nat by lia.
Qed.

Lemma float_char_false a :
  float_char a = false →
  Ascii.is_nat a = None ∧ a ≠ "."%char ∧ a ≠ "-"%char ∧ a ≠ "+"%char ∧
  Ascii.is_space a = false.
Proof.
  destruct a as [[] [] [] [] [] [] [] []]; vm_compute; intros H;
    first [discriminate H | repeat split; discriminate].
Qed.

(** X20.  In a table of at least 50 rows, a text cell of the percent block
    that holds, besides percent signs, an ASCII character that occurs in no
    number Python reads (as the [Z] the Census file writes for a value below
    half a unit) makes line 371 raise a [ValueError]; after the replacement
    of line 329 a cell [Z] is no obstacle and becomes the number 0. *)
Theorem percent_conversion_needs_replace_Z f i row j :
  (50 ≤ length (data f))%nat → data f !! i = Some row → i ∈ percent_rows →
  (2 ≤ j)%nat →
  (∀ s a, row !! j = Some (CStr s) → a ∈ chars s → a ≠ "%"%char →
          (nat_of_ascii a < 128)%nat → float_char a = false →
          ∃ e, percent_conversion f = Err e ∧ exn_class e = "ValueError") ∧
  (∀ f', row !! j = Some (CStr "Z") → percent_conversion (replace_Z f) = Ok f' →
         ∃ row', data f' !! i = Some row' ∧ row' !! j = Some (CNum (Qc_of_Z 0))).
Proof.
  intros Hlen Hrow Hi Hj. split.
  - intros s a Hc Ha Hpc _ (Hd & Hp & Hm & Hpl & Hsp)%float_char_false.
    assert (parse_float (remove_char "%" s) = None) as Hparse.
    { apply (parse_float_unreadable a); try done.
      by apply chars_remove_char_keep. }
    destruct (percent_conversion f) as [f'|e] eqn:Hf.
    { destruct (percent_conversion_cell f f' i row j _ Hf Hrow Hi Hj Hc)
        as (_ & c' & _ & _ & Hbad).
      unfold percent_to_decimal in Hbad. simpl in Hbad. by rewrite Hparse in Hbad. }
    exists e. split; [done|]. unfold percent_conversion in Hf.
    rewrite decide_True in Hf by (by apply percent_rows_below).
    destruct (traverse _ _) as [rows|e'] eqn:Ht; [done|]. injection Hf as ->.
    apply traverse_Err in Ht as ([k r] & _ & Hg). simpl in Hg.
    destruct (decide (k ∈ percent_rows)); [|done].
    destruct (traverse percent_to_decimal (drop 2 r)) as [tl|e'] eqn:Htl; [done|].
    injection Hg as ->. apply traverse_Err in Htl as (c & _ & Hc').
    by eapply percent_to_decimal_Err.
  - intros f' Hc Hf.
    destruct (percent_conversion_cell (replace_Z f) f' i (replace_Z_cell <$> row) j
                (CStr "0.0%") Hf) as (row' & c' & Hrow' & Hc' & Hok); [|done|done| |].
    + unfold replace_Z, map_cells. simpl. by rewrite list_lookup_fmap, Hrow.
    + by rewrite list_lookup_fmap, Hc.
    + exists row'. split; [done|]. rewrite Hc'. f_equal.
      assert (percent_to_decimal (CStr "0.0%") = Ok (CNum (Qc_of_Z 0))) as Hz.
      { vm_compute. do 2 f_equal. apply Qc_is_canon. reflexivity. }
      rewrite Hz in Hok. by injection Hok.
Qed.

Lemma percent_conversion_needs_replace_Z_witness :
  (∃ e, percent_conversion (census_fifty "13.00%" "Z") = Err e ∧
        exn_class e = "ValueError") ∧
  ∃ f' row', percent_conversion (replace_Z (census_fifty "13.00%" "Z")) = Ok f' ∧
             data f' !! 0%nat = Some row' ∧ row' !! 6%nat = Some (CNum (Qc_of_Z 0)).
Proof.
  assert (50 ≤ length (data (census_fifty "13.00%" "Z")))%nat as Hlen
    by (vm_compute; lia).
  assert (0%nat ∈ percent_rows) as Hin
    by (apply (bool_decide_unpack _); vm_compute; exact I).
  destruct (percent_conversion_needs_replace_Z (census_fifty "13.00%" "Z")
              0%nat _ 6%nat Hlen eq_refl Hin ltac:(lia)) as [Herr Hzero].
  split.
  - apply (Herr "Z" "Z"%char eq_refl).
    + apply (bool_decide_unpack _). vm_compute. exact I.
    + discriminate.
    + vm_compute. lia.
    + reflexivity.
  - assert (∃ f', percent_conversion (replace_Z (census_fifty "13.00%" "Z")) = Ok f')
      as [f' Hf'] by (eexists; vm_compute; reflexivity).
    destruct (Hzero f' eq_refl Hf') as (row' & Hrow' & Hcell).
    by exists f', row'.
Defined.
